(** * Nexus Compliance Engine: toggle service and assessment service

    A shallow embedding of [ComplianceToggleService] and [AssessmentService]
    (services/compliance-toggle-service.ts, services/assessment-service.ts),
    of the [transaction] helper of database/client.ts and of the parts of
    migration 001_compliance_core.sql the services rely on (tables, the
    audit trigger on [compliance_config]).

    - JavaScript numbers are IEEE-754 binary64 values.  Module [Binary64]
      gives the exact value of correctly rounded operations over [Q].
    - The relational store is a record of tables ([DB]); a transaction is a
      state-and-error monad over it ([Tx]) whose failure discards every
      write, as ROLLBACK does.
    - What the code takes from outside (uuids, [Math.random], [NOW()], the
      [config.ai] settings and storage failures) is gathered in [Env].
    - The paginated reads, the naming helpers of database/client.ts,
      function [is_compliance_module_enabled] of the migration and the
      routes of api/routes/config.ts and api/routes/assessments.ts that
      call the two services follow the services; a route is a function
      from a request and a store to a reply and a store. *)

From Stdlib Require Import ZArith QArith Qround Qpower Lia Lqa Floats Ascii.
From stdpp Require Import gmap strings list pretty sorting.

Local Open Scope string_scope.
Local Open Scope list_scope.

(** ** IEEE-754 binary64 arithmetic, round to nearest, ties to even *)

Module Binary64.
Local Open Scope Q_scope.

Definition pow2 (e : Z) : Q := 2 ^ e.

(** [ilog2 x] is the binary exponent of a positive [x]:
    [2^(ilog2 x) <= x < 2^(ilog2 x + 1)]. *)
Definition ilog2 (x : Q) : Z :=
  let k := (Z.log2 (Qnum x) - Z.log2 (Zpos (Qden x)))%Z in
  if Qle_bool (pow2 k) x then k else (k - 1)%Z.

(** Nearest integer, ties to even. *)
Definition rint_even (q : Q) : Z :=
  let f := Qfloor q in
  match Qcompare (q - inject_Z f) (1 # 2) with
  | Lt => f
  | Gt => (f + 1)%Z
  | Eq => if Z.even f then f else (f + 1)%Z
  end.

(** A positive number rounded to a 53-bit significand.  The exponent range
    is not bounded: the values the services compute stay far from the
    overflow and subnormal thresholds of binary64. *)
Definition round_pos (x : Q) : Q :=
  let e := (ilog2 x - 52)%Z in
  inject_Z (rint_even (x * pow2 (- e))) * pow2 e.

Definition round_ne (x : Q) : Q :=
  match Qcompare x 0 with
  | Eq => 0
  | Gt => round_pos x
  | Lt => - round_pos (- x)
  end.

(** The unit roundoff: rounding moves a number by at most this fraction of
    itself. *)
Definition eps : Q := pow2 (-53).

(** The JavaScript operators [/], [*], [+] on numbers. *)
Definition fdiv (a b : Q) : Q := round_ne (a / b).
Definition fmul (a b : Q) : Q := round_ne (a * b).
Definition fadd (a b : Q) : Q := round_ne (a + b).

(** A decimal literal denotes the nearest double. *)
Definition literal (q : Q) : Q := round_ne q.

(** [a < b] on numbers. *)
Definition flt (a b : Q) : bool := negb (Qle_bool b a).

(** [Math.round]: the nearest integer, halves towards +infinity. *)
Definition math_round (x : Q) : Z := Qfloor (x + (1 # 2)).

(** An integer count as a number: the counts of the services are far below
    2^53, where every integer is a double. *)
Definition of_nat (n : nat) : Q := inject_Z (Z.of_nat n).

(** The value of a finite hardware double, to compare the model with. *)
Definition SF2Q (f : spec_float) : option Q :=
  match f with
  | S754_zero _ => Some 0
  | S754_finite s m e =>
      Some ((if s then - (1) else 1) * inject_Z (Zpos m) * pow2 e)
  | _ => None
  end.

End Binary64.

(** ** Types (types/index.ts) *)

Inductive ModuleName := gdpr | aiAct | nis2 | iso27001 | soc2 | hipaa.

#[global] Instance ModuleName_eq_dec : EqDecision ModuleName.
Proof. solve_decision. Defined.

(** [ComplianceModuleConfig]: [{ enabled: boolean; [feature: string]: boolean }],
    a JSON object from string keys to booleans. *)
Abbreviation ComplianceModuleConfig := (gmap string bool).

Record ModuleConfigMap := mkModuleConfigMap {
  mc_gdpr : ComplianceModuleConfig;
  mc_aiAct : ComplianceModuleConfig;
  mc_nis2 : ComplianceModuleConfig;
  mc_iso27001 : ComplianceModuleConfig;
  mc_soc2 : ComplianceModuleConfig;
  mc_hipaa : ComplianceModuleConfig
}.

#[global] Instance ModuleConfigMap_eq_dec : EqDecision ModuleConfigMap.
Proof. solve_decision. Defined.

(** [moduleConfig[module]] *)
Definition module_get (m : ModuleConfigMap) (k : ModuleName) : ComplianceModuleConfig :=
  match k with
  | gdpr => mc_gdpr m
  | aiAct => mc_aiAct m
  | nis2 => mc_nis2 m
  | iso27001 => mc_iso27001 m
  | soc2 => mc_soc2 m
  | hipaa => mc_hipaa m
  end.

(** The module map with the object of module [k] replaced by [v]. *)
Definition module_set (m : ModuleConfigMap) (k : ModuleName) (v : ComplianceModuleConfig)
  : ModuleConfigMap :=
  match k with
  | gdpr => mkModuleConfigMap v (mc_aiAct m) (mc_nis2 m) (mc_iso27001 m) (mc_soc2 m) (mc_hipaa m)
  | aiAct => mkModuleConfigMap (mc_gdpr m) v (mc_nis2 m) (mc_iso27001 m) (mc_soc2 m) (mc_hipaa m)
  | nis2 => mkModuleConfigMap (mc_gdpr m) (mc_aiAct m) v (mc_iso27001 m) (mc_soc2 m) (mc_hipaa m)
  | iso27001 => mkModuleConfigMap (mc_gdpr m) (mc_aiAct m) (mc_nis2 m) v (mc_soc2 m) (mc_hipaa m)
  | soc2 => mkModuleConfigMap (mc_gdpr m) (mc_aiAct m) (mc_nis2 m) (mc_iso27001 m) v (mc_hipaa m)
  | hipaa => mkModuleConfigMap (mc_gdpr m) (mc_aiAct m) (mc_nis2 m) (mc_iso27001 m) (mc_soc2 m) v
  end.

Definition module_key (k : ModuleName) : string :=
  match k with
  | gdpr => "gdpr"
  | aiAct => "aiAct"
  | nis2 => "nis2"
  | iso27001 => "iso27001"
  | soc2 => "soc2"
  | hipaa => "hipaa"
  end.

Record ComplianceConfig := mkComplianceConfig {
  cfg_id : string;
  cfg_tenantId : string;
  masterEnabled : bool;
  moduleConfig : ModuleConfigMap;
  cfg_createdAt : nat;
  cfg_updatedAt : nat
}.

Inductive AuditAction := CREATE | UPDATE | TOGGLE_MASTER | TOGGLE_MODULE | TOGGLE_FEATURE.

#[global] Instance AuditAction_eq_dec : EqDecision AuditAction.
Proof. solve_decision. Defined.

(** The JSON documents stored in [previous_state] and [new_state]. *)
Inductive StateSnapshot :=
| SnapMaster (master : bool)                                  (* { masterEnabled } *)
| SnapMasterAndModules (master : bool) (m : ModuleConfigMap)  (* { masterEnabled, moduleConfig } *)
| SnapModules (m : ModuleConfigMap)                           (* the module map *)
| SnapRow (row : ComplianceConfig).                           (* row_to_json(OLD), row_to_json(NEW) *)

Record ComplianceConfigAudit := mkAudit {
  audit_id : string;
  audit_configId : string;
  audit_tenantId : string;
  action : AuditAction;
  changedBy : string;
  changeReason : string;
  previousState : option StateSnapshot;
  newState : StateSnapshot;
  moduleAffected : option string;
  featureAffected : option string;
  previousValue : option bool;
  newValue : option bool;
  audit_ipAddress : option string;
  audit_userAgent : option string;
  audit_sessionId : option string;
  audit_createdAt : nat
}.

Record ComplianceServiceContext := mkContext {
  tenantId : string;
  userId : string;
  requestId : string;
  sessionId : option string;
  ipAddress : option string;
  userAgent : option string
}.

Record ToggleMasterRequest := mkToggleMasterRequest {
  tm_enabled : bool;
  tm_reason : string
}.

Record ToggleModuleRequest := mkToggleModuleRequest {
  tq_module : ModuleName;
  tq_enabled : bool;
  tq_reason : string;
  tq_feature : option string
}.

Module AssessmentStatus.
Inductive t := pending | in_progress | completed | failed | cancelled.
#[global] Instance assessment_status_eq_dec : EqDecision t.
Proof. solve_decision. Defined.
End AssessmentStatus.

Module RiskLevel.
Inductive t := low | medium | high | critical.
#[global] Instance risk_level_eq_dec : EqDecision t.
Proof. solve_decision. Defined.
End RiskLevel.

Module FindingStatus.
Inductive t := compliant | non_compliant | partial | not_applicable | not_assessed.
#[global] Instance finding_status_eq_dec : EqDecision t.
Proof. solve_decision. Defined.
Definition to_string (s : t) : string :=
  match s with
  | compliant => "compliant"
  | non_compliant => "non_compliant"
  | partial => "partial"
  | not_applicable => "not_applicable"
  | not_assessed => "not_assessed"
  end.
End FindingStatus.

Module FindingSeverity.
Inductive t := critical | major | minor | observation.
#[global] Instance finding_severity_eq_dec : EqDecision t.
Proof. solve_decision. Defined.
End FindingSeverity.

Module RemediationStatus.
Inductive t := not_required | pending | in_progress | completed | accepted_risk | deferred.
#[global] Instance remediation_status_eq_dec : EqDecision t.
Proof. solve_decision. Defined.
End RemediationStatus.

Record ComplianceFramework := mkFramework {
  fw_id : string;
  fw_isActive : bool
}.

Record ComplianceControl := mkControl {
  ctl_id : string;
  ctl_frameworkId : string;
  controlNumber : string;
  domain : option string;
  title : string;
  implementationPriority : Z
}.

Record ComplianceAssessment := mkAssessment {
  asm_id : string;
  asm_tenantId : string;
  frameworkId : string;
  targetSystemId : string;
  targetSystemName : string;
  targetSystemDescription : option string;
  scope : list string;
  excludedControls : list string;
  status : AssessmentStatus.t;
  overallScore : option Z;
  riskLevel : option RiskLevel.t;
  totalControlsAssessed : nat;
  compliantControls : nat;
  nonCompliantControls : nat;
  partialControls : nat;
  notApplicableControls : nat;
  criticalFindings : nat;
  majorFindings : nat;
  minorFindings : nat;
  observations : nat;
  aiModelUsed : option string;
  asm_aiConfidence : option Q;
  startedAt : option nat;
  completedAt : option nat;
  asm_createdAt : nat;
  asm_updatedAt : nat
}.

Record ControlFinding := mkFinding {
  fnd_id : string;
  assessmentId : string;
  controlId : string;
  fnd_tenantId : string;
  fnd_status : FindingStatus.t;
  severity : option FindingSeverity.t;
  findingTitle : option string;
  findingDescription : option string;
  aiAssessment : option string;
  aiConfidence : option Q;
  remediationRequired : bool;
  remediationStatus : RemediationStatus.t;
  remediationPlan : option string;
  remediationOwner : option string;
  remediationDueDate : option nat;
  humanVerified : bool;
  verifiedBy : option string;
  verifiedAt : option nat;
  verificationNotes : option string;
  fnd_createdAt : nat;
  fnd_updatedAt : nat
}.

Record CreateAssessmentRequest := mkCreateAssessmentRequest {
  cr_frameworkId : string;
  cr_targetSystemId : string;
  cr_targetSystemName : string;
  cr_targetSystemDescription : option string;
  cr_scope : option (list string);
  cr_excludedControls : option (list string)
}.

Record RunAssessmentRequest := mkRunAssessmentRequest {
  useAI : bool;
  aiModel : option string;
  includeRecommendations : option bool
}.

(** The [updates] argument of [updateFinding]: every field is optional. *)
Record FindingUpdates := mkFindingUpdates {
  upd_status : option FindingStatus.t;
  upd_severity : option FindingSeverity.t;
  upd_findingTitle : option string;
  upd_findingDescription : option string;
  upd_remediationPlan : option string;
  upd_remediationOwner : option string;
  upd_remediationDueDate : option nat;
  upd_remediationStatus : option RemediationStatus.t;
  upd_verificationNotes : option string
}.

(** ** Errors

    The services throw plain [Error] objects told apart by their message;
    one constructor per throw site, named after the error kind. *)

Inductive FaultPoint :=
| AtBegin               (* BEGIN *)
| AtQuery (n : nat)     (* the n-th statement issued by the operation *)
| AtCommit.             (* COMMIT *)

Inductive Error :=
| ConfigNotFound (tenant : string)
    (* Compliance config not found for tenant ${tenantId} *)
| InvalidFeature (feature : string) (module : ModuleName)
    (* Feature ${feature} not found in module ${module} *)
| FrameworkNotFound (framework : string)
    (* Framework not found or inactive: ${frameworkId} *)
| AssessmentNotFound (assessment : string)
    (* Assessment not found: ${assessmentId} *)
| InvalidState (s : AssessmentStatus.t)
    (* Assessment cannot be run in status: ${status} *)
| NoValidFields
    (* No valid fields to update *)
| FindingNotFound (finding : string)
    (* Finding not found: ${findingId} *)
| NotNullViolation (column : string)
    (* a NOT NULL column of migration 001 received NULL *)
| InvalidInputSyntax (column : string)
    (* a BOOLEAN column received a value that is not a boolean *)
| TypeError
    (* a property read on undefined *)
| SyntaxError (near : string)
    (* the server could not parse the statement: syntax error at or near ... *)
| StorageError (at_ : FaultPoint).
    (* the database rejected or lost a statement *)

Inductive Result (A : Type) :=
| Ok (a : A)
| Err (e : Error).
Arguments Ok {A} a.
Arguments Err {A} e.

Definition is_ok {A} (r : Result A) : bool :=
  match r with Ok _ => true | Err _ => false end.

(** ** What the services take from outside *)

Record Env := mkEnv {
  uuidv4 : nat -> string;         (* the n-th identifier generated by the operation *)
  random : nat -> Q;              (* Math.random() drawn for the n-th control *)
  now : nat;                      (* NOW(): the start time of the transaction *)
  ai_enabled : bool;              (* config.ai.enabled *)
  ai_model : string;              (* config.ai.model *)
  fault : FaultPoint -> bool;     (* the statements the database fails *)
  scan_order : string -> string -> bool
    (* where ORDER BY leaves the order of two rows open: whether the row with
       the first primary key is returned before the row with the second *)
}.

(** ** The store (migration 001_compliance_core.sql) *)

Record DB := mkDB {
  compliance_config : gmap string ComplianceConfig;      (* UNIQUE (tenant_id) *)
  compliance_config_audit : list ComplianceConfigAudit;  (* newest first *)
  compliance_frameworks : list ComplianceFramework;
  compliance_controls : list ComplianceControl;          (* catalog order *)
  compliance_assessments : gmap string ComplianceAssessment;  (* PRIMARY KEY (id) *)
  control_findings : list ControlFinding                 (* newest first *)
}.

Definition set_compliance_config (f : gmap string ComplianceConfig -> gmap string ComplianceConfig)
  (db : DB) : DB :=
  mkDB (f (compliance_config db)) (compliance_config_audit db) (compliance_frameworks db)
       (compliance_controls db) (compliance_assessments db) (control_findings db).

Definition set_compliance_config_audit
  (f : list ComplianceConfigAudit -> list ComplianceConfigAudit) (db : DB) : DB :=
  mkDB (compliance_config db) (f (compliance_config_audit db)) (compliance_frameworks db)
       (compliance_controls db) (compliance_assessments db) (control_findings db).

Definition set_compliance_assessments
  (f : gmap string ComplianceAssessment -> gmap string ComplianceAssessment) (db : DB) : DB :=
  mkDB (compliance_config db) (compliance_config_audit db) (compliance_frameworks db)
       (compliance_controls db) (f (compliance_assessments db)) (control_findings db).

Definition set_control_findings (f : list ControlFinding -> list ControlFinding) (db : DB) : DB :=
  mkDB (compliance_config db) (compliance_config_audit db) (compliance_frameworks db)
       (compliance_controls db) (compliance_assessments db) (f (control_findings db)).

(** ** Transactions (database/client.ts)

    Inside a transaction the callback sees its own writes, the number of
    statements issued so far and the settings made with SET LOCAL. *)

Record TxState := mkTxState {
  tx_db : DB;
  tx_count : nat;
  app_current_user_id : option string;
  app_change_reason : option string
}.

Definition Tx (A : Type) : Type := TxState -> Result (A * TxState).

Definition ret {A} (a : A) : Tx A := fun s => Ok (a, s).

Definition throw {A} (e : Error) : Tx A := fun _ => Err e.

Definition bind {A B} (m : Tx A) (k : A -> Tx B) : Tx B :=
  fun s =>
    match m s with
    | Ok (a, s') => k a s'
    | Err e => Err e
    end.

Declare Scope tx_scope.
Delimit Scope tx_scope with tx.
Notation "x <- m ;; k" := (bind m (fun x => k))
  (at level 100, m at next level, right associativity) : tx_scope.
Notation "m ;;; k" := (bind m (fun _ => k))
  (at level 100, right associativity) : tx_scope.
Local Open Scope tx_scope.

(** [client.query]: one statement.  It fails when the database fails it,
    otherwise [stmt] reads and writes the tables; a trigger fired by the
    statement can read the settings of the transaction. *)
Definition client_query_with_settings {A} (env : Env)
  (stmt : option string -> option string -> DB -> Result (A * DB)) : Tx A :=
  fun s =>
    if fault env (AtQuery (tx_count s)) then Err (StorageError (AtQuery (tx_count s)))
    else
      match stmt (app_current_user_id s) (app_change_reason s) (tx_db s) with
      | Ok (a, db') =>
          Ok (a, mkTxState db' (S (tx_count s)) (app_current_user_id s) (app_change_reason s))
      | Err e => Err e
      end.

Definition client_query {A} (env : Env) (stmt : DB -> Result (A * DB)) : Tx A :=
  client_query_with_settings env (fun _ _ => stmt).

(** [client.query(`SET LOCAL app.current_user_id = $1`, [userId])] and
    [client.query(`SET LOCAL app.change_reason = $1`, [reason])].  The
    value is passed as a bind parameter, and SET is a utility statement
    that takes none: when the statement reaches the server, the server
    cannot parse it and answers with a syntax error at [$1], whatever the
    value.  The setting is never made. *)
Definition set_local_current_user_id (env : Env) (v : string) : Tx unit :=
  fun s =>
    if fault env (AtQuery (tx_count s)) then Err (StorageError (AtQuery (tx_count s)))
    else Err (SyntaxError "$1").

Definition set_local_change_reason (env : Env) (v : string) : Tx unit :=
  fun s =>
    if fault env (AtQuery (tx_count s)) then Err (StorageError (AtQuery (tx_count s)))
    else Err (SyntaxError "$1").

(** [transaction(callback)]: BEGIN, the callback, COMMIT; any error is
    answered with ROLLBACK and rethrown, so the store is the one the call
    started from. *)
Definition transaction {A} (env : Env) (callback : Tx A) (db : DB) : Result A * DB :=
  if fault env AtBegin then (Err (StorageError AtBegin), db)
  else
    match callback (mkTxState db 0 None None) with
    | Ok (a, s) =>
        if fault env AtCommit then (Err (StorageError AtCommit), db)
        else (Ok a, tx_db s)
    | Err e => (Err e, db)
    end.

(** [query]: one statement outside a transaction, committed on its own;
    [n] numbers the statements of the operation. *)
Definition query {A} (env : Env) (n : nat) (stmt : DB -> Result (A * DB)) (db : DB)
  : Result A * DB :=
  if fault env (AtQuery n) then (Err (StorageError (AtQuery n)), db)
  else
    match stmt db with
    | Ok (a, db') => (Ok a, db')
    | Err e => (Err e, db)
    end.

(** ** ORDER BY

    The rows are inserted one by one before the first row they may
    precede.  Where the sort key of a statement leaves the order of two
    rows open, [before] decides: by [scan_order] where the model keeps the
    choice of the database open, by the order of the scan otherwise. *)
Fixpoint insert_ordered {A} (before : A -> A -> bool) (x : A) (l : list A) : list A :=
  match l with
  | [] => [x]
  | y :: l' => if before x y then x :: y :: l' else y :: insert_ordered before x l'
  end.

Definition order_by {A} (before : A -> A -> bool) (l : list A) : list A :=
  foldr (insert_ordered before) [] l.

(** ** JavaScript objects used as records of booleans *)

(** The own properties of [Object.prototype], which every object parsed
    from JSON inherits. *)
Definition Object_prototype_keys : list string :=
  [ "constructor"; "__defineGetter__"; "__defineSetter__"; "hasOwnProperty";
    "__lookupGetter__"; "__lookupSetter__"; "isPrototypeOf";
    "propertyIsEnumerable"; "toString"; "valueOf"; "__proto__"; "toLocaleString" ].

Inductive PropertyValue :=
| PBool (b : bool)
| PInherited          (* a function or object found on the prototype *)
| PUndefined.

(** [o[key]] *)
Definition js_get (o : ComplianceModuleConfig) (key : string) : PropertyValue :=
  match o !! key with
  | Some b => PBool b
  | None => if bool_decide (key ∈ Object_prototype_keys) then PInherited else PUndefined
  end.

(** [key in o] *)
Definition js_in (key : string) (o : ComplianceModuleConfig) : bool :=
  match js_get o key with
  | PUndefined => false
  | _ => true
  end.

(** [o[key] = v]; the inherited setter of [__proto__] ignores a boolean. *)
Definition js_assign (o : ComplianceModuleConfig) (key : string) (v : bool)
  : ComplianceModuleConfig :=
  if bool_decide (key = "__proto__") && bool_decide (o !! key = None) then o
  else <[key := v]> o.

(** Truthiness of a property value, as tested by [!x]. *)
Definition truthy (v : PropertyValue) : bool :=
  match v with
  | PBool b => b
  | PInherited => true
  | PUndefined => false
  end.

(** [if (feature)]: an absent feature and the empty string are both falsy. *)
Definition feature_given (feature : option string) : bool :=
  match feature with
  | Some f => negb (String.eqb f "")
  | None => false
  end.

(** ** ComplianceToggleService (services/compliance-toggle-service.ts) *)

Definition DEFAULT_MODULE_CONFIG : ModuleConfigMap :=
  {| mc_gdpr := list_to_map
       [ ("enabled", true); ("dataExport", true); ("dataErasure", true);
         ("consentManagement", true); ("dataPortability", true);
         ("rectification", true); ("restrictProcessing", true) ];
     mc_aiAct := list_to_map
       [ ("enabled", true); ("riskClassification", true); ("humanOversight", true);
         ("transparencyLogging", true); ("technicalDocumentation", true);
         ("friaAssessment", true) ];
     mc_nis2 := list_to_map
       [ ("enabled", true); ("incidentReporting", true); ("securityMonitoring", true);
         ("supplyChainSecurity", true); ("businessContinuity", true) ];
     mc_iso27001 := list_to_map
       [ ("enabled", true); ("controlAssessment", true); ("auditTrail", true);
         ("riskManagement", true); ("accessControl", true) ];
     mc_soc2 := list_to_map
       [ ("enabled", false); ("securityControls", false);
         ("availabilityControls", false); ("confidentialityControls", false) ];
     mc_hipaa := list_to_map
       [ ("enabled", false); ("phiProtection", false); ("auditControls", false);
         ("accessManagement", false) ] |}.

(** *** Statements on [compliance_config] and [compliance_config_audit] *)

(** [SELECT * FROM compliance_config WHERE tenant_id = $1] (also FOR UPDATE) *)
Definition select_config (tenant : string) (db : DB) : Result (option ComplianceConfig * DB) :=
  Ok (compliance_config db !! tenant, db).

(** [INSERT INTO compliance_config (id, tenant_id, master_enabled, module_config)
     VALUES ($1, $2, $3, $4) RETURNING *] *)
Definition insert_config (env : Env) (id tenant : string) (master : bool) (m : ModuleConfigMap)
  (db : DB) : Result (ComplianceConfig * DB) :=
  let row := mkComplianceConfig id tenant master m (now env) (now env) in
  Ok (row, set_compliance_config (insert tenant row) db).

(** [INSERT INTO compliance_config_audit ...] *)
Definition insert_audit (row : ComplianceConfigAudit) (db : DB) : DB :=
  set_compliance_config_audit (cons row) db.

(** Trigger [audit_compliance_config_changes], AFTER UPDATE ON
    compliance_config FOR EACH ROW: function [log_compliance_toggle_change].
    [current_setting('app.current_user_id', true)] and
    [current_setting('app.change_reason', true)] feed the NOT NULL columns
    [changed_by] and [change_reason]. *)
Definition trigger_audit_row (env : Env) (n : nat) (user reason : option string)
  (NEW : ComplianceConfig) (act : AuditAction)
  (previous_state : StateSnapshot) (new_state : StateSnapshot)
  (module_affected feature_affected : option string)
  (previous_value new_value : option bool) (db : DB) : Result DB :=
  match user, reason with
  | None, _ => Err (NotNullViolation "changed_by")
  | Some _, None => Err (NotNullViolation "change_reason")
  | Some u, Some r =>
      Ok (insert_audit
            (mkAudit (uuidv4 env n) (cfg_id NEW) (cfg_tenantId NEW) act u r
               (Some previous_state) new_state module_affected feature_affected
               previous_value new_value None None None (now env)) db)
  end.

Definition log_compliance_toggle_change (env : Env) (user reason : option string)
  (OLD NEW : ComplianceConfig) (db : DB) : Result DB :=
  (* IF OLD.master_enabled IS DISTINCT FROM NEW.master_enabled *)
  match
    (if bool_decide (masterEnabled OLD = masterEnabled NEW) then Ok db
     else trigger_audit_row env 2 user reason NEW TOGGLE_MASTER (SnapRow OLD) (SnapRow NEW)
            (Some "master") (Some "enabled")
            (Some (masterEnabled OLD)) (Some (masterEnabled NEW)) db)
  with
  | Err e => Err e
  | Ok db1 =>
      (* IF OLD.module_config IS DISTINCT FROM NEW.module_config *)
      if bool_decide (moduleConfig OLD = moduleConfig NEW) then Ok db1
      else trigger_audit_row env 3 user reason NEW TOGGLE_MODULE
             (SnapModules (moduleConfig OLD)) (SnapModules (moduleConfig NEW))
             None None None None db1
  end.

(** An UPDATE of the row of [tenant]: trigger
    [update_compliance_config_updated_at] (BEFORE UPDATE) stamps
    [updated_at], then the audit trigger runs.  RETURNING * yields the new
    row, or nothing when the tenant has no row. *)
Definition update_config (env : Env) (tenant : string)
  (change : ComplianceConfig -> ComplianceConfig)
  (user reason : option string) (db : DB) : Result (option ComplianceConfig * DB) :=
  match compliance_config db !! tenant with
  | None => Ok (None, db)
  | Some OLD =>
      let changed := change OLD in
      let NEW := mkComplianceConfig (cfg_id changed) (cfg_tenantId changed)
                   (masterEnabled changed) (moduleConfig changed)
                   (cfg_createdAt changed) (now env) in
      match log_compliance_toggle_change env user reason OLD NEW
              (set_compliance_config (insert tenant NEW) db) with
      | Ok db' => Ok (Some NEW, db')
      | Err e => Err e
      end
  end.

(** [UPDATE compliance_config SET master_enabled = $1, updated_at = NOW()
     WHERE tenant_id = $2 RETURNING *] *)
Definition update_master_enabled (env : Env) (tenant : string) (enabled : bool) :=
  update_config env tenant
    (fun c => mkComplianceConfig (cfg_id c) (cfg_tenantId c) enabled (moduleConfig c)
                (cfg_createdAt c) (cfg_updatedAt c)).

(** [UPDATE compliance_config SET module_config = $1, updated_at = NOW()
     WHERE tenant_id = $2 RETURNING *] *)
Definition update_module_config (env : Env) (tenant : string) (m : ModuleConfigMap) :=
  update_config env tenant
    (fun c => mkComplianceConfig (cfg_id c) (cfg_tenantId c) (masterEnabled c) m
                (cfg_createdAt c) (cfg_updatedAt c)).

(** [logConfigChange]: one INSERT into [compliance_config_audit]. *)
Definition logConfigChange (env : Env) (row : ComplianceConfigAudit) : Tx unit :=
  client_query env (fun db => Ok (tt, insert_audit row db)).

(** [getConfig]: the tenant's row, created with the defaults when absent. *)
Definition getConfig (env : Env) (tenant : string) (db : DB) : Result ComplianceConfig * DB :=
  match query env 0 (select_config tenant) db with
  | (Err e, db') => (Err e, db')
  | (Ok None, db') =>
      (* createDefaultConfig *)
      query env 1 (insert_config env (uuidv4 env 0) tenant true DEFAULT_MODULE_CONFIG) db'
  | (Ok (Some row), db') => (Ok row, db')
  end.

(** [rows[0]!] of a statement that returns the row it wrote. *)
Definition returned_row {A} (r : option A) : Tx A :=
  match r with
  | Some a => ret a
  | None => throw TypeError
  end.

(** [toggleMaster] *)
Definition toggleMaster (env : Env) (context : ComplianceServiceContext)
  (request : ToggleMasterRequest) (db : DB) : Result ComplianceConfig * DB :=
  transaction env
    (set_local_current_user_id env (userId context) ;;;
     set_local_change_reason env (tm_reason request) ;;;
     configResult <- client_query env (select_config (tenantId context)) ;;
     match configResult with
     | None =>
         config <- client_query env
                     (insert_config env (uuidv4 env 0) (tenantId context)
                        (tm_enabled request) DEFAULT_MODULE_CONFIG) ;;
         logConfigChange env
           (mkAudit (uuidv4 env 1) (cfg_id config) (tenantId context) CREATE
              (userId context) (tm_reason request)
              None
              (SnapMasterAndModules (tm_enabled request) DEFAULT_MODULE_CONFIG)
              (Some "master") (Some "enabled")
              None (Some (tm_enabled request))
              (ipAddress context) (userAgent context) (sessionId context) (now env)) ;;;
         ret config
     | Some previousConfig =>
         updateResult <- client_query_with_settings env
                           (update_master_enabled env (tenantId context) (tm_enabled request)) ;;
         config <- returned_row updateResult ;;
         logConfigChange env
           (mkAudit (uuidv4 env 1) (cfg_id config) (tenantId context) TOGGLE_MASTER
              (userId context) (tm_reason request)
              (Some (SnapMaster (masterEnabled previousConfig)))
              (SnapMaster (tm_enabled request))
              (Some "master") (Some "enabled")
              (Some (masterEnabled previousConfig)) (Some (tm_enabled request))
              (ipAddress context) (userAgent context) (sessionId context) (now env)) ;;;
         ret config
     end)
    db.

(** The module map after the assignment of [toggleModule]:
    [newModuleConfig[module][feature] = enabled] when a feature is given,
    [newModuleConfig[module].enabled = enabled] otherwise. *)
Definition toggled_module_config (previous : ModuleConfigMap) (module : ModuleName)
  (feature : option string) (enabled : bool) : Result ModuleConfigMap :=
  let moduleConfig := module_get previous module in
  match feature with
  | Some f =>
      if feature_given feature then
        if js_in f moduleConfig
        then Ok (module_set previous module (js_assign moduleConfig f enabled))
        else Err (InvalidFeature f module)
      else Ok (module_set previous module (<["enabled" := enabled]> moduleConfig))
  | None => Ok (module_set previous module (<["enabled" := enabled]> moduleConfig))
  end.

(** [toggleModule].  [{ ...previousConfig.moduleConfig }] copies the outer
    object only: the module objects are shared, so the assignment is seen
    through [previousConfig] too, and the value and the snapshot logged as
    previous are read after it. *)
Definition toggleModule (env : Env) (context : ComplianceServiceContext)
  (request : ToggleModuleRequest) (db : DB) : Result ComplianceConfig * DB :=
  let module := tq_module request in
  let enabled := tq_enabled request in
  let feature := tq_feature request in
  transaction env
    (set_local_current_user_id env (userId context) ;;;
     set_local_change_reason env (tq_reason request) ;;;
     configResult <- client_query env (select_config (tenantId context)) ;;
     match configResult with
     | None => throw (ConfigNotFound (tenantId context))
     | Some previousConfig =>
         match toggled_module_config (moduleConfig previousConfig) module feature enabled with
         | Err e => throw e
         | Ok newModuleConfig =>
             updateResult <- client_query_with_settings env
                               (update_module_config env (tenantId context) newModuleConfig) ;;
             config <- returned_row updateResult ;;
             (* previousConfig.moduleConfig[module], after the assignment *)
             let aliased := module_get newModuleConfig module in
             let previousValue :=
               js_get aliased (if feature_given feature then default "" feature else "enabled") in
             match previousValue with
             | PInherited => throw (InvalidInputSyntax "previous_value")
             | _ =>
                 logConfigChange env
                   (mkAudit (uuidv4 env 1) (cfg_id config) (tenantId context)
                      (if feature_given feature then TOGGLE_FEATURE else TOGGLE_MODULE)
                      (userId context) (tq_reason request)
                      (Some (SnapModules newModuleConfig))
                      (SnapModules newModuleConfig)
                      (Some (module_key module))
                      (Some (default "enabled" feature))
                      (match previousValue with PBool b => Some b | _ => None end)
                      (Some enabled)
                      (ipAddress context) (userAgent context) (sessionId context) (now env)) ;;;
                 ret config
             end
         end
     end)
    db.

(** The decision of [isEnabled] on a configuration. *)
Definition isEnabledIn (config : ComplianceConfig) (module : ModuleName)
  (feature : option string) : bool :=
  if negb (masterEnabled config) then false
  else
    let moduleConfig := module_get (moduleConfig config) module in
    if negb (truthy (js_get moduleConfig "enabled")) then false
    else if negb (feature_given feature) then true
    else
      match js_get moduleConfig (default "" feature) with
      | PBool true => true        (* featureValue === true *)
      | _ => false
      end.

(** [isEnabled] *)
Definition isEnabled (env : Env) (tenant : string) (module : ModuleName)
  (feature : option string) (db : DB) : Result bool * DB :=
  match getConfig env tenant db with
  | (Ok config, db') => (Ok (isEnabledIn config module feature), db')
  | (Err e, db') => (Err e, db')
  end.

(** [getAuditLog]: the number of rows of the tenant that pass the
    filters, and the page of them asked for with LIMIT and OFFSET.
    [ORDER BY created_at DESC] puts newer rows first and leaves the order
    of rows written at the same time, as the rows of one transaction are,
    to the database. *)
Definition audit_matches (tenant : string) (act : option AuditAction) (module : option string)
  (a : ComplianceConfigAudit) : bool :=
  bool_decide (audit_tenantId a = tenant)
  && match act with Some x => bool_decide (action a = x) | None => true end
  && match module with
     | Some m => if feature_given (Some m) then bool_decide (moduleAffected a = Some m) else true
     | None => true
     end.

Definition audit_rows (tenant : string) (act : option AuditAction) (module : option string)
  (db : DB) : list ComplianceConfigAudit :=
  filter (fun a => audit_matches tenant act module a = true) (compliance_config_audit db).

Definition created_before (env : Env) (a b : ComplianceConfigAudit) : bool :=
  (audit_createdAt b <? audit_createdAt a)%nat
  || ((audit_createdAt b =? audit_createdAt a)%nat && scan_order env (audit_id a) (audit_id b)).

Definition getAuditLog (env : Env) (tenant : string) (limit offset : nat)
  (act : option AuditAction) (module : option string) (db : DB)
  : list ComplianceConfigAudit * nat :=
  let rows := audit_rows tenant act module db in
  (* Get total count *)
  let total := length rows in
  (* Get audits *)
  (take limit (drop offset (order_by (created_before env) rows)), total).

(** The audit rows of a tenant: the [COUNT( * )] of [getAuditLog] without
    filters. *)
Definition audit_count (tenant : string) (db : DB) : nat :=
  length (audit_rows tenant None None db).

(** ** AssessmentService (services/assessment-service.ts) *)

Definition calculateRiskLevel (score : Z) : RiskLevel.t :=
  if (90 <=? score)%Z then RiskLevel.low
  else if (70 <=? score)%Z then RiskLevel.medium
  else if (50 <=? score)%Z then RiskLevel.high
  else RiskLevel.critical.

(** The score of [runAssessment]:
    [totalAssessed > 0
       ? Math.round((compliant / totalAssessed) * 100 + (partial / totalAssessed) * 50)
       : 0] *)
Definition calculateOverallScore (compliant nonCompliant partial : nat) : Z :=
  let totalAssessed := (compliant + nonCompliant + partial)%nat in
  if (0 <? totalAssessed)%nat then
    Binary64.math_round
      (Binary64.fadd
         (Binary64.fmul
            (Binary64.fdiv (Binary64.of_nat compliant) (Binary64.of_nat totalAssessed)) 100)
         (Binary64.fmul
            (Binary64.fdiv (Binary64.of_nat partial) (Binary64.of_nat totalAssessed)) 50))
  else 0%Z.

(** The score as the specification words it, in exact arithmetic:
    [round(100 * compliant/totalAssessed + 50 * partial/totalAssessed)],
    and [0] when nothing was assessed. *)
Definition spec_score (compliant nonCompliant partial : nat) : Z :=
  let totalAssessed := (compliant + nonCompliant + partial)%nat in
  if (0 <? totalAssessed)%nat then
    Binary64.math_round
      (100 * Binary64.of_nat compliant / Binary64.of_nat totalAssessed
       + 50 * Binary64.of_nat partial / Binary64.of_nat totalAssessed)%Q
  else 0%Z.

(** The same expression on hardware doubles, to test the model against. *)
Definition hardware_score_sum (compliant partial totalAssessed : Z) : float :=
  (of_uint63 (Uint63.of_Z compliant) / of_uint63 (Uint63.of_Z totalAssessed) * 100
   + of_uint63 (Uint63.of_Z partial) / of_uint63 (Uint63.of_Z totalAssessed) * 50)%float.

Definition model_score_sum (compliant partial totalAssessed : Z) : Q :=
  Binary64.fadd
    (Binary64.fmul (Binary64.fdiv (inject_Z compliant) (inject_Z totalAssessed)) 100)
    (Binary64.fmul (Binary64.fdiv (inject_Z partial) (inject_Z totalAssessed)) 50).

(** Whether the model and the hardware give the same sum. *)
Definition agrees_with_hardware (c p t : nat) : bool :=
  match Binary64.SF2Q
          (Prim2SF (hardware_score_sum (Z.of_nat c) (Z.of_nat p) (Z.of_nat t))) with
  | Some q => Qeq_bool q (model_score_sum (Z.of_nat c) (Z.of_nat p) (Z.of_nat t))
  | None => false
  end.

(** *** Statements on the assessment tables *)

(** [SELECT id FROM compliance_frameworks WHERE id = $1 AND is_active = true] *)
Definition select_active_framework (id : string) (db : DB)
  : Result (list ComplianceFramework * DB) :=
  Ok (filter (fun f => fw_id f = id ∧ fw_isActive f = true) (compliance_frameworks db), db).

(** [INSERT INTO compliance_assessments (...) VALUES (...) RETURNING *];
    the other columns take their defaults. *)
Definition insert_assessment (env : Env) (id : string) (context : ComplianceServiceContext)
  (request : CreateAssessmentRequest) (db : DB) : Result (ComplianceAssessment * DB) :=
  let row :=
    {| asm_id := id;
       asm_tenantId := tenantId context;
       frameworkId := cr_frameworkId request;
       targetSystemId := cr_targetSystemId request;
       targetSystemName := cr_targetSystemName request;
       targetSystemDescription := cr_targetSystemDescription request;
       scope := default [] (cr_scope request);
       excludedControls := default [] (cr_excludedControls request);
       status := AssessmentStatus.pending;
       overallScore := None;
       riskLevel := None;
       totalControlsAssessed := 0;
       compliantControls := 0;
       nonCompliantControls := 0;
       partialControls := 0;
       notApplicableControls := 0;
       criticalFindings := 0;
       majorFindings := 0;
       minorFindings := 0;
       observations := 0;
       aiModelUsed := None;
       asm_aiConfidence := None;
       startedAt := None;
       completedAt := None;
       asm_createdAt := now env;
       asm_updatedAt := now env |} in
  Ok (row, set_compliance_assessments (insert id row) db).

(** [createAssessment] *)
Definition createAssessment (env : Env) (context : ComplianceServiceContext)
  (request : CreateAssessmentRequest) (db : DB) : Result ComplianceAssessment * DB :=
  let id := uuidv4 env 0 in
  match query env 0 (select_active_framework (cr_frameworkId request)) db with
  | (Err e, db') => (Err e, db')
  | (Ok [], db') => (Err (FrameworkNotFound (cr_frameworkId request)), db')
  | (Ok (_ :: _), db') => query env 1 (insert_assessment env id context request) db'
  end.

(** [getAssessment] *)
Definition getAssessment (tenant assessment : string) (db : DB) : option ComplianceAssessment :=
  match compliance_assessments db !! assessment with
  | Some a => if bool_decide (asm_tenantId a = tenant) then Some a else None
  | None => None
  end.

(** [SELECT * FROM compliance_assessments WHERE id = $1 AND tenant_id = $2 FOR UPDATE] *)
Definition select_assessment_for_update (assessment tenant : string) (db : DB)
  : Result (option ComplianceAssessment * DB) :=
  Ok (getAssessment tenant assessment db, db).

(** The row written by
    [UPDATE compliance_assessments
     SET status = 'in_progress', started_at = NOW(), updated_at = NOW() WHERE id = $1]. *)
Definition started_row (env : Env) (a : ComplianceAssessment) : ComplianceAssessment :=
  {| asm_id := asm_id a;
     asm_tenantId := asm_tenantId a;
     frameworkId := frameworkId a;
     targetSystemId := targetSystemId a;
     targetSystemName := targetSystemName a;
     targetSystemDescription := targetSystemDescription a;
     scope := scope a;
     excludedControls := excludedControls a;
     status := AssessmentStatus.in_progress;
     overallScore := overallScore a;
     riskLevel := riskLevel a;
     totalControlsAssessed := totalControlsAssessed a;
     compliantControls := compliantControls a;
     nonCompliantControls := nonCompliantControls a;
     partialControls := partialControls a;
     notApplicableControls := notApplicableControls a;
     criticalFindings := criticalFindings a;
     majorFindings := majorFindings a;
     minorFindings := minorFindings a;
     observations := observations a;
     aiModelUsed := aiModelUsed a;
     asm_aiConfidence := asm_aiConfidence a;
     startedAt := Some (now env);
     completedAt := completedAt a;
     asm_createdAt := asm_createdAt a;
     asm_updatedAt := now env |}.

Definition mark_in_progress (env : Env) (assessment : string) (db : DB) : Result (unit * DB) :=
  Ok (tt, set_compliance_assessments (alter (started_row env) assessment) db).

(** ORDER BY implementation_priority DESC: a control of higher priority
    comes first; the statement has no second sort key, so the order of two
    controls of equal priority is the database's choice. *)
Definition priority_before (env : Env) (c x : ComplianceControl) : bool :=
  (implementationPriority x <? implementationPriority c)%Z
  || ((implementationPriority x =? implementationPriority c)%Z
      && scan_order env (ctl_id c) (ctl_id x)).

Fixpoint insert_by_priority (env : Env) (c : ComplianceControl) (l : list ComplianceControl)
  : list ComplianceControl :=
  match l with
  | [] => [c]
  | x :: l' =>
      if priority_before env c x
      then c :: x :: l'
      else x :: insert_by_priority env c l'
  end.

Definition order_by_priority_desc (env : Env) (l : list ComplianceControl)
  : list ComplianceControl :=
  foldr (insert_by_priority env) [] l.

(** [SELECT * FROM compliance_controls WHERE framework_id = $1
       [AND domain = ANY($2)]       -- when the scope is not empty
       [AND id != ALL($n)]          -- when controls are excluded
     ORDER BY implementation_priority DESC] *)
Definition control_selected (a : ComplianceAssessment) (c : ComplianceControl) : bool :=
  bool_decide (ctl_frameworkId c = frameworkId a)
  && (if bool_decide (scope a = []) then true
      else match domain c with
           | Some d => bool_decide (d ∈ scope a)
           | None => false
           end)
  && (if bool_decide (excludedControls a = []) then true
      else bool_decide (ctl_id c ∉ excludedControls a)).

Definition select_controls (env : Env) (a : ComplianceAssessment) (db : DB)
  : Result (list ComplianceControl * DB) :=
  Ok (order_by_priority_desc env
        (filter (fun c => control_selected a c = true) (compliance_controls db)), db).

(** The counters of the loop over the controls. *)
Record Tally := mkTally {
  t_compliant : nat;
  t_nonCompliant : nat;
  t_partial : nat;
  t_notApplicable : nat;
  t_critical : nat;
  t_major : nat;
  t_minor : nat;
  t_observations : nat
}.

Definition zero_tally : Tally := mkTally 0 0 0 0 0 0 0 0.

Record Evaluation := mkEvaluation {
  ev_status : FindingStatus.t;
  ev_severity : option FindingSeverity.t;
  ev_aiAssessment : option string;
  ev_aiConfidence : Q
}.

(** The body of the loop up to the INSERT: the simulated evaluation of the
    [i]-th control. *)
Definition evaluate_control (env : Env) (options : RunAssessmentRequest) (i : nat)
  (control : ComplianceControl) (t : Tally) : Evaluation * Tally :=
  if useAI options && ai_enabled env then
    let priority := implementationPriority control in
    let random := random env i in
    let '(st, sev, t') :=
      if Binary64.flt random (Binary64.literal (6 # 10)) then
        (FindingStatus.compliant, None,
         mkTally (S (t_compliant t)) (t_nonCompliant t) (t_partial t) (t_notApplicable t)
           (t_critical t) (t_major t) (t_minor t) (t_observations t))
      else if Binary64.flt random (Binary64.literal (75 # 100)) then
        (FindingStatus.partial, Some FindingSeverity.minor,
         mkTally (t_compliant t) (t_nonCompliant t) (S (t_partial t)) (t_notApplicable t)
           (t_critical t) (t_major t) (S (t_minor t)) (t_observations t))
      else if Binary64.flt random (Binary64.literal (9 # 10)) then
        if (80 <? priority)%Z then
          (FindingStatus.non_compliant, Some FindingSeverity.major,
           mkTally (t_compliant t) (S (t_nonCompliant t)) (t_partial t) (t_notApplicable t)
             (t_critical t) (S (t_major t)) (t_minor t) (t_observations t))
        else
          (FindingStatus.non_compliant, Some FindingSeverity.minor,
           mkTally (t_compliant t) (S (t_nonCompliant t)) (t_partial t) (t_notApplicable t)
             (t_critical t) (t_major t) (S (t_minor t)) (t_observations t))
      else
        (FindingStatus.not_applicable, None,
         mkTally (t_compliant t) (t_nonCompliant t) (t_partial t) (S (t_notApplicable t))
           (t_critical t) (t_major t) (t_minor t) (t_observations t)) in
    let aiAssessment :=
      "AI-assisted evaluation of " +:+ title control +:+ ". " +:+
      (if bool_decide (st = FindingStatus.compliant)
       then "Control appears to be effectively implemented."
       else "Gaps identified in control implementation. Remediation recommended.") in
    (mkEvaluation st sev (Some aiAssessment) (75 # 100), t')
  else
    (* Manual assessment - mark as not assessed *)
    (mkEvaluation FindingStatus.not_assessed None None 0, t).

(** The row of [INSERT INTO control_findings (...) VALUES ($1, ..., $12)];
    the other columns take their defaults. *)
Definition finding_row (env : Env) (context : ComplianceServiceContext) (assessment : string)
  (options : RunAssessmentRequest) (findingId : string) (control : ComplianceControl)
  (ev : Evaluation) : ControlFinding :=
  let st := ev_status ev in
  let needs_remediation :=
    bool_decide (st = FindingStatus.non_compliant) || bool_decide (st = FindingStatus.partial) in
  {| fnd_id := findingId;
     assessmentId := assessment;
     controlId := ctl_id control;
     fnd_tenantId := tenantId context;
     fnd_status := st;
     severity := ev_severity ev;
     findingTitle :=
       if bool_decide (st = FindingStatus.compliant) then None
       else Some (title control +:+ " - " +:+ FindingStatus.to_string st);
     findingDescription :=
       if bool_decide (st = FindingStatus.compliant) then None
       else Some ("Review and remediate " +:+ controlNumber control);
     aiAssessment := ev_aiAssessment ev;
     aiConfidence := if useAI options then Some (ev_aiConfidence ev) else None;
     remediationRequired := needs_remediation;
     remediationStatus :=
       if needs_remediation then RemediationStatus.pending else RemediationStatus.not_required;
     remediationPlan := None;
     remediationOwner := None;
     remediationDueDate := None;
     humanVerified := false;
     verifiedBy := None;
     verifiedAt := None;
     verificationNotes := None;
     fnd_createdAt := now env;
     fnd_updatedAt := now env |}.

Definition insert_finding (row : ControlFinding) (db : DB) : Result (unit * DB) :=
  Ok (tt, set_control_findings (cons row) db).

(** [for (const control of controls) { ... }]; [i] counts the controls
    already handled. *)
Fixpoint assess_controls (env : Env) (context : ComplianceServiceContext) (assessment : string)
  (options : RunAssessmentRequest) (i : nat) (controls : list ComplianceControl) (t : Tally)
  : Tx Tally :=
  match controls with
  | [] => ret t
  | control :: rest =>
      let findingId := uuidv4 env i in
      let '(ev, t') := evaluate_control env options i control t in
      client_query env
        (insert_finding (finding_row env context assessment options findingId control ev)) ;;;
      assess_controls env context assessment options (S i) rest t'
  end.

(** The row written by
    [UPDATE compliance_assessments SET status = 'completed', completed_at = NOW(),
       overall_score = $1, risk_level = $2, total_controls_assessed = $3, ...,
       updated_at = NOW()
     WHERE id = $14 RETURNING *]
    with [$3 = controls.length]. *)
Definition completed_row (env : Env) (options : RunAssessmentRequest)
  (controls : list ComplianceControl) (score : Z) (risk : RiskLevel.t) (t : Tally)
  (a : ComplianceAssessment) : ComplianceAssessment :=
  {| asm_id := asm_id a;
     asm_tenantId := asm_tenantId a;
     frameworkId := frameworkId a;
     targetSystemId := targetSystemId a;
     targetSystemName := targetSystemName a;
     targetSystemDescription := targetSystemDescription a;
     scope := scope a;
     excludedControls := excludedControls a;
     status := AssessmentStatus.completed;
     overallScore := Some score;
     riskLevel := Some risk;
     totalControlsAssessed := length controls;
     compliantControls := t_compliant t;
     nonCompliantControls := t_nonCompliant t;
     partialControls := t_partial t;
     notApplicableControls := t_notApplicable t;
     criticalFindings := t_critical t;
     majorFindings := t_major t;
     minorFindings := t_minor t;
     observations := t_observations t;
     aiModelUsed :=
       if useAI options then Some (default (ai_model env) (aiModel options)) else None;
     asm_aiConfidence := if useAI options then Some (75 # 100)%Q else None;
     startedAt := startedAt a;
     completedAt := Some (now env);
     asm_createdAt := asm_createdAt a;
     asm_updatedAt := now env |}.

Definition complete_assessment (env : Env) (assessment : string) (options : RunAssessmentRequest)
  (controls : list ComplianceControl) (score : Z) (risk : RiskLevel.t) (t : Tally) (db : DB)
  : Result (option ComplianceAssessment * DB) :=
  let db' :=
    set_compliance_assessments
      (alter (completed_row env options controls score risk t) assessment) db in
  Ok (compliance_assessments db' !! assessment, db').

(** [runAssessment] *)
Definition runAssessment (env : Env) (context : ComplianceServiceContext)
  (assessmentId : string) (options : RunAssessmentRequest) (db : DB)
  : Result ComplianceAssessment * DB :=
  transaction env
    (assessmentResult <- client_query env
                           (select_assessment_for_update assessmentId (tenantId context)) ;;
     match assessmentResult with
     | None => throw (AssessmentNotFound assessmentId)
     | Some assessment =>
         if bool_decide (status assessment ≠ AssessmentStatus.pending)
            && bool_decide (status assessment ≠ AssessmentStatus.failed)
         then throw (InvalidState (status assessment))
         else
           (* Update status to in_progress *)
           client_query env (mark_in_progress env assessmentId) ;;;
           (* Get controls for the framework *)
           controls <- client_query env (select_controls env assessment) ;;
           (* Create findings for each control *)
           t <- assess_controls env context assessmentId options 0 controls zero_tally ;;
           (* Calculate overall score *)
           let overallScore :=
             calculateOverallScore (t_compliant t) (t_nonCompliant t) (t_partial t) in
           let riskLevel := calculateRiskLevel overallScore in
           (* Update assessment with results *)
           finalResult <- client_query env
                            (complete_assessment env assessmentId options controls
                               overallScore riskLevel t) ;;
           returned_row finalResult
     end)
    db.

(** *** updateFinding *)

Definition no_updates (u : FindingUpdates) : bool :=
  match upd_status u, upd_severity u, upd_findingTitle u, upd_findingDescription u,
        upd_remediationPlan u, upd_remediationOwner u, upd_remediationDueDate u,
        upd_remediationStatus u, upd_verificationNotes u with
  | None, None, None, None, None, None, None, None, None => true
  | _, _, _, _, _, _, _, _, _ => false
  end.

(** [updates.status && updates.status !== 'not_assessed'] *)
Definition marks_verified (u : FindingUpdates) : bool :=
  match upd_status u with
  | Some s => bool_decide (s ≠ FindingStatus.not_assessed)
  | None => false
  end.

(** [v] when the update gives one, the stored value otherwise. *)
Definition set_column {A} (v : option A) (old : A) : A := default old v.

Definition set_nullable {A} (v : option A) (old : option A) : option A :=
  match v with
  | Some x => Some x
  | None => old
  end.

(** The SET clauses built by [updateFinding], applied to one row. *)
Definition apply_updates (env : Env) (context : ComplianceServiceContext) (u : FindingUpdates)
  (f : ControlFinding) : ControlFinding :=
  {| fnd_id := fnd_id f;
     assessmentId := assessmentId f;
     controlId := controlId f;
     fnd_tenantId := fnd_tenantId f;
     fnd_status := set_column (upd_status u) (fnd_status f);
     severity := set_nullable (upd_severity u) (severity f);
     findingTitle := set_nullable (upd_findingTitle u) (findingTitle f);
     findingDescription := set_nullable (upd_findingDescription u) (findingDescription f);
     aiAssessment := aiAssessment f;
     aiConfidence := aiConfidence f;
     remediationRequired := remediationRequired f;
     remediationStatus := set_column (upd_remediationStatus u) (remediationStatus f);
     remediationPlan := set_nullable (upd_remediationPlan u) (remediationPlan f);
     remediationOwner := set_nullable (upd_remediationOwner u) (remediationOwner f);
     remediationDueDate := set_nullable (upd_remediationDueDate u) (remediationDueDate f);
     humanVerified := if marks_verified u then true else humanVerified f;
     verifiedBy := if marks_verified u then Some (userId context) else verifiedBy f;
     verifiedAt := if marks_verified u then Some (now env) else verifiedAt f;
     verificationNotes := set_nullable (upd_verificationNotes u) (verificationNotes f);
     fnd_createdAt := fnd_createdAt f;
     fnd_updatedAt := now env |}.

(** [WHERE id = $n AND tenant_id = $m] *)
Definition finding_matches (findingId tenant : string) (f : ControlFinding) : bool :=
  bool_decide (fnd_id f = findingId) && bool_decide (fnd_tenantId f = tenant).

(** [UPDATE control_findings SET ... WHERE id = $n AND tenant_id = $m RETURNING *] *)
Definition update_finding (env : Env) (context : ComplianceServiceContext) (findingId : string)
  (u : FindingUpdates) (db : DB) : Result (list ControlFinding * DB) :=
  let hit := finding_matches findingId (tenantId context) in
  Ok (apply_updates env context u <$> filter (fun f => hit f = true) (control_findings db),
      set_control_findings
        (fmap (fun f => if hit f then apply_updates env context u f else f)) db).

(** [updateFinding] *)
Definition updateFinding (env : Env) (context : ComplianceServiceContext) (findingId : string)
  (updates : FindingUpdates) (db : DB) : Result ControlFinding * DB :=
  if no_updates updates then (Err NoValidFields, db)
  else
    match query env 0 (update_finding env context findingId updates) db with
    | (Err e, db') => (Err e, db')
    | (Ok [], db') => (Err (FindingNotFound findingId), db')
    | (Ok (row :: _), db') => (Ok row, db')
    end.

(** ** Vocabulary of the statements *)

(** The number of rows of a given status. *)
Definition count_status (st : FindingStatus.t) (rows : list ControlFinding) : nat :=
  length (filter (fun f => fnd_status f = st) rows).

(** [f] is the row the loop of [runAssessment] inserts for [control]. *)
Definition row_of_control (env : Env) (context : ComplianceServiceContext) (assessment : string)
  (options : RunAssessmentRequest) (control : ComplianceControl) (f : ControlFinding) : Prop :=
  exists i t,
    f = finding_row env context assessment options (uuidv4 env i) control
          (fst (evaluate_control env options i control t)).

(** The counters [t'] are the counters [t] plus the statuses of [rows]. *)
Definition tallies (t t' : Tally) (rows : list ControlFinding) : Prop :=
  t_compliant t' = t_compliant t + count_status FindingStatus.compliant rows /\
  t_nonCompliant t' = t_nonCompliant t + count_status FindingStatus.non_compliant rows /\
  t_partial t' = t_partial t + count_status FindingStatus.partial rows /\
  t_notApplicable t' = t_notApplicable t + count_status FindingStatus.not_applicable rows.

(** Every module record has its [enabled] key. *)
Definition has_enabled_keys (m : ModuleConfigMap) : Prop :=
  forall k, is_Some (module_get m k !! "enabled").

(** No statement fails. *)
Definition no_faults (env : Env) : Prop := forall p, fault env p = false.

(** ** Sample data *)

Definition sample_env : Env :=
  {| uuidv4 := fun n => "uuid-" +:+ pretty n;
     random := fun _ => (1 # 4)%Q;
     now := 1000;
     ai_enabled := true;
     ai_model := "default-model";
     fault := fun _ => false;
     scan_order := fun _ _ => true |}.

(** The same environment with one statement failing. *)
Definition failing_at (n : nat) (env : Env) : Env :=
  {| uuidv4 := uuidv4 env;
     random := random env;
     now := now env;
     ai_enabled := ai_enabled env;
     ai_model := ai_model env;
     fault := fun p => match p with AtQuery m => Nat.eqb m n | _ => false end;
     scan_order := scan_order env |}.

Definition sample_context : ComplianceServiceContext :=
  {| tenantId := "t1"; userId := "u1"; requestId := "r1";
     sessionId := None; ipAddress := None; userAgent := None |}.

(** Framework iso27001 with three controls of priorities 90, 50 and 10. *)
Definition sample_catalog : list ComplianceControl :=
  [ mkControl "A.5.1" "iso27001" "A.5.1" (Some "Organizational") "Policies" 90;
    mkControl "A.5.2" "iso27001" "A.5.2" (Some "Organizational") "Roles" 50;
    mkControl "A.5.3" "iso27001" "A.5.3" (Some "Organizational") "Segregation" 10 ].

Definition db_catalog (catalog : list ComplianceControl) : DB :=
  {| compliance_config := ∅;
     compliance_config_audit := [];
     compliance_frameworks := [mkFramework "iso27001" true];
     compliance_controls := catalog;
     compliance_assessments := ∅;
     control_findings := [] |}.

(** Tenant t1 after its first [getConfig]: the default configuration. *)
Definition db_config : DB := snd (getConfig sample_env "t1" (db_catalog sample_catalog)).

Definition sample_request : CreateAssessmentRequest :=
  {| cr_frameworkId := "iso27001"; cr_targetSystemId := "sys-1";
     cr_targetSystemName := "Billing"; cr_targetSystemDescription := None;
     cr_scope := None; cr_excludedControls := None |}.

(** A pending assessment, uuid-0, of tenant t1. *)
Definition db_pending : DB :=
  snd (createAssessment sample_env sample_context sample_request (db_catalog sample_catalog)).

Definition with_AI : RunAssessmentRequest :=
  {| useAI := true; aiModel := None; includeRecommendations := None |}.

Definition without_AI : RunAssessmentRequest :=
  {| useAI := false; aiModel := None; includeRecommendations := None |}.

(** The assessment after a run with AI assistance: completed. *)
Definition db_completed : DB :=
  snd (runAssessment sample_env sample_context "uuid-0" with_AI db_pending).

(** Draws that make the first two controls compliant and the third
    non-compliant. *)
Definition env_2_1_0 : Env :=
  {| uuidv4 := uuidv4 sample_env;
     random := fun i => if (i <? 2)%nat then (1 # 4)%Q else (7 # 8)%Q;
     now := now sample_env;
     ai_enabled := true;
     ai_model := ai_model sample_env;
     fault := fun _ => false;
     scan_order := scan_order sample_env |}.

(** Twelve controls, and draws that make four of them compliant, one
    partial and seven non-compliant. *)
Definition twelve_controls : list ComplianceControl :=
  (fun i => mkControl ("C-" +:+ pretty i) "iso27001" ("C-" +:+ pretty i) None "Control" 50)
    <$> seq 0 12.

Definition env_4_7_1 : Env :=
  {| uuidv4 := fun n => "finding-" +:+ pretty n;
     random := fun i => if (i <? 4)%nat then (1 # 4)%Q
                        else if (i <? 5)%nat then (5 # 8)%Q
                        else (7 # 8)%Q;
     now := 1000;
     ai_enabled := true;
     ai_model := "default-model";
     fault := fun _ => false;
     scan_order := fun _ _ => true |}.

Definition db_twelve_pending : DB :=
  snd (createAssessment sample_env sample_context sample_request (db_catalog twelve_controls)).

(** Two updates of a finding: one of the severity and the remediation plan
    alone, one that overrides the status. *)
Definition severity_only : FindingUpdates :=
  {| upd_status := None; upd_severity := Some FindingSeverity.major;
     upd_findingTitle := None; upd_findingDescription := None;
     upd_remediationPlan := Some "Rotate the keys"; upd_remediationOwner := None;
     upd_remediationDueDate := None; upd_remediationStatus := None;
     upd_verificationNotes := None |}.

Definition status_override : FindingUpdates :=
  {| upd_status := Some FindingStatus.non_compliant; upd_severity := None;
     upd_findingTitle := None; upd_findingDescription := None;
     upd_remediationPlan := None; upd_remediationOwner := None;
     upd_remediationDueDate := None; upd_remediationStatus := None;
     upd_verificationNotes := None |}.

(** ** What the toggle service leaves in the store *)

(** A call of one of the two toggles, with what it takes from outside. *)
Inductive ToggleOp :=
| MasterOp (env : Env) (context : ComplianceServiceContext) (request : ToggleMasterRequest)
| ModuleOp (env : Env) (context : ComplianceServiceContext) (request : ToggleModuleRequest).

Definition op_tenant (op : ToggleOp) : string :=
  match op with
  | MasterOp _ context _ | ModuleOp _ context _ => tenantId context
  end.

Definition run_toggle (op : ToggleOp) (db : DB) : Result ComplianceConfig * DB :=
  match op with
  | MasterOp env context request => toggleMaster env context request db
  | ModuleOp env context request => toggleModule env context request db
  end.

(** A toggle is committed when it returns; it counts for its tenant. *)
Definition committed (tenant : string) (op : ToggleOp) (db : DB) : nat :=
  if is_ok (fst (run_toggle op db)) && bool_decide (op_tenant op = tenant) then 1 else 0.

(** The store after a sequence of toggles, and the number of them that
    were committed for a tenant. *)
Fixpoint run_toggles (ops : list ToggleOp) (db : DB) : DB :=
  match ops with
  | [] => db
  | op :: ops' => run_toggles ops' (snd (run_toggle op db))
  end.

Fixpoint committed_toggles (tenant : string) (ops : list ToggleOp) (db : DB) : nat :=
  match ops with
  | [] => 0
  | op :: ops' => committed tenant op db + committed_toggles tenant ops' (snd (run_toggle op db))
  end.

Definition created_config (env : Env) (tenant : string) (enabled : bool) : ComplianceConfig :=
  mkComplianceConfig (uuidv4 env 0) tenant enabled DEFAULT_MODULE_CONFIG (now env) (now env).

(** Every configuration row is stored under its own tenant, and every
    module record of it has its [enabled] key. *)
Definition config_well_formed (db : DB) : Prop :=
  forall t c, compliance_config db !! t = Some c ->
    cfg_tenantId c = t /\ has_enabled_keys (moduleConfig c).

(** The configuration row of tenant t1 in [db_config]. *)
Definition sample_config : ComplianceConfig :=
  mkComplianceConfig (uuidv4 sample_env 0) "t1" true DEFAULT_MODULE_CONFIG
    (now sample_env) (now sample_env).

(** Tenant t1 with the master switch off and the default modules. *)
Definition master_off_config : ComplianceConfig :=
  mkComplianceConfig "config-1" "t1" false DEFAULT_MODULE_CONFIG 1000 2000.

Definition db_master_off : DB :=
  set_compliance_config (insert "t1" master_off_config) (db_catalog sample_catalog).

(** The same toggle of feature "enabled" of gdpr, sent for tenant t1. *)
Definition toggle_gdpr_enabled_off : ToggleModuleRequest :=
  mkToggleModuleRequest gdpr false "pause the module" (Some "enabled").

(** ** Function [is_compliance_module_enabled] (migration 001_compliance_core.sql) *)

(** [module_config -> p_module]: the member of the JSON object under a key. *)
Definition json_member (m : ModuleConfigMap) (p_module : string)
  : option ComplianceModuleConfig :=
  if String.eqb p_module "gdpr" then Some (mc_gdpr m)
  else if String.eqb p_module "aiAct" then Some (mc_aiAct m)
  else if String.eqb p_module "nis2" then Some (mc_nis2 m)
  else if String.eqb p_module "iso27001" then Some (mc_iso27001 m)
  else if String.eqb p_module "soc2" then Some (mc_soc2 m)
  else if String.eqb p_module "hipaa" then Some (mc_hipaa m)
  else None.

(** [(module_config -> p_module ->> key)::boolean], NULL when a member is
    missing. *)
Definition json_boolean (m : ModuleConfigMap) (p_module key : string) : option bool :=
  match json_member m p_module with
  | Some o => o !! key
  | None => None
  end.

(** Function [is_compliance_module_enabled(p_tenant_id, p_module, p_feature)];
    [p_feature] is [None] for NULL. *)
Definition is_compliance_module_enabled (p_tenant_id p_module : string)
  (p_feature : option string) (db : DB) : bool :=
  (* SELECT * INTO v_config FROM compliance_config WHERE tenant_id = p_tenant_id *)
  match compliance_config db !! p_tenant_id with
  | None => true                         (* IF NOT FOUND THEN RETURN true *)
  | Some v_config =>
      if negb (masterEnabled v_config) then false
      else
        let v_module_enabled := json_boolean (moduleConfig v_config) p_module "enabled" in
        match v_module_enabled with
        | None | Some false => false     (* IS NULL OR NOT v_module_enabled *)
        | Some true =>
            match p_feature with
            | None => true
            | Some feature =>
                (* COALESCE(v_feature_enabled, false) *)
                default false (json_boolean (moduleConfig v_config) p_module feature)
            end
        end
  end.

(** The [hasMore] flag of GET /config/audit (api/routes/config.ts):
    [params.offset + audits.length < total]. *)
Definition hasMore {A} (offset : nat) (audits : list A) (total : nat) : bool :=
  (offset + length audits <? total)%nat.

(** ** Counting findings, ordering controls *)

(** The number of rows of a given severity. *)
Definition count_severity (sev : FindingSeverity.t) (rows : list ControlFinding) : nat :=
  length (filter (fun f => severity f = Some sev) rows).

(** A control comes before another in ORDER BY implementation_priority DESC. *)
Definition priority_desc (x y : ComplianceControl) : Prop :=
  (implementationPriority y <= implementationPriority x)%Z.

(** The severity counters [t'] are the counters [t] plus the severities of
    [rows], none of which is critical or an observation. *)
Definition severity_tallies (t t' : Tally) (rows : list ControlFinding) : Prop :=
  t_critical t' = t_critical t /\
  t_observations t' = t_observations t /\
  t_major t' = t_major t + count_severity FindingSeverity.major rows /\
  t_minor t' = t_minor t + count_severity FindingSeverity.minor rows /\
  count_severity FindingSeverity.critical rows = 0 /\
  count_severity FindingSeverity.observation rows = 0 /\
  count_severity FindingSeverity.major rows + count_severity FindingSeverity.minor rows
  = count_status FindingStatus.non_compliant rows + count_status FindingStatus.partial rows.

(** ** Naming helpers of the database client (database/client.ts)

    Strings are sequences of bytes here and of UTF-16 code units in
    JavaScript; the two patterns below match ASCII letters and the
    underscore only, and every other byte is copied as it is. *)

(** [[A-Z]] and [[a-z]] *)
Definition is_upper (c : ascii) : bool :=
  (65 <=? nat_of_ascii c)%nat && (nat_of_ascii c <=? 90)%nat.

Definition is_lower (c : ascii) : bool :=
  (97 <=? nat_of_ascii c)%nat && (nat_of_ascii c <=? 122)%nat.

(** [letter.toLowerCase()] and [letter.toUpperCase()] of a matched letter *)
Definition toLowerCase (c : ascii) : ascii :=
  if is_upper c then ascii_of_nat (nat_of_ascii c + 32) else c.

Definition toUpperCase (c : ascii) : ascii :=
  if is_lower c then ascii_of_nat (nat_of_ascii c - 32) else c.

(** [camelToSnake]: [str.replace(/[A-Z]/g, (letter) => `_${letter.toLowerCase()}`)];
    [updateFinding] names its columns with the same expression. *)
Fixpoint camelToSnake (str : string) : string :=
  match str with
  | EmptyString => EmptyString
  | String c rest =>
      if is_upper c then String "_"%char (String (toLowerCase c) (camelToSnake rest))
      else String c (camelToSnake rest)
  end.

(** The key of [snakeToCamel]:
    [key.replace(/_([a-z])/g, (_, letter) => letter.toUpperCase())] *)
Fixpoint snakeToCamelKey (key : string) : string :=
  match key with
  | EmptyString => EmptyString
  | String c rest =>
      match rest with
      | String d rest' =>
          if Ascii.eqb c "_"%char && is_lower d
          then String (toUpperCase d) (snakeToCamelKey rest')
          else String c (snakeToCamelKey rest)
      | EmptyString => String c EmptyString
      end
  end.

(** [snakeToCamel]: the entries of the row, in order, assigned to a fresh
    object under the converted keys. *)
Definition snakeToCamel {V} (obj : list (string * V)) : gmap string V :=
  foldl (fun result '(key, value) => <[snakeToCamelKey key := value]> result) ∅ obj.

(** No upper-case letter: the shape of a column name. *)
Fixpoint lower_snake (s : string) : bool :=
  match s with
  | EmptyString => true
  | String c rest => negb (is_upper c) && lower_snake rest
  end.

(** No underscore followed by a lower-case letter: the shape of a
    property name in camel case. *)
Fixpoint camel (s : string) : bool :=
  match s with
  | EmptyString => true
  | String c rest =>
      match rest with
      | String d _ => negb (Ascii.eqb c "_"%char && is_lower d) && camel rest
      | EmptyString => true
      end
  end.

(** [Math.ceil] *)
Definition math_ceil (x : Q) : Z := Qceiling x.

(** ** Paginated reads (services/assessment-service.ts) *)

(** The value of [Math.ceil(total / limit)]: a count, or what a division
    by zero gives. *)
Inductive PageCount :=
| Pages (n : Z)
| Infinity
| NaN.

Definition totalPages_of (total limit : nat) : PageCount :=
  match limit with
  | O => if (0 <? total)%nat then Infinity else NaN
  | S _ => Pages (math_ceil (Binary64.fdiv (Binary64.of_nat total) (Binary64.of_nat limit)))
  end.

(** [page < totalPages] *)
Definition page_lt (page : nat) (totalPages : PageCount) : bool :=
  match totalPages with
  | Pages n => (Z.of_nat page <? n)%Z
  | Infinity => true
  | NaN => false
  end.

Record PaginatedResponse (A : Type) := mkPaginatedResponse {
  data : list A;
  total : nat;
  page : nat;
  limit : nat;
  totalPages : PageCount;
  hasNext : bool;
  hasPrevious : bool
}.

Arguments mkPaginatedResponse {A}.

Arguments data {A}.

Arguments total {A}.

Arguments page {A}.

Arguments limit {A}.

Arguments totalPages {A}.

Arguments hasNext {A}.

Arguments hasPrevious {A}.

(** [LIMIT $n OFFSET $m] with [offset = (page - 1) * limit]: the database
    rejects a negative offset. *)
Definition limit_offset {A} (n : nat) (page limit : nat) (rows : list A) : Result (list A) :=
  match page with
  | O => if (0 <? limit)%nat then Err (StorageError (AtQuery n)) else Ok []
  | S p => Ok (take limit (drop (p * limit) rows))
  end.

(** [if (s)] on an optional string. *)
Definition given (s : option string) : bool := feature_given s.

(** *** getFindings *)

Definition severity_rank (s : option FindingSeverity.t) : Z :=
  match s with
  | Some FindingSeverity.critical => 1
  | Some FindingSeverity.major => 2
  | Some FindingSeverity.minor => 3
  | Some FindingSeverity.observation => 4
  | None => 5
  end.

(** [WHERE assessment_id = $1 AND tenant_id = $2 [AND status = $n] [AND severity = $m]] *)
Definition finding_selected (tenant assessment : string) (st : option FindingStatus.t)
  (sev : option FindingSeverity.t) (f : ControlFinding) : bool :=
  bool_decide (assessmentId f = assessment)
  && bool_decide (fnd_tenantId f = tenant)
  && match st with Some s => bool_decide (fnd_status f = s) | None => true end
  && match sev with Some s => bool_decide (severity f = Some s) | None => true end.

(** [FROM control_findings f JOIN compliance_controls c ON f.control_id = c.id] *)
Definition join_controls (findings : list ControlFinding) (controls : list ComplianceControl)
  : list (ControlFinding * ComplianceControl) :=
  f ← findings; c ← filter (fun c => ctl_id c = controlId f) controls; [(f, c)].

(** [ORDER BY CASE f.severity ... END, c.implementation_priority DESC] *)
Definition finding_before (x y : ControlFinding * ComplianceControl) : bool :=
  (severity_rank (severity (fst x)) <? severity_rank (severity (fst y)))%Z
  || ((severity_rank (severity (fst x)) =? severity_rank (severity (fst y)))%Z
      && (implementationPriority (snd y) <=? implementationPriority (snd x))%Z).

Definition getFindings (env : Env) (tenantId assessmentId : string)
  (status : option FindingStatus.t) (severity : option FindingSeverity.t)
  (page limit : option nat) (db : DB) : Result (PaginatedResponse ControlFinding) :=
  let page := default 1 page in
  let limit := default 50 limit in
  let selected :=
    filter (fun f => finding_selected tenantId assessmentId status severity f = true)
      (control_findings db) in
  (* Count total *)
  match fst (query env 0 (fun db => Ok (length selected, db)) db) with
  | Err e => Err e
  | Ok total =>
      (* Get findings with control details *)
      match fst (query env 1
                   (fun db =>
                      match limit_offset 1 page limit
                              (order_by finding_before
                                 (join_controls selected (compliance_controls db))) with
                      | Ok rows => Ok (rows, db)
                      | Err e => Err e
                      end) db) with
      | Err e => Err e
      | Ok rows =>
          let totalPages := totalPages_of total limit in
          Ok {| data := fst <$> rows;
                total := total;
                page := page;
                limit := limit;
                totalPages := totalPages;
                hasNext := page_lt page totalPages;
                hasPrevious := (1 <? page)%nat |}
      end
  end.

(** *** listAssessments *)

Definition validSortFields : list string :=
  [ "created_at"; "updated_at"; "overall_score"; "status" ].

(** [validSortFields.includes(sortBy) ? sortBy : 'created_at'] *)
Definition sortField (sortBy : string) : string :=
  if bool_decide (sortBy ∈ validSortFields) then sortBy else "created_at".

(** [sortOrder === 'asc' ? 'ASC' : 'DESC'] *)
Definition order (sortOrder : string) : string :=
  if String.eqb sortOrder "asc" then "ASC" else "DESC".

(** The clause [ORDER BY ${sortField} ${order}] of the statement. *)
Definition order_by_clause (sortBy sortOrder : string) : string :=
  "ORDER BY " +:+ sortField sortBy +:+ " " +:+ order sortOrder.

(** The position of a status in type [assessment_status], by which the
    database orders the column. *)
Definition assessment_status_rank (s : AssessmentStatus.t) : Z :=
  match s with
  | AssessmentStatus.pending => 0
  | AssessmentStatus.in_progress => 1
  | AssessmentStatus.completed => 2
  | AssessmentStatus.failed => 3
  | AssessmentStatus.cancelled => 4
  end.

(** The value a row is ordered by; [None] is NULL. *)
Definition sort_key (field : string) (a : ComplianceAssessment) : option Z :=
  if String.eqb field "updated_at" then Some (Z.of_nat (asm_updatedAt a))
  else if String.eqb field "overall_score" then overallScore a
  else if String.eqb field "status" then Some (assessment_status_rank (status a))
  else Some (Z.of_nat (asm_createdAt a)).

(** Ascending order of the database: NULL sorts after every value. *)
Definition key_le (k1 k2 : option Z) : bool :=
  match k1, k2 with
  | Some x, Some y => (x <=? y)%Z
  | _, None => true
  | None, Some _ => false
  end.

Definition assessment_before (field direction : string) (a b : ComplianceAssessment) : bool :=
  if String.eqb direction "ASC" then key_le (sort_key field a) (sort_key field b)
  else key_le (sort_key field b) (sort_key field a).

(** [WHERE tenant_id = $1 [AND framework_id = $n] [AND target_system_id = $m]
     [AND status = $k]] *)
Definition assessment_selected (tenant : string) (framework target : option string)
  (st : option AssessmentStatus.t) (a : ComplianceAssessment) : bool :=
  bool_decide (asm_tenantId a = tenant)
  && (if given framework then bool_decide (Some (frameworkId a) = framework) else true)
  && (if given target then bool_decide (Some (targetSystemId a) = target) else true)
  && match st with Some s => bool_decide (status a = s) | None => true end.

Definition listAssessments (env : Env) (tenantId : string)
  (frameworkId targetSystemId : option string) (status : option AssessmentStatus.t)
  (page limit : option nat) (sortBy sortOrder : option string) (db : DB)
  : Result (PaginatedResponse ComplianceAssessment) :=
  let page := default 1 page in
  let limit := default 20 limit in
  let sortBy := default "created_at" sortBy in
  let sortOrder := default "desc" sortOrder in
  let selected :=
    filter (fun a => assessment_selected tenantId frameworkId targetSystemId status a = true)
      (snd <$> map_to_list (compliance_assessments db)) in
  (* Count total *)
  match fst (query env 0 (fun db => Ok (length selected, db)) db) with
  | Err e => Err e
  | Ok total =>
      (* Get assessments *)
      match fst (query env 1
                   (fun db =>
                      match limit_offset 1 page limit
                              (order_by (assessment_before (sortField sortBy) (order sortOrder))
                                 selected) with
                      | Ok rows => Ok (rows, db)
                      | Err e => Err e
                      end) db) with
      | Err e => Err e
      | Ok rows =>
          let totalPages := totalPages_of total limit in
          Ok {| data := rows;
                total := total;
                page := page;
                limit := limit;
                totalPages := totalPages;
                hasNext := page_lt page totalPages;
                hasPrevious := (1 <? page)%nat |}
      end
  end.

(** ** The routes (api/routes/config.ts, api/routes/assessments.ts)

    A request carries its headers, the id and the peer address Fastify
    gives it, and a body. *)

Record FastifyRequest (B : Type) := mkRequest {
  headers : gmap string string;
  request_id : string;
  request_ip : string;
  body : B
}.

Arguments mkRequest {B}.

Arguments headers {B}.

Arguments request_id {B}.

Arguments request_ip {B}.

Arguments body {B}.

Record FastifyReply (A : Type) := mkReply {
  statusCode : nat;
  payload : option A
}.

Arguments mkReply {A}.

Arguments statusCode {A}.

Arguments payload {A}.

(** [a || b] on an optional string: the empty string is falsy. *)
Definition or_else (a : option string) (b : string) : string :=
  match a with
  | Some s => if String.eqb s "" then b else s
  | None => b
  end.

(** [getContext] *)
Definition getContext {B} (request : FastifyRequest B) : ComplianceServiceContext :=
  {| tenantId :=
       or_else (headers request !! "x-tenant-id")
         (or_else (headers request !! "x-user-id") "default");
     userId := or_else (headers request !! "x-user-id") "system";
     requestId := or_else (headers request !! "x-request-id") (request_id request);
     sessionId := headers request !! "x-session-id";
     ipAddress := Some (request_ip request);
     userAgent := headers request !! "user-agent" |}.

(** The [length] of a string in JavaScript, in UTF-16 code units, read
    off its bytes: one unit per character, two for a character of four
    bytes. *)
Definition utf16_units (c : ascii) : nat :=
  let n := nat_of_ascii c in
  if (n <? 128)%nat then 1
  else if (n <? 192)%nat then 0
  else if (n <? 240)%nat then 1
  else 2.

Fixpoint utf16_length (s : string) : nat :=
  match s with
  | EmptyString => 0
  | String c rest => utf16_units c + utf16_length rest
  end.

(** [z.string().min(10, 'Reason must be at least 10 characters')] *)
Definition reason_schema (reason : option string) : option string :=
  match reason with
  | Some r => if (10 <=? utf16_length r)%nat then Some r else None
  | None => None
  end.

(** [z.enum(['gdpr', 'aiAct', 'nis2', 'iso27001', 'soc2', 'hipaa'])] *)
Definition module_schema (module : string) : option ModuleName :=
  if String.eqb module "gdpr" then Some gdpr
  else if String.eqb module "aiAct" then Some aiAct
  else if String.eqb module "nis2" then Some nis2
  else if String.eqb module "iso27001" then Some iso27001
  else if String.eqb module "soc2" then Some soc2
  else if String.eqb module "hipaa" then Some hipaa
  else None.

Record ToggleMasterBody := mkToggleMasterBody {
  tmb_enabled : option bool;
  tmb_reason : option string
}.

Record ToggleModuleBody := mkToggleModuleBody {
  tqb_module : option string;
  tqb_enabled : option bool;
  tqb_reason : option string;
  tqb_feature : option string
}.

(** [toggleMasterSchema.parse(request.body)]; [None] for a ZodError. *)
Definition toggleMasterSchema (b : ToggleMasterBody) : option ToggleMasterRequest :=
  match tmb_enabled b, reason_schema (tmb_reason b) with
  | Some enabled, Some reason => Some (mkToggleMasterRequest enabled reason)
  | _, _ => None
  end.

(** [toggleModuleSchema.parse(request.body)] *)
Definition toggleModuleSchema (b : ToggleModuleBody) : option ToggleModuleRequest :=
  match tqb_module b ≫= module_schema, tqb_enabled b, reason_schema (tqb_reason b) with
  | Some module, Some enabled, Some reason =>
      Some (mkToggleModuleRequest module enabled reason (tqb_feature b))
  | _, _, _ => None
  end.

(** PUT /config/master *)
Definition put_config_master (env : Env) (request : FastifyRequest ToggleMasterBody) (db : DB)
  : FastifyReply ComplianceConfig * DB :=
  let context := getContext request in
  match toggleMasterSchema (body request) with
  | None => (mkReply 400 None, db)
  | Some body =>
      match toggleMaster env context body db with
      | (Ok config, db') => (mkReply 200 (Some config), db')
      | (Err _, db') => (mkReply 500 None, db')
      end
  end.

(** PUT /config *)
Definition put_config (env : Env) (request : FastifyRequest ToggleModuleBody) (db : DB)
  : FastifyReply ComplianceConfig * DB :=
  let context := getContext request in
  match toggleModuleSchema (body request) with
  | None => (mkReply 400 None, db)
  | Some body =>
      match toggleModule env context body db with
      | (Ok config, db') => (mkReply 200 (Some config), db')
      | (Err _, db') => (mkReply 500 None, db')
      end
  end.

(** GET /config/enabled/:module; the request carries the parameter and
    the [feature] of the query string. *)
Definition get_config_enabled (env : Env) (request : FastifyRequest (string * option string))
  (db : DB) : FastifyReply bool * DB :=
  let context := getContext request in
  let '(module, feature) := body request in
  match module_schema module with
  | None => (mkReply 400 None, db)       (* !validModules.includes(module) *)
  | Some m =>
      match isEnabled env (tenantId context) m feature db with
      | (Ok enabled, db') => (mkReply 200 (Some enabled), db')
      | (Err _, db') => (mkReply 500 None, db')
      end
  end.

(** The body of POST /assessments/:assessmentId/run is whatever JSON the
    client sends: a value of any type under each of the three names the
    schema reads, or none; other names are dropped by the schema. *)
Inductive JsonValue :=
| JNull
| JBool (b : bool)
| JNumber (n : Z)
| JString (s : string)
| JArray
| JObject.

Record RunAssessmentBody := mkRunAssessmentBody {
  rb_useAI : option JsonValue;
  rb_aiModel : option JsonValue;
  rb_includeRecommendations : option JsonValue
}.

Inductive RequestBody :=
| NoBody                                  (* undefined or null *)
| BodyObject (fields : RunAssessmentBody) (* an object *)
| BodyOther.                              (* a string, a number, a boolean, an array *)

(** [z.boolean().default(d)]: the default for a missing field, the value
    of a boolean, and a ZodError ([None]) for anything else, null too. *)
Definition z_boolean_default (d : bool) (v : option JsonValue) : option bool :=
  match v with
  | None => Some d
  | Some (JBool b) => Some b
  | Some _ => None
  end.

(** [z.string().optional()] *)
Definition z_string_optional (v : option JsonValue) : option (option string) :=
  match v with
  | None => Some None
  | Some (JString s) => Some (Some s)
  | Some _ => None
  end.

(** [runAssessmentSchema.parse(request.body ?? {})]; [None] for a ZodError. *)
Definition runAssessmentSchema (b : RequestBody) : option RunAssessmentRequest :=
  match b with
  | BodyOther => None
  | NoBody | BodyObject _ =>
      let fields := match b with
                    | BodyObject fields => fields
                    | _ => mkRunAssessmentBody None None None
                    end in
      match z_boolean_default true (rb_useAI fields),
            z_string_optional (rb_aiModel fields),
            z_boolean_default true (rb_includeRecommendations fields) with
      | Some useAI, Some aiModel, Some includeRecommendations =>
          Some {| useAI := useAI;
                  aiModel := aiModel;
                  includeRecommendations := Some includeRecommendations |}
      | _, _, _ => None
      end
  end.

(** POST /assessments/:assessmentId/run; the request carries the
    parameter and the body. *)
Definition post_assessment_run (env : Env)
  (request : FastifyRequest (string * RequestBody)) (db : DB)
  : FastifyReply ComplianceAssessment * DB :=
  let context := getContext request in
  let '(assessmentId, b) := body request in
  match runAssessmentSchema b with
  | None => (mkReply 400 None, db)        (* error instanceof z.ZodError *)
  | Some body =>
      match runAssessment env context assessmentId body db with
      | (Ok assessment, db') => (mkReply 200 (Some assessment), db')
      | (Err _, db') => (mkReply 500 None, db')
      end
  end.

(** GET /assessments/:assessmentId *)
Definition get_assessment (env : Env) (request : FastifyRequest string) (db : DB)
  : FastifyReply ComplianceAssessment :=
  let context := getContext request in
  match fst (query env 0
               (fun db => Ok (getAssessment (tenantId context) (body request) db, db)) db) with
  | Ok (Some assessment) => mkReply 200 (Some assessment)
  | Ok None => mkReply 404 None
  | Err _ => mkReply 500 None
  end.

Definition sample_enabled_request : FastifyRequest (string * option string) :=
  mkRequest {["x-tenant-id" := "t1"]} "req-1" "127.0.0.1" ("gdpr", Some "dataRetention").

(** A body with a string where the schema asks for a boolean. *)
Definition ill_typed_run_request : FastifyRequest (string * RequestBody) :=
  mkRequest {["x-tenant-id" := "t1"]} "req-2" "127.0.0.1"
    ("uuid-0", BodyObject (mkRunAssessmentBody (Some (JString "yes")) None None)).

(** * Properties *)

(** ** Rounding to nearest: monotonicity and error *)

Module Binary64Facts.
Import Binary64.
Local Open Scope Q_scope.

Lemma pow2_pos e : 0 < pow2 e.
Proof. apply Qpower_0_lt. reflexivity. Qed.

Lemma pow2_add a b : pow2 (a + b) == pow2 a * pow2 b.
Proof. apply Qpower_plus. discriminate. Qed.

Lemma pow2_le a b : (a <= b)%Z -> pow2 a <= pow2 b.
Proof. intros H. apply Qpower_le_compat_l; [exact H | discriminate]. Qed.

Lemma pow2_lt_inv a b : pow2 a < pow2 b -> (a < b)%Z.
Proof. intros H. apply (Qpower_lt_compat_l_inv 2); [exact H | reflexivity]. Qed.

Lemma pow2_Z a : (0 <= a)%Z -> pow2 a == inject_Z (2 ^ a).
Proof. intros H. unfold pow2. rewrite Zpower_Qpower by exact H. reflexivity. Qed.

Lemma inject_Z_pos z : (0 < z)%Z -> 0 < inject_Z z.
Proof. intros H. unfold Qlt. cbn. lia. Qed.

Lemma ilog2_spec x : 0 < x -> pow2 (ilog2 x) <= x /\ x < pow2 (ilog2 x + 1).
Proof.
  intros Hx. unfold ilog2.
  destruct x as [n d]. cbn [Qnum Qden].
  assert (Hn : (0 < n)%Z) by (unfold Qlt in Hx; cbn in Hx; lia).
  set (a := Z.log2 n). set (b := Z.log2 (Z.pos d)).
  assert (Ha : (2 ^ a <= n < 2 ^ (a + 1))%Z).
  { unfold a. pose proof (Z.log2_spec n Hn). rewrite <- Z.add_1_r in H. exact H. }
  assert (Hb : (2 ^ b <= Z.pos d < 2 ^ (b + 1))%Z).
  { unfold b. pose proof (Z.log2_spec (Z.pos d) ltac:(lia)). rewrite <- Z.add_1_r in H. exact H. }
  assert (Ha0 : (0 <= a)%Z) by apply Z.log2_nonneg.
  assert (Hb0 : (0 <= b)%Z) by apply Z.log2_nonneg.
  assert (Hnd : n # d == inject_Z n / inject_Z (Z.pos d)) by apply Qmake_Qdiv.
  assert (Hdpos : 0 < inject_Z (Z.pos d)) by (unfold Qlt; cbn; lia).
  destruct (Qle_bool (pow2 (a - b)) (n # d)) eqn:E.
  - apply Qle_bool_iff in E. split; [exact E |].
    replace (a - b + 1)%Z with ((a + 1) + - b)%Z by ring.
    rewrite pow2_add. unfold pow2 at 2. rewrite Qpower_opp. fold (pow2 b).
    rewrite Hnd. rewrite (pow2_Z (a + 1)) by lia. rewrite (pow2_Z b) by lia.
    apply Qlt_shift_div_r; [exact Hdpos |].
    unfold Qdiv. rewrite <- Qmult_assoc. rewrite (Qmult_comm (/ _)).
    rewrite Qmult_assoc.
    apply Qlt_shift_div_l.
    { apply inject_Z_pos. lia. }
    rewrite <- !inject_Z_mult. rewrite <- Zlt_Qlt. nia.
  - assert (E' : n # d < pow2 (a - b)).
    { apply Qnot_le_lt. intros C. apply Qle_bool_iff in C. congruence. }
    split.
    + replace (a - b - 1)%Z with (a + - (b + 1))%Z by ring.
      rewrite pow2_add. unfold pow2 at 2. rewrite Qpower_opp. fold (pow2 (b + 1)).
      rewrite Hnd. rewrite (pow2_Z a) by lia. rewrite (pow2_Z (b + 1)) by lia.
      apply Qle_shift_div_l; [exact Hdpos |].
      unfold Qdiv. rewrite <- Qmult_assoc. rewrite (Qmult_comm (/ _)).
      rewrite Qmult_assoc.
      apply Qle_shift_div_r.
      { apply inject_Z_pos. lia. }
      rewrite <- !inject_Z_mult. rewrite <- Zle_Qle. nia.
    + replace (a - b - 1 + 1)%Z with (a - b)%Z by ring. exact E'.
Qed.

Lemma ilog2_mono x y : 0 < x -> x <= y -> (ilog2 x <= ilog2 y)%Z.
Proof.
  intros Hx Hxy.
  assert (Hy : 0 < y) by (eapply Qlt_le_trans; eauto).
  destruct (ilog2_spec x Hx) as [Hx1 _].
  destruct (ilog2_spec y Hy) as [_ Hy2].
  assert (pow2 (ilog2 x) < pow2 (ilog2 y + 1)).
  { eapply Qle_lt_trans; [exact Hx1|]. eapply Qle_lt_trans; eauto. }
  apply pow2_lt_inv in H. lia.
Qed.

Lemma rint_even_bounds q : (Qfloor q <= rint_even q <= Qfloor q + 1)%Z.
Proof.
  unfold rint_even.
  destruct (Qcompare _ _); [destruct (Z.even _) | |]; lia.
Qed.

Lemma rint_even_Z n : rint_even (inject_Z n) = n.
Proof.
  unfold rint_even. rewrite Qfloor_Z.
  assert (E : inject_Z n - inject_Z n == 0) by ring.
  rewrite E. reflexivity.
Qed.

Lemma rint_even_mono p q : p <= q -> (rint_even p <= rint_even q)%Z.
Proof.
  intros Hpq.
  pose proof (Qfloor_resp_le _ _ Hpq) as Hf.
  pose proof (rint_even_bounds p) as Bp.
  pose proof (rint_even_bounds q) as Bq.
  destruct (Z.eq_dec (Qfloor p) (Qfloor q)) as [Heq | Hne]; [| lia].
  unfold rint_even in *. rewrite <- Heq in *.
  destruct (Qcompare_spec (p - inject_Z (Qfloor p)) (1 # 2)) as [Ep | Ep | Ep];
    destruct (Qcompare_spec (q - inject_Z (Qfloor p)) (1 # 2)) as [Eq' | Eq' | Eq'];
    try destruct (Z.even (Qfloor p)); try lia; exfalso; lra.
Qed.

Lemma rint_even_ge n q : inject_Z n <= q -> (n <= rint_even q)%Z.
Proof. intros H. rewrite <- (rint_even_Z n). now apply rint_even_mono. Qed.

Lemma rint_even_le n q : q <= inject_Z n -> (rint_even q <= n)%Z.
Proof. intros H. rewrite <- (rint_even_Z n). now apply rint_even_mono. Qed.

(** The significand of a positive number, scaled to 53 bits, lies between
    [2^52] and [2^53]. *)
Lemma scaled_bounds x :
  0 < x ->
  inject_Z (2 ^ 52) <= x * pow2 (- (ilog2 x - 52)) /\
  x * pow2 (- (ilog2 x - 52)) <= inject_Z (2 ^ 53).
Proof.
  intros Hx. destruct (ilog2_spec x Hx) as [H1 H2].
  revert H1 H2. generalize (ilog2 x). intros e H1 H2.
  pose proof (pow2_pos (- (e - 52))) as Hp.
  rewrite <- !pow2_Z by lia.
  split.
  - replace 52%Z with (e + - (e - 52))%Z at 1 by ring.
    rewrite (pow2_add e (- (e - 52))). apply Qmult_le_compat_r; [exact H1 | now apply Qlt_le_weak].
  - replace 53%Z with ((e + 1) + - (e - 52))%Z by ring.
    rewrite (pow2_add (e + 1) (- (e - 52))). apply Qmult_le_compat_r; [now apply Qlt_le_weak | now apply Qlt_le_weak].
Qed.

Lemma round_pos_bounds x :
  0 < x -> pow2 (ilog2 x) <= round_pos x /\ round_pos x <= pow2 (ilog2 x + 1).
Proof.
  intros Hx. destruct (scaled_bounds x Hx) as [H1 H2].
  unfold round_pos. revert H1 H2. generalize (ilog2 x). intros e H1 H2.
  pose proof (pow2_pos (e - 52)) as Hp.
  apply rint_even_ge in H1. apply rint_even_le in H2.
  split.
  - replace e with (52 + (e - 52))%Z at 1 by ring.
    rewrite pow2_add, (pow2_Z 52) by lia.
    apply Qmult_le_compat_r; [now rewrite <- Zle_Qle | now apply Qlt_le_weak].
  - replace (e + 1)%Z with (53 + (e - 52))%Z by ring.
    rewrite pow2_add, (pow2_Z 53) by lia.
    apply Qmult_le_compat_r; [now rewrite <- Zle_Qle | now apply Qlt_le_weak].
Qed.

Lemma round_pos_mono x y : 0 < x -> x <= y -> round_pos x <= round_pos y.
Proof.
  intros Hx Hxy.
  assert (Hy : 0 < y) by (eapply Qlt_le_trans; eauto).
  pose proof (ilog2_mono x y Hx Hxy) as He.
  destruct (Z.eq_dec (ilog2 x) (ilog2 y)) as [Heq | Hne].
  - unfold round_pos. rewrite <- Heq.
    pose proof (pow2_pos (ilog2 x - 52)) as Hp.
    pose proof (pow2_pos (- (ilog2 x - 52))) as Hp'.
    apply Qmult_le_compat_r; [| now apply Qlt_le_weak].
    rewrite <- Zle_Qle. apply rint_even_mono.
    apply Qmult_le_compat_r; [exact Hxy | now apply Qlt_le_weak].
  - destruct (round_pos_bounds x Hx) as [_ Ux].
    destruct (round_pos_bounds y Hy) as [Ly _].
    eapply Qle_trans; [exact Ux |]. eapply Qle_trans; [| exact Ly].
    apply pow2_le. lia.
Qed.

Lemma round_pos_pos x : 0 < x -> 0 < round_pos x.
Proof.
  intros Hx. destruct (round_pos_bounds x Hx) as [L _].
  eapply Qlt_le_trans; [apply pow2_pos | exact L].
Qed.

Lemma round_ne_nonneg x : 0 <= x -> 0 <= round_ne x.
Proof.
  intros Hx. unfold round_ne.
  destruct (Qcompare_spec x 0) as [E | E | E].
  - apply Qle_refl.
  - exfalso. lra.
  - apply Qlt_le_weak. now apply round_pos_pos.
Qed.

(** Rounding to nearest is monotone on the non-negative numbers. *)
Lemma round_ne_mono x y : 0 <= x -> x <= y -> round_ne x <= round_ne y.
Proof.
  intros Hx Hxy. unfold round_ne at 1.
  destruct (Qcompare_spec x 0) as [E | E | E].
  - apply round_ne_nonneg. lra.
  - exfalso. lra.
  - unfold round_ne. destruct (Qcompare_spec y 0) as [E' | E' | E']; try (exfalso; lra).
    now apply round_pos_mono.
Qed.

Lemma math_round_mono x y : x <= y -> (math_round x <= math_round y)%Z.
Proof. intros H. unfold math_round. apply Qfloor_resp_le. lra. Qed.

Lemma of_nat_nonneg n : 0 <= of_nat n.
Proof. unfold of_nat. change 0 with (inject_Z 0). rewrite <- Zle_Qle. lia. Qed.

Lemma of_nat_pos n : (0 < n)%nat -> 0 < of_nat n.
Proof. intros H. unfold of_nat. apply inject_Z_pos. lia. Qed.

Lemma of_nat_mono n m : (n <= m)%nat -> of_nat n <= of_nat m.
Proof. intros H. unfold of_nat. rewrite <- Zle_Qle. lia. Qed.

Lemma fdiv_nonneg a b : 0 <= a -> 0 < b -> 0 <= fdiv a b.
Proof.
  intros Ha Hb. apply round_ne_nonneg. apply Qle_shift_div_l; [exact Hb |]. lra.
Qed.

Lemma fdiv_mono a a' b : 0 <= a -> a <= a' -> 0 < b -> fdiv a b <= fdiv a' b.
Proof.
  intros Ha Haa Hb. apply round_ne_mono.
  - apply Qle_shift_div_l; [exact Hb |]. lra.
  - apply Qmult_le_compat_r; [exact Haa |]. apply Qlt_le_weak, Qinv_lt_0_compat, Hb.
Qed.

Lemma fmul_nonneg a k : 0 <= a -> 0 <= k -> 0 <= fmul a k.
Proof. intros Ha Hk. apply round_ne_nonneg. now apply Qmult_le_0_compat. Qed.

Lemma fmul_mono a a' k : 0 <= a -> a <= a' -> 0 <= k -> fmul a k <= fmul a' k.
Proof.
  intros Ha Haa Hk. apply round_ne_mono.
  - now apply Qmult_le_0_compat.
  - now apply Qmult_le_compat_r.
Qed.

Lemma fadd_mono a a' b : 0 <= a -> a <= a' -> 0 <= b -> fadd a b <= fadd a' b.
Proof. intros Ha Haa Hb. apply round_ne_mono; lra. Qed.

Lemma rint_even_error q :
  q - (1 # 2) <= inject_Z (rint_even q) /\ inject_Z (rint_even q) <= q + (1 # 2).
Proof.
  unfold rint_even.
  pose proof (Qfloor_le q) as Hl. pose proof (Qlt_floor q) as Hu.
  assert (Hs : inject_Z (Qfloor q + 1) == inject_Z (Qfloor q) + 1)
    by (rewrite inject_Z_plus; reflexivity).
  rewrite Hs in Hu.
  destruct (Qcompare_spec (q - inject_Z (Qfloor q)) (1 # 2)) as [E | E | E].
  - destruct (Z.even (Qfloor q)); rewrite ?Hs; split; lra.
  - split; lra.
  - rewrite Hs. split; lra.
Qed.

Lemma round_pos_error x :
  0 < x -> x * (1 - eps) <= round_pos x /\ round_pos x <= x * (1 + eps).
Proof.
  intros Hx. destruct (ilog2_spec x Hx) as [He _].
  unfold round_pos. revert He. generalize (ilog2 x). intros e He.
  pose proof (pow2_pos (e - 52)) as Hu.
  destruct (rint_even_error (x * pow2 (- (e - 52)))) as [Hl Hh].
  assert (Hs : x * pow2 (- (e - 52)) * pow2 (e - 52) == x).
  { rewrite <- Qmult_assoc, <- (pow2_add (- (e - 52)) (e - 52)).
    replace (- (e - 52) + (e - 52))%Z with 0%Z by ring. unfold pow2. cbn. ring. }
  assert (Hhalf : (1 # 2) * pow2 (e - 52) <= x * eps).
  { unfold eps.
    assert (E1 : (1 # 2) * pow2 (e - 52) == pow2 e * pow2 (-53)).
    { replace (e - 52)%Z with (e + -53 + 1)%Z by ring.
      rewrite (pow2_add (e + -53) 1), (pow2_add e (-53)). unfold pow2 at 3. cbn. ring. }
    rewrite E1. apply Qmult_le_compat_r; [exact He |]. apply Qlt_le_weak, pow2_pos. }
  split.
  - apply Qle_trans with ((x * pow2 (- (e - 52)) - (1 # 2)) * pow2 (e - 52)).
    + setoid_replace ((x * pow2 (- (e - 52)) - (1 # 2)) * pow2 (e - 52))
        with (x * pow2 (- (e - 52)) * pow2 (e - 52) - (1 # 2) * pow2 (e - 52))
        using relation Qeq by ring.
      rewrite Hs. lra.
    + apply Qmult_le_compat_r; [exact Hl | now apply Qlt_le_weak].
  - apply Qle_trans with ((x * pow2 (- (e - 52)) + (1 # 2)) * pow2 (e - 52)).
    + apply Qmult_le_compat_r; [exact Hh | now apply Qlt_le_weak].
    + setoid_replace ((x * pow2 (- (e - 52)) + (1 # 2)) * pow2 (e - 52))
        with (x * pow2 (- (e - 52)) * pow2 (e - 52) + (1 # 2) * pow2 (e - 52))
        using relation Qeq by ring.
      rewrite Hs. lra.
Qed.

Lemma eps_bounds : 0 <= eps /\ eps <= 1.
Proof. split; unfold eps, pow2; cbn; discriminate. Qed.

Lemma round_ne_error x :
  0 <= x -> x * (1 - eps) <= round_ne x /\ round_ne x <= x * (1 + eps).
Proof.
  intros Hx. unfold round_ne.
  destruct (Qcompare_spec x 0) as [E | E | E].
  - rewrite E. split; lra.
  - exfalso. lra.
  - now apply round_pos_error.
Qed.

Lemma round_ne_upper x X k :
  0 <= x -> x <= X * k -> round_ne x <= X * (k * (1 + eps)).
Proof.
  intros Hx Hb. destruct (round_ne_error x Hx) as [_ Hu]. destruct eps_bounds as [He _].
  eapply Qle_trans; [exact Hu |]. rewrite Qmult_assoc.
  apply Qmult_le_compat_r; [exact Hb | lra].
Qed.

Lemma round_ne_lower x X k :
  0 <= x -> X * k <= x -> X * (k * (1 - eps)) <= round_ne x.
Proof.
  intros Hx Hb. destruct (round_ne_error x Hx) as [Hl _]. destruct eps_bounds as [_ He].
  eapply Qle_trans; [| exact Hl]. rewrite Qmult_assoc.
  apply Qmult_le_compat_r; [exact Hb | lra].
Qed.

End Binary64Facts.

(** ** Score and risk level *)

(** The model of binary64 arithmetic gives the values the hardware gives:
    for every total up to 12 and counts up to the total, the sum rounded by
    [calculateOverallScore] is the double the processor computes. *)
Lemma model_agrees_with_hardware :
  forallb (fun t =>
    forallb (fun c =>
      forallb (fun p => agrees_with_hardware c p (S t)) (seq 0 (S (S t))))
      (seq 0 (S (S t))))
    (seq 0 12) = true.
Proof. vm_compute. reflexivity. Qed.

Lemma calculateRiskLevel_thresholds score :
  calculateRiskLevel score =
    if decide (90 <= score)%Z then RiskLevel.low
    else if decide (70 <= score)%Z then RiskLevel.medium
    else if decide (50 <= score)%Z then RiskLevel.high
    else RiskLevel.critical.
Proof.
  unfold calculateRiskLevel.
  repeat case_decide;
    repeat match goal with
           | |- context [(?a <=? ?b)%Z] => destruct (Z.leb_spec a b)
           end; try reflexivity; lia.
Qed.

(** The scenario of three controls, two compliant and one non-compliant. *)
Lemma score_two_of_three :
  calculateOverallScore 2 1 0 = 67%Z /\ calculateRiskLevel 67 = RiskLevel.high.
Proof. vm_compute. split; reflexivity. Qed.

Lemma calculateOverallScore_zero : calculateOverallScore 0 0 0 = 0%Z.
Proof. reflexivity. Qed.

(** C9: with the partial count and the total fixed, moving [k] controls
    from non-compliant to compliant never lowers the score computed by
    [runAssessment]. *)
Theorem score_monotone (c nc p k : nat) :
  k <= nc ->
  (calculateOverallScore c nc p <= calculateOverallScore (c + k) (nc - k) p)%Z.
Proof.
  intros Hk. unfold calculateOverallScore.
  replace (c + k + (nc - k) + p) with (c + nc + p) by lia.
  destruct (Nat.ltb_spec 0 (c + nc + p)) as [Ht | Ht]; [| lia].
  pose proof (Binary64Facts.of_nat_pos _ Ht) as Htq.
  apply Binary64Facts.math_round_mono.
  apply Binary64Facts.fadd_mono.
  - apply Binary64Facts.fmul_nonneg; [| discriminate].
    apply Binary64Facts.fdiv_nonneg; [apply Binary64Facts.of_nat_nonneg | exact Htq].
  - apply Binary64Facts.fmul_mono; [| | discriminate].
    + apply Binary64Facts.fdiv_nonneg; [apply Binary64Facts.of_nat_nonneg | exact Htq].
    + apply Binary64Facts.fdiv_mono;
        [apply Binary64Facts.of_nat_nonneg | apply Binary64Facts.of_nat_mono; lia | exact Htq].
  - apply Binary64Facts.fmul_nonneg; [| discriminate].
    apply Binary64Facts.fdiv_nonneg; [apply Binary64Facts.of_nat_nonneg | exact Htq].
Qed.

Lemma score_monotone_witness :
  (calculateOverallScore 4 7 1 <= calculateOverallScore (4 + 3) (7 - 3) 1)%Z.
Proof. apply (score_monotone 4 7 1 3). lia. Defined.

(** The sum rounded by [calculateOverallScore] is within one quarter of the
    exact value of the formula. *)
Lemma rounded_sum_close (A B : Q) :
  (0 <= A -> 0 <= B -> A + B <= 1 ->
   let E := 100 * A + 50 * B in
   let s := Binary64.fadd (Binary64.fmul (Binary64.round_ne A) 100)
              (Binary64.fmul (Binary64.round_ne B) 50) in
   0 <= E /\ E <= 100 /\ 0 <= s /\ E - (1 # 4) <= s /\ s <= E + (1 # 4))%Q.
Proof.
  intros HA HB HAB E s.
  destruct Binary64Facts.eps_bounds as [He0 He1].
  pose proof (Binary64Facts.round_ne_nonneg A HA) as Ha0.
  pose proof (Binary64Facts.round_ne_nonneg B HB) as Hb0.
  assert (Hau : (Binary64.round_ne A <= A * (1 * (1 + Binary64.eps)))%Q)
    by (apply Binary64Facts.round_ne_upper; [exact HA | lra]).
  assert (Hal : (A * (1 * (1 - Binary64.eps)) <= Binary64.round_ne A)%Q)
    by (apply Binary64Facts.round_ne_lower; [exact HA | lra]).
  assert (Hbu : (Binary64.round_ne B <= B * (1 * (1 + Binary64.eps)))%Q)
    by (apply Binary64Facts.round_ne_upper; [exact HB | lra]).
  assert (Hbl : (B * (1 * (1 - Binary64.eps)) <= Binary64.round_ne B)%Q)
    by (apply Binary64Facts.round_ne_lower; [exact HB | lra]).
  revert Ha0 Hb0 Hau Hal Hbu Hbl. subst s.
  generalize (Binary64.round_ne A) (Binary64.round_ne B). intros a b Ha0 Hb0 Hau Hal Hbu Hbl.
  unfold Binary64.fmul, Binary64.fadd.
  assert (Hy0 : (0 <= Binary64.round_ne (a * 100))%Q)
    by (apply Binary64Facts.round_ne_nonneg; lra).
  assert (Hv0 : (0 <= Binary64.round_ne (b * 50))%Q)
    by (apply Binary64Facts.round_ne_nonneg; lra).
  assert (Hyu : (Binary64.round_ne (a * 100)
                 <= 100 * A * (1 * (1 + Binary64.eps) * (1 + Binary64.eps)))%Q)
    by (apply Binary64Facts.round_ne_upper; lra).
  assert (Hyl : (100 * A * (1 * (1 - Binary64.eps) * (1 - Binary64.eps))
                 <= Binary64.round_ne (a * 100))%Q)
    by (apply Binary64Facts.round_ne_lower; lra).
  assert (Hvu : (Binary64.round_ne (b * 50)
                 <= 50 * B * (1 * (1 + Binary64.eps) * (1 + Binary64.eps)))%Q)
    by (apply Binary64Facts.round_ne_upper; lra).
  assert (Hvl : (50 * B * (1 * (1 - Binary64.eps) * (1 - Binary64.eps))
                 <= Binary64.round_ne (b * 50))%Q)
    by (apply Binary64Facts.round_ne_lower; lra).
  revert Hy0 Hv0 Hyu Hyl Hvu Hvl.
  generalize (Binary64.round_ne (a * 100)) (Binary64.round_ne (b * 50)).
  intros y v Hy0 Hv0 Hyu Hyl Hvu Hvl.
  assert (HE0 : (0 <= E)%Q) by (unfold E; lra).
  assert (HE1 : (E <= 100)%Q) by (unfold E; lra).
  set (ku := (1 * (1 + Binary64.eps) * (1 + Binary64.eps) * (1 + Binary64.eps))%Q).
  set (kl := (1 * (1 - Binary64.eps) * (1 - Binary64.eps) * (1 - Binary64.eps))%Q).
  assert (Hku : (ku <= 401 # 400)%Q) by (vm_compute; discriminate).
  assert (Hkl : (399 # 400 <= kl)%Q) by (vm_compute; discriminate).
  assert (Hsu : (Binary64.round_ne (y + v) <= E * ku)%Q).
  { unfold ku. apply Binary64Facts.round_ne_upper; [lra |].
    revert Hyu Hvu. unfold E. generalize (1 * (1 + Binary64.eps) * (1 + Binary64.eps))%Q.
    intros k Hyu Hvu.
    apply Qle_trans with (100 * A * k + 50 * B * k)%Q; [lra |].
    apply Qle_lteq. right. ring. }
  assert (Hsl : (E * kl <= Binary64.round_ne (y + v))%Q).
  { unfold kl. apply Binary64Facts.round_ne_lower; [lra |].
    revert Hyl Hvl. unfold E. generalize (1 * (1 - Binary64.eps) * (1 - Binary64.eps))%Q.
    intros k Hyl Hvl.
    apply Qle_trans with (100 * A * k + 50 * B * k)%Q; [| lra].
    apply Qle_lteq. right. ring. }
  assert (Hu : (E * ku <= E * (401 # 400))%Q).
  { rewrite !(Qmult_comm E). now apply Qmult_le_compat_r. }
  assert (Hl : (E * (399 # 400) <= E * kl)%Q).
  { rewrite !(Qmult_comm E). now apply Qmult_le_compat_r. }
  clearbody ku kl. clearbody E.
  repeat split; try assumption; lra.
Qed.

(** The score persisted is at most one away from the score of the
    specification, and lies between 0 and 100. *)
Lemma score_close_to_spec (c nc p : nat) :
  (spec_score c nc p - 1 <= calculateOverallScore c nc p <= spec_score c nc p + 1)%Z /\
  (0 <= calculateOverallScore c nc p <= 100)%Z.
Proof.
  unfold calculateOverallScore, spec_score.
  destruct (Nat.ltb_spec 0 (c + nc + p)) as [Ht | Ht]; [| lia].
  pose proof (Binary64Facts.of_nat_pos _ Ht) as Htq.
  set (t := c + nc + p) in *.
  set (A := (Binary64.of_nat c / Binary64.of_nat t)%Q).
  set (B := (Binary64.of_nat p / Binary64.of_nat t)%Q).
  assert (HA : (0 <= A)%Q)
    by (apply Qle_shift_div_l; [exact Htq |]; pose proof (Binary64Facts.of_nat_nonneg c); lra).
  assert (HB : (0 <= B)%Q)
    by (apply Qle_shift_div_l; [exact Htq |]; pose proof (Binary64Facts.of_nat_nonneg p); lra).
  assert (HAB : (A + B <= 1)%Q).
  { assert (Hsum : (A + B == (Binary64.of_nat c + Binary64.of_nat p) / Binary64.of_nat t)%Q)
      by (unfold A, B; field; lra).
    rewrite Hsum. apply Qle_shift_div_r; [exact Htq |].
    unfold Binary64.of_nat. rewrite <- inject_Z_plus, Qmult_1_l, <- Zle_Qle. lia. }
  destruct (rounded_sum_close A B HA HB HAB) as (HE0 & HE1 & Hs0 & Hl & Hu).
  assert (HE : (100 * Binary64.of_nat c / Binary64.of_nat t
                + 50 * Binary64.of_nat p / Binary64.of_nat t == 100 * A + 50 * B)%Q)
    by (unfold A, B; field; lra).
  unfold Binary64.math_round. rewrite HE.
  change (Binary64.fdiv (Binary64.of_nat c) (Binary64.of_nat t)) with (Binary64.round_ne A).
  change (Binary64.fdiv (Binary64.of_nat p) (Binary64.of_nat t)) with (Binary64.round_ne B).
  revert Hs0 Hl Hu.
  generalize (Binary64.fadd (Binary64.fmul (Binary64.round_ne A) 100)
                (Binary64.fmul (Binary64.round_ne B) 50)).
  revert HE0 HE1. generalize (100 * A + 50 * B)%Q. intros E HE0 HE1 s Hs0 Hl Hu.
  pose proof (Qfloor_le (s + (1 # 2))) as F1. pose proof (Qlt_floor (s + (1 # 2))) as F2.
  pose proof (Qfloor_le (E + (1 # 2))) as G1. pose proof (Qlt_floor (E + (1 # 2))) as G2.
  rewrite inject_Z_plus in F2, G2.
  change (inject_Z 1) with 1%Q in F2, G2.
  clear - HE0 HE1 Hs0 Hl Hu F1 F2 G1 G2.
  assert (K1 : (inject_Z (Qfloor (s + (1 # 2))) < inject_Z (Qfloor (E + (1 # 2)) + 2))%Q)
    by (rewrite inject_Z_plus; change (inject_Z 2) with 2%Q; lra).
  assert (K2 : (inject_Z (Qfloor (E + (1 # 2))) < inject_Z (Qfloor (s + (1 # 2)) + 2))%Q)
    by (rewrite inject_Z_plus; change (inject_Z 2) with 2%Q; lra).
  assert (K3 : (inject_Z (Qfloor (s + (1 # 2))) < inject_Z 101)%Q)
    by (change (inject_Z 101) with 101%Q; lra).
  assert (K4 : (inject_Z (-1) < inject_Z (Qfloor (s + (1 # 2)) ))%Q)
    by (change (inject_Z (-1)) with (-1)%Q; lra).
  rewrite <- Zlt_Qlt in K1, K2, K3, K4. lia.
Qed.

(** ** The transaction monad *)

Lemma bind_ok {A B} (m : Tx A) (k : A -> Tx B) s r :
  bind m k s = Ok r -> exists a s1, m s = Ok (a, s1) /\ k a s1 = Ok r.
Proof.
  unfold bind. destruct (m s) as [[a s1] | e]; [| discriminate].
  intros H. eauto.
Qed.

Lemma client_query_with_settings_ok {A} env
  (stmt : option string -> option string -> DB -> Result (A * DB)) s a s' :
  client_query_with_settings env stmt s = Ok (a, s') ->
  fault env (AtQuery (tx_count s)) = false /\
  exists db',
    stmt (app_current_user_id s) (app_change_reason s) (tx_db s) = Ok (a, db') /\
    s' = mkTxState db' (S (tx_count s)) (app_current_user_id s) (app_change_reason s).
Proof.
  unfold client_query_with_settings.
  destruct (fault env _); [discriminate |].
  destruct (stmt _ _ _) as [[a' db'] | e]; [| discriminate].
  intros [= -> <-]. eauto.
Qed.

Lemma client_query_ok {A} env (stmt : DB -> Result (A * DB)) s a s' :
  client_query env stmt s = Ok (a, s') ->
  fault env (AtQuery (tx_count s)) = false /\
  exists db',
    stmt (tx_db s) = Ok (a, db') /\
    s' = mkTxState db' (S (tx_count s)) (app_current_user_id s) (app_change_reason s).
Proof. apply client_query_with_settings_ok. Qed.

(** ROLLBACK: a transaction that fails leaves the store as it found it. *)
Lemma transaction_rollback {A} env (callback : Tx A) db e db' :
  transaction env callback db = (Err e, db') -> db' = db.
Proof.
  unfold transaction.
  destruct (fault env AtBegin); [now intros [= _ <-] |].
  destruct (callback _) as [[a s] | e']; [| now intros [= _ <-]].
  destruct (fault env AtCommit); [now intros [= _ <-] | discriminate].
Qed.

(** COMMIT: a transaction that succeeds publishes the writes of its callback. *)
Lemma transaction_commit {A} env (callback : Tx A) db a db' :
  transaction env callback db = (Ok a, db') ->
  fault env AtBegin = false /\ fault env AtCommit = false /\
  exists s, callback (mkTxState db 0 None None) = Ok (a, s) /\ db' = tx_db s.
Proof.
  unfold transaction.
  destruct (fault env AtBegin); [discriminate |].
  destruct (callback _) as [[a' s] | e']; [| discriminate].
  destruct (fault env AtCommit); [discriminate |].
  intros [= <- <-]. eauto.
Qed.

(** ** The loop over the controls *)

Lemma count_status_app st rows rows' :
  count_status st (rows ++ rows') = count_status st rows + count_status st rows'.
Proof. unfold count_status. now rewrite filter_app, length_app. Qed.

Lemma count_status_total rows :
  length rows =
    count_status FindingStatus.compliant rows
    + count_status FindingStatus.non_compliant rows
    + count_status FindingStatus.partial rows
    + count_status FindingStatus.not_applicable rows
    + count_status FindingStatus.not_assessed rows.
Proof.
  unfold count_status. induction rows as [| f rows IH]; [reflexivity |].
  rewrite !filter_cons. cbn [length]. rewrite IH.
  destruct (fnd_status f); repeat case_decide; try congruence; cbn [length]; lia.
Qed.

Lemma evaluate_control_tally env options i control t :
  forall context assessment findingId,
    tallies t (snd (evaluate_control env options i control t))
      [finding_row env context assessment options findingId control
         (fst (evaluate_control env options i control t))].
Proof.
  intros context assessment findingId.
  unfold tallies, count_status, evaluate_control.
  destruct (useAI options && ai_enabled env).
  - destruct (Binary64.flt _ _); [| destruct (Binary64.flt _ _);
      [| destruct (Binary64.flt _ _); [destruct (80 <? _)%Z |]]];
      cbn; repeat split; case_decide; try congruence; cbn [length]; lia.
  - cbn. repeat split; case_decide; try congruence; cbn [length]; lia.
Qed.

Lemma tallies_nil t : tallies t t [].
Proof. unfold tallies, count_status. cbn. repeat split; lia. Qed.

Lemma tallies_snoc t t1 t2 r rows :
  tallies t t1 [r] -> tallies t1 t2 rows -> tallies t t2 (rows ++ [r]).
Proof.
  unfold tallies. rewrite !count_status_app.
  intros (H1 & H2 & H3 & H4) (K1 & K2 & K3 & K4). repeat split; lia.
Qed.

Lemma set_control_findings_nil db : set_control_findings (app []) db = db.
Proof. now destruct db. Qed.

Lemma set_control_findings_snoc rows r db :
  set_control_findings (app rows) (set_control_findings (cons r) db)
  = set_control_findings (app (rows ++ [r])) db.
Proof. unfold set_control_findings. cbn. now rewrite <- app_assoc. Qed.

(** A loop that completes has inserted one row per control, in order, and
    nothing else. *)
Lemma assess_controls_ok env context assessment options controls :
  forall i t s t' s',
    assess_controls env context assessment options i controls t s = Ok (t', s') ->
    exists rows,
      tx_db s' = set_control_findings (app rows) (tx_db s) /\
      tx_count s' = tx_count s + length controls /\
      Forall2 (row_of_control env context assessment options) controls (rev rows) /\
      tallies t t' rows.
Proof.
  induction controls as [| control rest IH]; intros i t s t' s' H.
  - cbn in H. injection H as <- <-. exists [].
    rewrite set_control_findings_nil. cbn.
    split; [reflexivity |]. split; [lia |]. split; [constructor | apply tallies_nil].
  - cbn [assess_controls] in H.
    pose proof (evaluate_control_tally env options i control t context assessment
                  (uuidv4 env i)) as Ht.
    destruct (evaluate_control env options i control t) as [ev t1] eqn:E.
    cbn [fst snd] in Ht.
    apply bind_ok in H as (u & s1 & Hq & H).
    apply client_query_ok in Hq as (_ & db1 & Hins & ->).
    injection Hins as _ <-.
    apply IH in H as (rows & Hdb & Hcount & Hrows & Htal).
    exists (rows ++ [finding_row env context assessment options (uuidv4 env i) control ev]).
    cbn [tx_db tx_count] in *.
    rewrite Hdb, set_control_findings_snoc, rev_app_distr. cbn [rev app length].
    split; [reflexivity |]. split; [lia |]. split.
    + constructor; [| exact Hrows]. exists i, t. now rewrite E.
    + eapply tallies_snoc; eauto.
Qed.

Lemma alter_lookup_insert {A} (f : A -> A) (m : gmap string A) i x :
  m !! i = Some x -> alter f i m = <[i := f x]> m.
Proof.
  intros H. apply map_eq. intros j.
  destruct (decide (i = j)) as [-> | Hne].
  - now rewrite lookup_alter_eq, lookup_insert_eq, H.
  - now rewrite lookup_alter_ne, lookup_insert_ne.
Qed.

Lemma getAssessment_lookup tenant assessment db a :
  getAssessment tenant assessment db = Some a ->
  compliance_assessments db !! assessment = Some a /\ asm_tenantId a = tenant.
Proof.
  unfold getAssessment.
  destruct (compliance_assessments db !! assessment) as [a' |]; [| discriminate].
  case_bool_decide; [| discriminate]. intros [= ->]. auto.
Qed.

(** ** runAssessment *)

(** What a run that returns has done. *)
Lemma runAssessment_ok env context assessmentId options db a db' :
  runAssessment env context assessmentId options db = (Ok a, db') ->
  exists a0 controls rows t,
    getAssessment (tenantId context) assessmentId db = Some a0 /\
    (status a0 = AssessmentStatus.pending \/ status a0 = AssessmentStatus.failed) /\
    select_controls env a0 db = Ok (controls, db) /\
    Forall2 (row_of_control env context assessmentId options) controls (rev rows) /\
    tallies zero_tally t rows /\
    a = completed_row env options controls
          (calculateOverallScore (t_compliant t) (t_nonCompliant t) (t_partial t))
          (calculateRiskLevel
             (calculateOverallScore (t_compliant t) (t_nonCompliant t) (t_partial t)))
          t (started_row env a0) /\
    control_findings db' = rows ++ control_findings db /\
    compliance_assessments db' = <[assessmentId := a]> (compliance_assessments db) /\
    compliance_config db' = compliance_config db /\
    compliance_config_audit db' = compliance_config_audit db /\
    compliance_frameworks db' = compliance_frameworks db /\
    compliance_controls db' = compliance_controls db.
Proof.
  unfold runAssessment. intros H.
  apply transaction_commit in H as (_ & _ & s & H & ->).
  apply bind_ok in H as (r0 & s0 & Hsel & H).
  apply client_query_ok in Hsel as (_ & db0 & Hsel & ->).
  unfold select_assessment_for_update in Hsel. injection Hsel as Hr0 Hdb0. subst r0 db0.
  cbn [tx_db tx_count app_current_user_id app_change_reason] in H.
  destruct (getAssessment (tenantId context) assessmentId db) as [a0 |] eqn:Hget;
    [| discriminate].
  destruct (getAssessment_lookup _ _ _ _ Hget) as [Hlook _].
  destruct (bool_decide (status a0 ≠ AssessmentStatus.pending)
            && bool_decide (status a0 ≠ AssessmentStatus.failed)) eqn:Hguard;
    [discriminate |].
  apply bind_ok in H as (u1 & s1 & Hmark & H).
  apply client_query_ok in Hmark as (_ & db1 & Hmark & ->).
  unfold mark_in_progress in Hmark. injection Hmark as _ Hdb1. subst db1.
  cbn [tx_db tx_count app_current_user_id app_change_reason] in H.
  apply bind_ok in H as (controls & s2 & Hctl & H).
  apply client_query_ok in Hctl as (_ & db2 & Hctl & ->).
  unfold select_controls in Hctl. injection Hctl as Hc Hdb2. subst controls db2.
  cbn [tx_db tx_count app_current_user_id app_change_reason
       set_compliance_assessments compliance_controls] in H.
  set (controls := order_by_priority_desc _ _) in H.
  apply bind_ok in H as (t & s3 & Hloop & H).
  apply assess_controls_ok in Hloop as (rows & Hdb3 & _ & Hrows & Htal).
  cbn [tx_db] in Hdb3.
  apply bind_ok in H as (final & s4 & Hfin & H).
  apply client_query_ok in Hfin as (_ & db4 & Hfin & ->).
  unfold complete_assessment in Hfin. injection Hfin as Hf Hdb4. subst final db4.
  rewrite Hdb3 in H.
  cbn [set_compliance_assessments set_control_findings compliance_assessments] in H.
  rewrite (alter_lookup_insert _ _ _ _ Hlook), alter_insert_eq, lookup_insert_eq in H.
  cbn [returned_row ret] in H. injection H as Ha Hs. subst s.
  cbn [tx_db].
  cbn [set_compliance_assessments set_control_findings compliance_assessments
       control_findings compliance_config compliance_config_audit
       compliance_frameworks compliance_controls].
  rewrite (alter_lookup_insert _ _ _ _ Hlook), alter_insert_eq.
  exists a0, controls, rows, t. rewrite <- Ha.
  split; [reflexivity |].
  split.
  { apply andb_false_iff in Hguard as [Hg | Hg]; apply bool_decide_eq_false in Hg;
      [left | right]; destruct (status a0); try reflexivity; exfalso; apply Hg; discriminate. }
  repeat (split; [first [reflexivity | assumption] |]). reflexivity.
Qed.

(** When no statement fails the loop completes. *)
Lemma assess_controls_completes env context aid options :
  no_faults env ->
  forall controls i t s,
    exists t' s', assess_controls env context aid options i controls t s = Ok (t', s').
Proof.
  intros Hnf. induction controls as [| control rest IH]; intros i t s.
  - exists t, s. reflexivity.
  - cbn [assess_controls].
    destruct (evaluate_control env options i control t) as [ev t1].
    unfold bind, client_query, client_query_with_settings at 1.
    rewrite (Hnf (AtQuery (tx_count s))). cbn [insert_finding]. apply IH.
Qed.

(** When no statement fails, a pending or failed assessment of the caller's
    tenant is run to completion. *)
Lemma runAssessment_completes env context aid options db a0 :
  no_faults env ->
  getAssessment (tenantId context) aid db = Some a0 ->
  status a0 = AssessmentStatus.pending \/ status a0 = AssessmentStatus.failed ->
  is_ok (fst (runAssessment env context aid options db)) = true.
Proof.
  intros Hnf Hget Hst.
  destruct (getAssessment_lookup _ _ _ _ Hget) as [Hlook _].
  assert (Hguard : bool_decide (status a0 ≠ AssessmentStatus.pending)
                   && bool_decide (status a0 ≠ AssessmentStatus.failed) = false).
  { destruct Hst as [-> | ->]; [| rewrite andb_comm];
      rewrite (bool_decide_eq_false_2 (_ ≠ _)) by (intros H; now apply H); reflexivity. }
  unfold runAssessment, transaction. rewrite (Hnf AtBegin), (Hnf AtCommit).
  unfold bind at 1. unfold client_query at 1, client_query_with_settings at 1.
  cbn [tx_db tx_count app_current_user_id app_change_reason].
  rewrite (Hnf (AtQuery _)). unfold select_assessment_for_update. rewrite Hget, Hguard.
  unfold bind at 1. unfold client_query at 1, client_query_with_settings at 1.
  cbn [tx_db tx_count app_current_user_id app_change_reason].
  rewrite (Hnf (AtQuery _)). unfold mark_in_progress.
  unfold bind at 1. unfold client_query at 1, client_query_with_settings at 1.
  cbn [tx_db tx_count app_current_user_id app_change_reason].
  rewrite (Hnf (AtQuery _)). unfold select_controls.
  set (controls := order_by_priority_desc _ _).
  unfold bind at 1.
  destruct (assess_controls_completes env context aid options Hnf controls 0 zero_tally
              (mkTxState
                 (set_compliance_assessments (alter (started_row env) aid) db) 3 None None))
    as (t & s & Hloop).
  rewrite Hloop.
  apply assess_controls_ok in Hloop as (rows & Hdb & _).
  unfold bind at 1. unfold client_query at 1, client_query_with_settings at 1.
  rewrite (Hnf (AtQuery _)). unfold complete_assessment. rewrite Hdb.
  cbn [tx_db set_compliance_assessments set_control_findings compliance_assessments].
  rewrite (alter_lookup_insert _ _ _ _ Hlook), alter_insert_eq, lookup_insert_eq.
  reflexivity.
Qed.

(** C1 (as amended): a run that fails, for whatever reason and at whatever
    step, is rolled back: the store is the one the call started from, so
    the assessment keeps the status it had (pending stays pending, failed
    stays failed) and no finding of the run can be read.  A run that
    returns has committed one finding per selected control together with
    the completed assessment: all or nothing. *)
Theorem runAssessment_all_or_nothing env context aid options db :
  match runAssessment env context aid options db with
  | (Err _, db') =>
      db' = db /\
      getAssessment (tenantId context) aid db' = getAssessment (tenantId context) aid db /\
      control_findings db' = control_findings db
  | (Ok a, db') =>
      exists a0 controls rows,
        getAssessment (tenantId context) aid db = Some a0 /\
        select_controls env a0 db = Ok (controls, db) /\
        Forall2 (row_of_control env context aid options) controls (rev rows) /\
        control_findings db' = rows ++ control_findings db /\
        compliance_assessments db' = <[aid := a]> (compliance_assessments db) /\
        status a = AssessmentStatus.completed
  end.
Proof.
  destruct (runAssessment env context aid options db) as [[a | e] db'] eqn:H.
  - apply runAssessment_ok in H
      as (a0 & controls & rows & t & Hget & _ & Hsel & Hrows & _ & Ha & Hf & Hm & _).
    exists a0, controls, rows. rewrite Ha at 2. auto 10.
  - apply transaction_rollback in H. now subst db'.
Qed.

(** C1 (as stated) fails: the pending assessment uuid-0 is run, the
    statement that resolves the controls fails, and the assessment is
    pending afterwards, not failed. *)
Lemma runAssessment_failure_leaves_pending :
  let run := runAssessment (failing_at 2 sample_env) sample_context "uuid-0" with_AI db_pending in
  status <$> getAssessment "t1" "uuid-0" db_pending = Some AssessmentStatus.pending /\
  fst run = Err (StorageError (AtQuery 2)) /\
  status <$> getAssessment "t1" "uuid-0" (snd run) = Some AssessmentStatus.pending /\
  status <$> getAssessment "t1" "uuid-0" (snd run) <> Some AssessmentStatus.failed.
Proof. vm_compute. repeat split; try reflexivity. discriminate. Qed.

(** C3: an assessment that is neither pending nor failed (completed, in
    progress, cancelled) cannot be run: the call is refused with
    [InvalidState] and the store, findings and aggregates included, is
    untouched; and a run that returns started from pending or failed. *)
Theorem runAssessment_status_guard env context aid options db a :
  getAssessment (tenantId context) aid db = Some a ->
  fault env AtBegin = false ->
  fault env (AtQuery 0) = false ->
  (status a <> AssessmentStatus.pending -> status a <> AssessmentStatus.failed ->
   runAssessment env context aid options db = (Err (InvalidState (status a)), db)) /\
  (is_ok (fst (runAssessment env context aid options db)) = true ->
   status a = AssessmentStatus.pending \/ status a = AssessmentStatus.failed).
Proof.
  intros Hget Hb Hq. split.
  - intros Hp Hf.
    unfold runAssessment, transaction. rewrite Hb.
    unfold bind at 1. unfold client_query, client_query_with_settings.
    cbn [tx_count tx_db]. rewrite Hq.
    unfold select_assessment_for_update. rewrite Hget.
    rewrite !bool_decide_eq_true_2 by assumption. reflexivity.
  - destruct (runAssessment env context aid options db) as [[a' | e] db'] eqn:H;
      [| discriminate].
    intros _. apply runAssessment_ok in H as (a0 & _ & _ & _ & Hget' & Hst & _).
    congruence.
Qed.

Lemma runAssessment_status_guard_witness :
  exists a,
    getAssessment "t1" "uuid-0" db_completed = Some a /\
    status a = AssessmentStatus.completed /\
    runAssessment sample_env sample_context "uuid-0" with_AI db_completed
    = (Err (InvalidState (status a)), db_completed).
Proof.
  destruct (getAssessment "t1" "uuid-0" db_completed) as [a |] eqn:E;
    [| vm_compute in E; discriminate].
  assert (Hst : status a = AssessmentStatus.completed)
    by (vm_compute in E; injection E as <-; reflexivity).
  exists a. split; [reflexivity |]. split; [exact Hst |].
  apply (runAssessment_status_guard sample_env sample_context "uuid-0" with_AI
           db_completed a E);
    try reflexivity; rewrite Hst; discriminate.
Defined.

(** C5 (as amended): the persisted [totalControlsAssessed] is the number of
    controls of the run, one per finding inserted, whatever their status:
    it is the sum of the compliant, non-compliant, partial and
    not-applicable counters and of the number of findings left not
    assessed.  The sum compliant + non-compliant + partial is the
    denominator of the score only. *)
Theorem runAssessment_total_counts_every_control env context aid options db :
  match runAssessment env context aid options db with
  | (Ok a, db') =>
      exists rows,
        control_findings db' = rows ++ control_findings db /\
        totalControlsAssessed a = length rows /\
        totalControlsAssessed a
        = compliantControls a + nonCompliantControls a + partialControls a
          + notApplicableControls a + count_status FindingStatus.not_assessed rows /\
        overallScore a
        = Some (calculateOverallScore (compliantControls a) (nonCompliantControls a)
                  (partialControls a))
  | (Err _, _) => True
  end.
Proof.
  destruct (runAssessment env context aid options db) as [[a | e] db'] eqn:H; [| exact I].
  apply runAssessment_ok in H
    as (a0 & controls & rows & t & _ & _ & _ & Hrows & Htal & Ha & Hf & _).
  exists rows. split; [exact Hf |].
  assert (Hlen : length controls = length rows).
  { apply Forall2_length in Hrows. now rewrite length_rev in Hrows. }
  destruct Htal as (H1 & H2 & H3 & H4). cbn in H1, H2, H3, H4.
  subst a. cbn [totalControlsAssessed compliantControls nonCompliantControls
                partialControls notApplicableControls overallScore completed_row].
  split; [exact Hlen |]. split; [| reflexivity].
  rewrite Hlen, (count_status_total rows). lia.
Qed.

(** C5 (as stated) fails: the three controls of the catalog, run without
    AI, are all left not assessed; the counter stores 3 where
    compliant + non-compliant + partial is 0. *)
Lemma total_includes_not_assessed_controls :
  exists a,
    getAssessment "t1" "uuid-0"
      (snd (runAssessment sample_env sample_context "uuid-0" without_AI db_pending)) = Some a /\
    status a = AssessmentStatus.completed /\
    totalControlsAssessed a = 3 /\
    compliantControls a + nonCompliantControls a + partialControls a = 0 /\
    totalControlsAssessed a
    <> compliantControls a + nonCompliantControls a + partialControls a.
Proof.
  eexists. split; [vm_compute; reflexivity |].
  vm_compute. repeat split; try reflexivity. discriminate.
Qed.

Lemma row_of_control_manual env context aid options control f :
  useAI options && ai_enabled env = false ->
  row_of_control env context aid options control f ->
  controlId f = ctl_id control /\
  assessmentId f = aid /\
  fnd_status f = FindingStatus.not_assessed /\
  aiConfidence f = if useAI options then Some 0%Q else None.
Proof.
  intros Hai (i & t & ->). unfold evaluate_control. rewrite Hai. cbn. auto.
Qed.

(** C6 (as amended): when AI assistance is not used ([useAI] false, or AI
    not enabled in the configuration), the run of a pending or failed
    assessment completes unless a statement fails, and a run that
    completes has inserted exactly one finding per selected control, in
    the order of the controls, each with status not_assessed; the
    confidence recorded is 0 when [useAI] is true and absent (NULL) when it
    is false.  No control is skipped. *)
Theorem runAssessment_without_AI env context aid options db :
  useAI options && ai_enabled env = false ->
  (forall a0,
     no_faults env ->
     getAssessment (tenantId context) aid db = Some a0 ->
     status a0 = AssessmentStatus.pending \/ status a0 = AssessmentStatus.failed ->
     is_ok (fst (runAssessment env context aid options db)) = true) /\
  match runAssessment env context aid options db with
  | (Ok a, db') =>
      exists a0 controls rows,
        getAssessment (tenantId context) aid db = Some a0 /\
        select_controls env a0 db = Ok (controls, db) /\
        control_findings db' = rows ++ control_findings db /\
        Forall2 (fun control f =>
                   controlId f = ctl_id control /\
                   assessmentId f = aid /\
                   fnd_status f = FindingStatus.not_assessed /\
                   aiConfidence f = if useAI options then Some 0%Q else None)
          controls (rev rows)
  | (Err _, db') => db' = db
  end.
Proof.
  intros Hai. split.
  { intros a0 Hnf Hget Hst. now apply (runAssessment_completes env context aid options db a0). }
  destruct (runAssessment env context aid options db) as [[a | e] db'] eqn:H.
  - apply runAssessment_ok in H
      as (a0 & controls & rows & t & Hget & _ & Hsel & Hrows & _ & _ & Hf & _).
    exists a0, controls, rows. repeat (split; [assumption |]).
    eapply Forall2_impl; [exact Hrows |].
    intros control f Hrow. now apply (row_of_control_manual env context).
  - now apply transaction_rollback in H.
Qed.

Lemma runAssessment_without_AI_witness :
  is_ok (fst (runAssessment sample_env sample_context "uuid-0" without_AI db_pending)) = true /\
  match runAssessment sample_env sample_context "uuid-0" without_AI db_pending with
  | (Ok a, db') =>
      exists a0 controls rows,
        getAssessment "t1" "uuid-0" db_pending = Some a0 /\
        select_controls sample_env a0 db_pending = Ok (controls, db_pending) /\
        control_findings db' = rows ++ control_findings db_pending /\
        Forall2 (fun control f =>
                   controlId f = ctl_id control /\
                   assessmentId f = "uuid-0" /\
                   fnd_status f = FindingStatus.not_assessed /\
                   aiConfidence f = None)
          controls (rev rows)
  | (Err _, db') => db' = db_pending
  end.
Proof.
  destruct (runAssessment_without_AI sample_env sample_context "uuid-0" without_AI db_pending
              eq_refl) as [Hrun Hrows].
  split; [| exact Hrows].
  destruct (getAssessment "t1" "uuid-0" db_pending) as [a0 |] eqn:E;
    [| vm_compute in E; discriminate].
  apply (Hrun a0 (fun _ => eq_refl) E).
  left. vm_compute in E. injection E as <-. reflexivity.
Defined.

(** C6 (as stated) fails: with [useAI] false the three findings are
    not_assessed but carry no confidence at all, rather than zero. *)
Lemma findings_without_AI_have_null_confidence :
  let findings :=
    control_findings
      (snd (runAssessment sample_env sample_context "uuid-0" without_AI db_pending)) in
  controlId <$> findings = ["A.5.3"; "A.5.2"; "A.5.1"] /\
  Forall (fun f => fnd_status f = FindingStatus.not_assessed /\
                   aiConfidence f = None /\
                   aiConfidence f <> Some 0%Q) findings.
Proof.
  vm_compute. split; [reflexivity |].
  repeat constructor; discriminate.
Qed.

(** The scenario of framework iso27001 with three controls of priorities
    90, 50 and 10, evaluated compliant, compliant, non-compliant. *)
Lemma scenario_three_controls :
  (fun a => (status a, totalControlsAssessed a, compliantControls a, nonCompliantControls a,
             partialControls a, overallScore a, riskLevel a))
    <$> getAssessment "t1" "uuid-0"
          (snd (runAssessment env_2_1_0 sample_context "uuid-0" with_AI db_pending))
  = Some (AssessmentStatus.completed, 3, 2, 1, 0, Some 67%Z, Some RiskLevel.high) /\
  controlId
    <$> rev (control_findings
               (snd (runAssessment env_2_1_0 sample_context "uuid-0" with_AI db_pending)))
  = ["A.5.1"; "A.5.2"; "A.5.3"].
Proof. vm_compute. split; reflexivity. Qed.

(** A run that returns has persisted the score of its counters and the
    risk level of that score. *)
Lemma runAssessment_persists_score_and_risk env context aid options db a db' :
  runAssessment env context aid options db = (Ok a, db') ->
  overallScore a
  = Some (calculateOverallScore (compliantControls a) (nonCompliantControls a)
            (partialControls a)) /\
  riskLevel a
  = Some (calculateRiskLevel
            (calculateOverallScore (compliantControls a) (nonCompliantControls a)
               (partialControls a))).
Proof.
  intros H. apply runAssessment_ok in H as (a0 & controls & rows & t & _ & _ & _ & _ & _ & -> & _).
  split; reflexivity.
Qed.

(** C2: the score persisted by a run with four compliant, seven
    non-compliant and one partial control is 37, where
    round(100 * 4/12 + 50 * 1/12) = round(37.5) is 38: the sum of the two
    rounded quotients, 33.33333333333333 + 4.166666666666666, is the
    double 37.49999999999999, below the tie. *)
Theorem runAssessment_score_below_tie :
  (fun a => (compliantControls a, nonCompliantControls a, partialControls a,
             overallScore a, riskLevel a))
    <$> getAssessment "t1" "uuid-0"
          (snd (runAssessment env_4_7_1 sample_context "uuid-0" with_AI db_twelve_pending))
  = Some (4, 7, 1, Some 37%Z, Some RiskLevel.critical) /\
  calculateOverallScore 4 7 1 = 37%Z /\
  spec_score 4 7 1 = 38%Z.
Proof. vm_compute. repeat split; reflexivity. Qed.

(** The hardware agrees with the model on that sum. *)
Lemma hardware_sum_4_1_12 :
  Prim2SF (hardware_score_sum 4 1 12) = S754_finite false 5277655813324799 (-47) /\
  (model_score_sum 4 1 12 == inject_Z 5277655813324799 * Binary64.pow2 (-47))%Q /\
  (model_score_sum 4 1 12 < 75 # 2)%Q.
Proof. vm_compute. repeat split; reflexivity. Qed.

(** ** isEnabled *)

Lemma enabled_not_inherited : bool_decide ("enabled" ∈ Object_prototype_keys) = false.
Proof. vm_compute. reflexivity. Qed.

Lemma truthy_enabled (o : gmap string bool) :
  truthy (js_get o "enabled") = bool_decide (o !! "enabled" = Some true).
Proof.
  unfold js_get. destruct (o !! "enabled") as [[|] |] eqn:E; cbn.
  - reflexivity.
  - reflexivity.
  - rewrite enabled_not_inherited. reflexivity.
Qed.

Lemma feature_given_Some f : feature_given (Some f) = negb (bool_decide (f = "")).
Proof.
  cbn. destruct (String.eqb_spec f ""); case_bool_decide; congruence.
Qed.

Lemma getConfig_existing env tenant db c :
  fault env (AtQuery 0) = false ->
  compliance_config db !! tenant = Some c ->
  getConfig env tenant db = (Ok c, db).
Proof.
  intros Hq H. unfold getConfig, query. rewrite Hq. unfold select_config. now rewrite H.
Qed.

Lemma getConfig_missing env tenant db :
  fault env (AtQuery 0) = false ->
  fault env (AtQuery 1) = false ->
  compliance_config db !! tenant = None ->
  getConfig env tenant db
  = (Ok (created_config env tenant true),
     set_compliance_config (insert tenant (created_config env tenant true)) db).
Proof.
  intros Hq0 Hq1 H. unfold getConfig, query. rewrite Hq0. unfold select_config. rewrite H.
  rewrite Hq1. reflexivity.
Qed.

Lemma db_config_row : compliance_config db_config !! "t1" = Some sample_config.
Proof. vm_cast_no_check (eq_refl (Some sample_config)). Qed.

(** C4: [isEnabled] answers from the configuration of the tenant, the row
    stored for it or, for a tenant that has none, the default configuration
    it creates and stores: false when the master switch is off, whatever
    the modules say; with the master on, false when the module is off;
    with both on and a feature named by a non-empty string, the value of
    that feature in the module's record, false when the record has no such
    key; and true when no feature is named or the name is the empty
    string. *)
Theorem isEnabled_gate env tenant module feature db :
  fault env (AtQuery 0) = false ->
  (compliance_config db !! tenant = None -> fault env (AtQuery 1) = false) ->
  let config := default (created_config env tenant true) (compliance_config db !! tenant) in
  exists b db',
    isEnabled env tenant module feature db = (Ok b, db') /\
    compliance_config db' !! tenant = Some config /\
    (is_Some (compliance_config db !! tenant) -> db' = db) /\
    (masterEnabled config = false -> b = false) /\
    (masterEnabled config = true ->
     module_get (moduleConfig config) module !! "enabled" <> Some true -> b = false) /\
    (masterEnabled config = true ->
     module_get (moduleConfig config) module !! "enabled" = Some true ->
     match feature with
     | Some f =>
         if bool_decide (f = "") then b = true
         else b = default false (module_get (moduleConfig config) module !! f)
     | None => b = true
     end).
Proof.
  intros Hq0 Hq1 config.
  assert (Hcfg : exists db',
             getConfig env tenant db = (Ok config, db') /\
             compliance_config db' !! tenant = Some config /\
             (is_Some (compliance_config db !! tenant) -> db' = db)).
  { subst config. destruct (compliance_config db !! tenant) as [c |] eqn:E.
    - exists db. rewrite (getConfig_existing env tenant db c Hq0 E). auto.
    - rewrite (getConfig_missing env tenant db Hq0 (Hq1 eq_refl) E).
      eexists. split; [reflexivity |]. cbn [set_compliance_config compliance_config].
      rewrite lookup_insert_eq. split; [reflexivity |]. intros [c Hc]. discriminate. }
  destruct Hcfg as (db' & Hcfg & Hrow & Hsame).
  exists (isEnabledIn config module feature), db'.
  unfold isEnabled. rewrite Hcfg.
  split; [reflexivity |]. split; [exact Hrow |]. split; [exact Hsame |].
  unfold isEnabledIn. rewrite truthy_enabled.
  split; [| split].
  - now intros ->.
  - intros -> Hoff. cbn. now rewrite bool_decide_eq_false_2.
  - intros -> Hon. cbn. rewrite bool_decide_eq_true_2 by exact Hon. cbn.
    destruct feature as [f |]; [| reflexivity].
    rewrite feature_given_Some. case_bool_decide; [reflexivity |]. cbn.
    unfold js_get.
    destruct (module_get (moduleConfig config) module !! f) as [[|] |]; cbn;
      try reflexivity.
    now case_bool_decide.
Qed.

Lemma db_master_off_row : compliance_config db_master_off !! "t1" = Some master_off_config.
Proof. vm_cast_no_check (eq_refl (Some master_off_config)). Qed.

Lemma sample_config_dataErasure :
  module_get (moduleConfig sample_config) gdpr !! "enabled" = Some true /\
  module_get (moduleConfig sample_config) gdpr !! "dataErasure" = Some true /\
  module_get (moduleConfig sample_config) gdpr !! "" = None.
Proof. repeat split; vm_cast_no_check (eq_refl (A := option bool)). Qed.

Lemma isEnabled_gate_witness :
  isEnabled sample_env "t1" gdpr (Some "dataErasure") db_master_off
  = (Ok false, db_master_off) /\
  isEnabled sample_env "t1" gdpr (Some "dataErasure") db_config = (Ok true, db_config).
Proof.
  split.
  - pose proof (isEnabled_gate sample_env "t1" gdpr (Some "dataErasure") db_master_off
                  eq_refl) as H.
    cbv zeta in H. rewrite db_master_off_row in H. cbn [default from_option id] in H.
    destruct (H ltac:(discriminate)) as (b & db' & Hrun & _ & Hsame & Hoff & _).
    rewrite Hrun, (Hoff eq_refl), (Hsame ltac:(eauto)). reflexivity.
  - pose proof (isEnabled_gate sample_env "t1" gdpr (Some "dataErasure") db_config
                  eq_refl) as H.
    cbv zeta in H. rewrite db_config_row in H. cbn [default from_option id] in H.
    destruct (H ltac:(discriminate)) as (b & db' & Hrun & _ & Hsame & _ & _ & Hon).
    destruct sample_config_dataErasure as (Hen & Hf & _).
    specialize (Hon eq_refl Hen). rewrite bool_decide_eq_false_2 in Hon by discriminate.
    rewrite Hf in Hon.
    rewrite Hrun, Hon, (Hsame ltac:(eauto)). reflexivity.
Defined.

(** The empty string given as feature name: the record of gdpr has no key
    of that name, and [isEnabled] answers true, for the module. *)
Lemma isEnabled_empty_feature_name :
  compliance_config db_config !! "t1" = Some sample_config /\
  masterEnabled sample_config = true /\
  module_get (moduleConfig sample_config) gdpr !! "enabled" = Some true /\
  module_get (moduleConfig sample_config) gdpr !! "" = None /\
  isEnabled sample_env "t1" gdpr (Some "") db_config = (Ok true, db_config).
Proof.
  destruct sample_config_dataErasure as (Hen & _ & Hempty).
  split; [exact db_config_row |]. split; [reflexivity |].
  split; [exact Hen |]. split; [exact Hempty |].
  unfold isEnabled.
  rewrite (getConfig_existing sample_env "t1" db_config sample_config eq_refl db_config_row).
  unfold isEnabledIn. rewrite truthy_enabled, Hen. reflexivity.
Qed.

(** ** Toggles and their audit trail *)

(** A toggle opens its transaction with [SET LOCAL app.current_user_id = $1]:
    when BEGIN and the statement reach the server, the server rejects the
    statement, and the transaction is rolled back. *)
Lemma toggleMaster_fails env context request db :
  toggleMaster env context request db
  = (Err (if fault env AtBegin then StorageError AtBegin
          else if fault env (AtQuery 0) then StorageError (AtQuery 0)
          else SyntaxError "$1"), db).
Proof.
  unfold toggleMaster, transaction. destruct (fault env AtBegin); [reflexivity |].
  unfold bind at 1. unfold set_local_current_user_id. cbn [tx_count].
  destruct (fault env (AtQuery 0)); reflexivity.
Qed.

Lemma toggleModule_fails env context request db :
  toggleModule env context request db
  = (Err (if fault env AtBegin then StorageError AtBegin
          else if fault env (AtQuery 0) then StorageError (AtQuery 0)
          else SyntaxError "$1"), db).
Proof.
  unfold toggleModule, transaction. destruct (fault env AtBegin); [reflexivity |].
  unfold bind at 1. unfold set_local_current_user_id. cbn [tx_count].
  destruct (fault env (AtQuery 0)); reflexivity.
Qed.

Lemma run_toggle_fails op db : exists e, run_toggle op db = (Err e, db).
Proof.
  destruct op as [env context request | env context request]; cbn [run_toggle].
  - rewrite toggleMaster_fails. eauto.
  - rewrite toggleModule_fails. eauto.
Qed.


Lemma no_faults_query env n : no_faults env -> fault env (AtQuery n) = false.
Proof. intros H. apply H. Qed.

(** Every module record of the default configuration has its [enabled]
    key, and the toggles keep it: the key is there in every stored map. *)
Lemma default_has_enabled_keys : has_enabled_keys DEFAULT_MODULE_CONFIG.
Proof. intros k. destruct k; vm_compute; eauto. Qed.

Lemma module_get_set m k k' v :
  module_get (module_set m k v) k' = if decide (k = k') then v else module_get m k'.
Proof. destruct k, k'; reflexivity. Qed.

Lemma toggle_keeps_enabled_keys m module feature enabled m' :
  toggled_module_config m module feature enabled = Ok m' ->
  has_enabled_keys m -> has_enabled_keys m'.
Proof.
  intros Htog Hkeys k. specialize (Hkeys k) as Hk.
  assert (Hins : forall key, is_Some (<[key := enabled]> (module_get m module) !! "enabled")).
  { intros key. rewrite lookup_insert. case_decide; [eauto | apply (Hkeys module)]. }
  unfold toggled_module_config in Htog.
  destruct feature as [f |].
  - destruct (feature_given (Some f)).
    + destruct (js_in f (module_get m module)); [| discriminate].
      injection Htog as <-. rewrite module_get_set. case_decide; [| exact Hk].
      unfold js_assign. destruct (_ && _); [apply (Hkeys module) | apply Hins].
    + injection Htog as <-. rewrite module_get_set. case_decide; [apply Hins | exact Hk].
  - injection Htog as <-. rewrite module_get_set. case_decide; [apply Hins | exact Hk].
Qed.

(** C10: tenant t1 has the default configuration, gdpr enabled.
    [toggleModule] of gdpr with feature "enabled" and value false raises
    no "feature not found": it is rejected by the server at its first
    statement and rolled back, so the [enabled] flag of gdpr stays true
    and no audit row is written. *)
Theorem toggle_feature_named_enabled_is_rolled_back :
  compliance_config db_config !! "t1" = Some sample_config /\
  module_get (moduleConfig sample_config) gdpr !! "enabled" = Some true /\
  audit_count "t1" db_config = 0 /\
  toggleModule sample_env sample_context toggle_gdpr_enabled_off db_config
  = (Err (SyntaxError "$1"), db_config).
Proof.
  split; [exact db_config_row |].
  split; [apply sample_config_dataErasure |].
  split; [reflexivity |].
  rewrite toggleModule_fails. reflexivity.
Qed.

(** ** updateFinding *)

Lemma no_hit_no_change {A} (hit : A -> bool) (g : A -> A) (l : list A) :
  filter (fun x => hit x = true) l = [] -> (fun x => if hit x then g x else x) <$> l = l.
Proof.
  induction l as [| x l IH]; [reflexivity |].
  intros H. rewrite filter_cons in H. cbn. destruct (hit x) eqn:E.
  - rewrite decide_True in H by reflexivity. discriminate.
  - rewrite decide_False in H by discriminate. f_equal. apply IH, H.
Qed.

Lemma first_hit {A} (hit : A -> bool) (l : list A) x rest :
  filter (fun x => hit x = true) l = x :: rest -> x ∈ l /\ hit x = true.
Proof.
  intros H.
  assert (Hin : x ∈ filter (fun x => hit x = true) l) by (rewrite H; left).
  now apply list_elem_of_filter in Hin as [? ?].
Qed.




(** An update with at least one field, of a finding of the caller's tenant,
    succeeds unless the statement fails. *)
Lemma updateFinding_succeeds env context fid updates db f :
  fault env (AtQuery 0) = false ->
  no_updates updates = false ->
  f ∈ control_findings db ->
  fnd_id f = fid ->
  fnd_tenantId f = tenantId context ->
  is_ok (fst (updateFinding env context fid updates db)) = true.
Proof.
  intros Hq Hu Hin Hid Hten. unfold updateFinding, query, update_finding.
  rewrite Hu, Hq.
  destruct (filter _ (control_findings db)) as [| g rest] eqn:Hhit; [| reflexivity].
  exfalso.
  assert (Hf : f ∈ filter (fun f => finding_matches fid (tenantId context) f = true)
                    (control_findings db)).
  { apply list_elem_of_filter. split; [| exact Hin].
    unfold finding_matches. now rewrite !bool_decide_eq_true_2. }
  rewrite Hhit in Hf. inversion Hf.
Qed.

(** ** getConfig *)

(** X1: [getConfig] returns the tenant's configuration row as stored and
    writes nothing when the row exists; for a tenant without a row it
    creates the default configuration (master switch on, default
    modules), stores it under the tenant without writing an audit row,
    and every later call returns that same row. *)
Theorem getConfig_creates_default_once env env' tenant db :
  no_faults env -> no_faults env' ->
  exists config db',
    getConfig env tenant db = (Ok config, db') /\
    compliance_config db' !! tenant = Some config /\
    (forall previous,
       compliance_config db !! tenant = Some previous -> config = previous /\ db' = db) /\
    (compliance_config db !! tenant = None ->
       cfg_tenantId config = tenant /\
       masterEnabled config = true /\
       moduleConfig config = DEFAULT_MODULE_CONFIG /\
       compliance_config db' = <[tenant := config]> (compliance_config db)) /\
    compliance_config_audit db' = compliance_config_audit db /\
    getConfig env' tenant db' = (Ok config, db').
Proof.
  intros Hnf Hnf'.
  destruct (compliance_config db !! tenant) as [c |] eqn:E.
  - exists c, db. rewrite (getConfig_existing env tenant db c (Hnf _) E).
    rewrite (getConfig_existing env' tenant db c (Hnf' _) E).
    split; [reflexivity |]. split; [exact E |].
    split; [intros previous [= <-]; auto |]. split; [discriminate |]. auto.
  - rewrite (getConfig_missing env tenant db (Hnf _) (Hnf _) E).
    eexists _, _. split; [reflexivity |].
    cbn [set_compliance_config compliance_config compliance_config_audit].
    rewrite lookup_insert_eq.
    split; [reflexivity |]. split; [discriminate |].
    split; [intros _; cbn; auto |]. split; [reflexivity |].
    apply getConfig_existing; [apply Hnf' |].
    cbn. now rewrite lookup_insert_eq.
Qed.

Lemma getConfig_creates_default_once_witness :
  exists config db',
    getConfig sample_env "t1" (db_catalog sample_catalog) = (Ok config, db') /\
    moduleConfig config = DEFAULT_MODULE_CONFIG /\
    getConfig sample_env "t1" db' = (Ok config, db').
Proof.
  destruct (getConfig_creates_default_once sample_env sample_env "t1" (db_catalog sample_catalog)
              (fun _ => eq_refl) (fun _ => eq_refl))
    as (config & db' & Hrun & _ & _ & Hnew & _ & Hagain).
  exists config, db'. split; [exact Hrun |]. split; [| exact Hagain].
  apply Hnew. reflexivity.
Defined.

(** ** The configuration table stays well formed; tenants are kept apart *)

Lemma config_well_formed_insert t c db :
  config_well_formed db ->
  cfg_tenantId c = t -> has_enabled_keys (moduleConfig c) ->
  config_well_formed (set_compliance_config (insert t c) db).
Proof.
  intros Hwf Ht Hk t' c'. cbn [set_compliance_config compliance_config].
  rewrite lookup_insert. case_decide as E.
  - intros [= <-]. subst t'. auto.
  - apply Hwf.
Qed.

Lemma config_well_formed_empty db : compliance_config db = ∅ -> config_well_formed db.
Proof. intros H t c. rewrite H, lookup_empty. discriminate. Qed.

Lemma getConfig_result env tenant db :
  snd (getConfig env tenant db) = db \/
  (compliance_config db !! tenant = None /\
   snd (getConfig env tenant db)
   = set_compliance_config (insert tenant (created_config env tenant true)) db).
Proof.
  unfold getConfig, query. destruct (fault env (AtQuery 0)); [now left |].
  unfold select_config. destruct (compliance_config db !! tenant) as [c |]; [now left |].
  destruct (fault env (AtQuery 1)); [now left |]. right. auto.
Qed.

(** X5: the stored configurations stay well formed: every row is the row
    of the tenant it is stored under and every module record of it has
    its [enabled] key, whatever the operations of the toggle service do
    and whatever the database fails. *)
Theorem config_well_formed_invariant env context db :
  config_well_formed db ->
  config_well_formed (snd (getConfig env (tenantId context) db)) /\
  (forall request, config_well_formed (snd (toggleMaster env context request db))) /\
  (forall request, config_well_formed (snd (toggleModule env context request db))).
Proof.
  intros Hwf. split; [| split].
  - destruct (getConfig_result env (tenantId context) db) as [-> | [_ ->]]; [exact Hwf |].
    apply config_well_formed_insert;
      [exact Hwf | reflexivity | apply default_has_enabled_keys].
  - intros request. now rewrite toggleMaster_fails.
  - intros request. now rewrite toggleModule_fails.
Qed.

Lemma config_well_formed_invariant_witness :
  config_well_formed
    (snd (toggleModule sample_env sample_context
            (mkToggleModuleRequest gdpr false "pause the exports" (Some "dataExport"))
            (snd (getConfig sample_env "t1" (db_catalog sample_catalog))))).
Proof.
  apply (config_well_formed_invariant sample_env sample_context).
  apply (config_well_formed_invariant sample_env sample_context).
  now apply config_well_formed_empty.
Defined.

(** X6: the operations of the toggle service called for one tenant leave
    every other tenant as it was: its configuration row and every page of
    its audit log read the same before and after, whatever the database
    fails. *)
Theorem toggles_leave_other_tenants_alone env context db other db' :
  config_well_formed db ->
  other <> tenantId context ->
  db' = snd (getConfig env (tenantId context) db) \/
  (exists request, db' = snd (toggleMaster env context request db)) \/
  (exists request, db' = snd (toggleModule env context request db)) ->
  compliance_config db' !! other = compliance_config db !! other /\
  forall env' limit offset act module,
    getAuditLog env' other limit offset act module db'
    = getAuditLog env' other limit offset act module db.
Proof.
  intros Hwf Hother [-> | [[request ->] | [request ->]]].
  - destruct (getConfig_result env (tenantId context) db) as [-> | [_ ->]]; [auto |].
    cbn [set_compliance_config compliance_config].
    rewrite lookup_insert_ne by congruence. auto.
  - rewrite toggleMaster_fails. auto.
  - rewrite toggleModule_fails. auto.
Qed.

Lemma db_config_well_formed : config_well_formed db_config.
Proof.
  unfold db_config.
  destruct (getConfig_result sample_env "t1" (db_catalog sample_catalog)) as [-> | [_ ->]].
  - now apply config_well_formed_empty.
  - apply config_well_formed_insert;
      [now apply config_well_formed_empty | reflexivity | apply default_has_enabled_keys].
Qed.

Lemma toggles_leave_other_tenants_alone_witness :
  let db' := snd (getConfig sample_env "t1" (db_catalog sample_catalog)) in
  compliance_config db' !! "t2" = compliance_config (db_catalog sample_catalog) !! "t2" /\
  forall env' limit offset act module,
    getAuditLog env' "t2" limit offset act module db'
    = getAuditLog env' "t2" limit offset act module (db_catalog sample_catalog).
Proof.
  apply (toggles_leave_other_tenants_alone sample_env sample_context
           (db_catalog sample_catalog) "t2").
  - now apply config_well_formed_empty.
  - discriminate.
  - left. reflexivity.
Defined.

(** X31: no toggle is ever committed.  [toggleMaster] and [toggleModule]
    send [SET LOCAL app.current_user_id = $1] with a bind parameter as
    the first statement of their transaction; the server cannot parse it,
    so every call fails, with the syntax error when BEGIN and the
    statement reach the server, and the store is as it was: no
    configuration is created or changed and no audit row is written,
    whatever the request and whatever the store holds. *)
Theorem toggles_never_commit env context db :
  (forall request,
     exists e,
       toggleMaster env context request db = (Err e, db) /\
       (fault env AtBegin = false -> fault env (AtQuery 0) = false -> e = SyntaxError "$1")) /\
  (forall request,
     exists e,
       toggleModule env context request db = (Err e, db) /\
       (fault env AtBegin = false -> fault env (AtQuery 0) = false -> e = SyntaxError "$1")).
Proof.
  split; intros request; eexists;
    (split; [first [apply toggleMaster_fails | apply toggleModule_fails] |]);
    intros -> ->; reflexivity.
Qed.

(** ** [is_compliance_module_enabled] and [isEnabled] *)

Lemma json_member_key m module : json_member m (module_key module) = Some (module_get m module).
Proof. now destruct module. Qed.

(** X11: for a tenant that has a configuration row, the SQL function
    [is_compliance_module_enabled] and the service's [isEnabled] give the
    same answer, about a module and about a feature named by a non-empty
    string; asked about the empty feature name the service answers for the
    module, the function for a key that no record has. *)
Theorem is_compliance_module_enabled_agrees env tenant module feature db config :
  compliance_config db !! tenant = Some config ->
  fault env (AtQuery 0) = false ->
  (feature <> Some "" ->
   isEnabled env tenant module feature db
   = (Ok (is_compliance_module_enabled tenant (module_key module) feature db), db)) /\
  is_compliance_module_enabled tenant (module_key module) (Some "") db
  = isEnabledIn config module (Some "")
    && default false (module_get (moduleConfig config) module !! "").
Proof.
  intros Hcfg Hq.
  unfold isEnabled. rewrite (getConfig_existing env tenant db config Hq Hcfg).
  unfold is_compliance_module_enabled, json_boolean, isEnabledIn.
  rewrite Hcfg, json_member_key.
  destruct (masterEnabled config); cbn [negb]; [| split; reflexivity].
  change (feature_given (Some "")) with false.
  assert (Hen : truthy (js_get (module_get (moduleConfig config) module) "enabled")
                = match module_get (moduleConfig config) module !! "enabled" with
                  | Some true => true
                  | _ => false
                  end).
  { unfold js_get.
    destruct (module_get (moduleConfig config) module !! "enabled") as [[|] |];
      reflexivity. }
  rewrite Hen.
  destruct (module_get (moduleConfig config) module !! "enabled") as [[|] |];
    cbn [negb andb]; [| split; reflexivity | split; reflexivity].
  split; [| reflexivity].
  intros Hne. do 2 f_equal.
  destruct feature as [f |]; [| reflexivity].
  rewrite feature_given_Some.
  rewrite (bool_decide_eq_false_2 (f = "")) by (intros ->; now apply Hne).
  cbn [negb default from_option id].
  unfold js_get.
  destruct (module_get (moduleConfig config) module !! f) as [[|] |]; cbn;
    try reflexivity.
  now case_bool_decide.
Qed.

Lemma is_compliance_module_enabled_agrees_witness :
  isEnabled sample_env "t1" soc2 (Some "securityControls") db_config
  = (Ok (is_compliance_module_enabled "t1" "soc2" (Some "securityControls") db_config),
     db_config).
Proof.
  apply (is_compliance_module_enabled_agrees sample_env "t1" soc2 (Some "securityControls")
           db_config sample_config db_config_row eq_refl).
  discriminate.
Defined.

(** X12: for a tenant without configuration row the SQL function answers
    true, whatever the module and the feature, where the service creates
    the default row and answers from it: false for soc2 and hipaa.  Once
    the service has been asked, the function answers as the service. *)
Theorem is_compliance_module_enabled_without_row env tenant db :
  no_faults env ->
  compliance_config db !! tenant = None ->
  (forall p_module p_feature,
     is_compliance_module_enabled tenant p_module p_feature db = true) /\
  (forall module,
     exists db',
       isEnabled env tenant module None db
       = (Ok (bool_decide (module <> soc2 /\ module <> hipaa)), db') /\
       is_compliance_module_enabled tenant (module_key module) None db'
       = bool_decide (module <> soc2 /\ module <> hipaa)).
Proof.
  intros Hnf Hnone. split.
  - intros p_module p_feature. unfold is_compliance_module_enabled. now rewrite Hnone.
  - intros module. unfold isEnabled.
    rewrite (getConfig_missing env tenant db (Hnf _) (Hnf _) Hnone).
    eexists. split.
    + f_equal. f_equal. destruct module; vm_compute; reflexivity.
    + unfold is_compliance_module_enabled.
      cbn [set_compliance_config compliance_config]. rewrite lookup_insert_eq.
      destruct module; vm_compute; reflexivity.
Qed.

Lemma is_compliance_module_enabled_without_row_witness :
  is_compliance_module_enabled "t1" "soc2" None (db_catalog sample_catalog) = true /\
  fst (isEnabled sample_env "t1" soc2 None (db_catalog sample_catalog)) = Ok false.
Proof.
  destruct (is_compliance_module_enabled_without_row sample_env "t1" (db_catalog sample_catalog)
              (fun _ => eq_refl) eq_refl) as [Hsql Hsvc].
  split; [apply Hsql |].
  destruct (Hsvc soc2) as (db' & -> & _). reflexivity.
Defined.

(** ** ORDER BY implementation_priority DESC *)

(** ORDER BY: a permutation, sorted, whatever the database does with
    controls of equal priority. *)
Lemma insert_by_priority_perm env c l : insert_by_priority env c l ≡ₚ c :: l.
Proof.
  induction l as [| x l IH]; [reflexivity |]. cbn.
  destruct (priority_before env c x); [reflexivity |]. rewrite IH. apply Permutation_swap.
Qed.

Lemma order_by_priority_desc_perm env l : order_by_priority_desc env l ≡ₚ l.
Proof.
  unfold order_by_priority_desc. induction l as [| x l IH]; [reflexivity |].
  cbn. rewrite insert_by_priority_perm. now rewrite IH.
Qed.

Lemma priority_before_spec env c x :
  if priority_before env c x
  then (implementationPriority x <= implementationPriority c)%Z
  else (implementationPriority c <= implementationPriority x)%Z.
Proof.
  unfold priority_before.
  destruct (Z.ltb_spec (implementationPriority x) (implementationPriority c)); cbn; [lia |].
  destruct (Z.eqb_spec (implementationPriority x) (implementationPriority c)); cbn;
    [destruct (scan_order env _ _) |]; lia.
Qed.

Lemma insert_by_priority_sorted env c l :
  StronglySorted priority_desc l -> StronglySorted priority_desc (insert_by_priority env c l).
Proof.
  induction 1 as [| x l Hs IH Hx]; cbn.
  - repeat constructor.
  - pose proof (priority_before_spec env c x) as Hcx.
    destruct (priority_before env c x).
    + constructor; [now constructor |].
      constructor; [exact Hcx |].
      eapply Forall_impl; [exact Hx |]. unfold priority_desc. intros y Hy. lia.
    + constructor; [exact IH |].
      rewrite insert_by_priority_perm. constructor; [| exact Hx].
      unfold priority_desc. lia.
Qed.

Lemma order_by_priority_desc_sorted env l :
  StronglySorted priority_desc (order_by_priority_desc env l).
Proof.
  unfold order_by_priority_desc. induction l as [| x l IH]; cbn.
  - constructor.
  - now apply insert_by_priority_sorted.
Qed.

(** ** createAssessment and the tenant of an assessment *)

Lemma filter_none {A} (P : A -> Prop) `{forall x, Decision (P x)} (l : list A) :
  Forall (fun x => ~ P x) l -> filter P l = [].
Proof.
  induction 1 as [| x l Hx _ IH]; [reflexivity |].
  rewrite filter_cons. now rewrite decide_False.
Qed.

Lemma filter_some {A} (P : A -> Prop) `{forall x, Decision (P x)} (l : list A) :
  Exists P l -> exists x rest, filter P l = x :: rest.
Proof.
  induction 1 as [x l Hx | x l _ IH]; rewrite filter_cons.
  - rewrite decide_True by exact Hx. eauto.
  - case_decide; eauto.
Qed.

Lemma getAssessment_insert tenant id a db :
  getAssessment tenant id (set_compliance_assessments (insert id a) db)
  = if bool_decide (asm_tenantId a = tenant) then Some a else None.
Proof.
  unfold getAssessment. cbn [set_compliance_assessments compliance_assessments].
  now rewrite lookup_insert_eq.
Qed.

Lemma getAssessment_insert_ne tenant id id' a db :
  id' <> id ->
  getAssessment tenant id' (set_compliance_assessments (insert id a) db)
  = getAssessment tenant id' db.
Proof.
  intros Hne. unfold getAssessment. cbn [set_compliance_assessments compliance_assessments].
  now rewrite lookup_insert_ne by congruence.
Qed.

(** X14: [createAssessment] refuses a framework that is unknown or inactive
    and writes nothing; otherwise it stores a pending assessment of the
    caller's tenant, without score and with all counters at zero, that
    [getAssessment] returns to that tenant and to no other; findings and
    the other assessments are untouched. *)
Theorem createAssessment_result env context request db :
  no_faults env ->
  (Forall (fun f => ~ (fw_id f = cr_frameworkId request /\ fw_isActive f = true))
     (compliance_frameworks db) ->
   createAssessment env context request db
   = (Err (FrameworkNotFound (cr_frameworkId request)), db)) /\
  (Exists (fun f => fw_id f = cr_frameworkId request /\ fw_isActive f = true)
     (compliance_frameworks db) ->
   exists a db',
     createAssessment env context request db = (Ok a, db') /\
     asm_tenantId a = tenantId context /\
     frameworkId a = cr_frameworkId request /\
     status a = AssessmentStatus.pending /\
     overallScore a = None /\ riskLevel a = None /\
     totalControlsAssessed a = 0 /\ compliantControls a = 0 /\
     nonCompliantControls a = 0 /\ partialControls a = 0 /\
     getAssessment (tenantId context) (uuidv4 env 0) db' = Some a /\
     (forall other, other <> tenantId context ->
        getAssessment other (uuidv4 env 0) db' = None) /\
     (forall tenant id, id <> uuidv4 env 0 ->
        getAssessment tenant id db' = getAssessment tenant id db) /\
     control_findings db' = control_findings db).
Proof.
  intros Hnf. unfold createAssessment, query. rewrite (Hnf (AtQuery 0)).
  unfold select_active_framework.
  split.
  - intros Hnone. now rewrite (filter_none _ _ Hnone).
  - intros Hsome. destruct (filter_some _ _ Hsome) as (f & rest & ->).
    rewrite (Hnf (AtQuery 1)). unfold insert_assessment.
    eexists _, _. split; [reflexivity |].
    cbn [asm_tenantId frameworkId status overallScore riskLevel totalControlsAssessed
         compliantControls nonCompliantControls partialControls].
    repeat (split; [reflexivity |]).
    split; [| split; [| split]].
    + rewrite getAssessment_insert. cbn. now rewrite bool_decide_eq_true_2.
    + intros other Hother. rewrite getAssessment_insert. cbn.
      now rewrite bool_decide_eq_false_2 by congruence.
    + intros tenant id Hid. now apply getAssessment_insert_ne.
    + reflexivity.
Qed.

Lemma createAssessment_result_witness :
  exists a db',
    createAssessment sample_env sample_context sample_request (db_catalog sample_catalog)
    = (Ok a, db') /\
    status a = AssessmentStatus.pending /\
    getAssessment "t1" "uuid-0" db' = Some a /\
    getAssessment "t2" "uuid-0" db' = None.
Proof.
  destruct (createAssessment_result sample_env sample_context sample_request
              (db_catalog sample_catalog) (fun _ => eq_refl)) as [_ Hok].
  destruct Hok as (a & db' & Hrun & _ & _ & Hst & _ & _ & _ & _ & _ & _ & Hget & Hiso & _).
  { constructor. split; reflexivity. }
  exists a, db'. split; [exact Hrun |]. split; [exact Hst |]. split; [exact Hget |].
  apply Hiso. discriminate.
Defined.

(** X15: [runAssessment] of an assessment the caller's tenant does not own,
    or that does not exist, fails with "not found" and writes nothing,
    whatever the status of that assessment. *)
Theorem runAssessment_of_another_tenant env context aid options db :
  fault env AtBegin = false ->
  fault env (AtQuery 0) = false ->
  (forall a, compliance_assessments db !! aid = Some a -> asm_tenantId a <> tenantId context) ->
  runAssessment env context aid options db = (Err (AssessmentNotFound aid), db).
Proof.
  intros Hb Hq Hother.
  assert (Hget : getAssessment (tenantId context) aid db = None).
  { unfold getAssessment. destruct (compliance_assessments db !! aid) as [a |] eqn:E;
      [| reflexivity].
    rewrite bool_decide_eq_false_2; [reflexivity |]. now apply Hother. }
  unfold runAssessment, transaction. rewrite Hb.
  unfold bind at 1. unfold client_query, client_query_with_settings.
  cbn [tx_count tx_db]. rewrite Hq.
  unfold select_assessment_for_update. now rewrite Hget.
Qed.

Lemma runAssessment_of_another_tenant_witness :
  runAssessment sample_env
    (mkContext "t2" "u2" "r2" None None None) "uuid-0" with_AI db_pending
  = (Err (AssessmentNotFound "uuid-0"), db_pending).
Proof.
  apply (runAssessment_of_another_tenant sample_env
           (mkContext "t2" "u2" "r2" None None None) "uuid-0" with_AI db_pending);
    try reflexivity.
  intros a Ha. vm_compute in Ha. injection Ha as <-. discriminate.
Defined.

(** ** The findings of a run *)

(** X16: an assessment is run once: after a run that returned, a second run
    of the same assessment is refused with [InvalidState completed] and
    changes nothing; the assessment reads completed, started and
    completed at the time of the run. *)
Theorem runAssessment_runs_once env env' context aid options options' db a db' :
  runAssessment env context aid options db = (Ok a, db') ->
  fault env' AtBegin = false ->
  fault env' (AtQuery 0) = false ->
  getAssessment (tenantId context) aid db' = Some a /\
  status a = AssessmentStatus.completed /\
  startedAt a = Some (now env) /\
  completedAt a = Some (now env) /\
  runAssessment env' context aid options' db'
  = (Err (InvalidState AssessmentStatus.completed), db').
Proof.
  intros H Hb Hq.
  apply runAssessment_ok in H
    as (a0 & controls & rows & t & Hget & _ & _ & _ & _ & Ha & _ & Hm & _).
  apply getAssessment_lookup in Hget as [_ Hten].
  assert (Hget' : getAssessment (tenantId context) aid db' = Some a).
  { unfold getAssessment. rewrite Hm, lookup_insert_eq.
    rewrite bool_decide_eq_true_2; [reflexivity |]. now subst a. }
  assert (Hst : status a = AssessmentStatus.completed) by now subst a.
  split; [exact Hget' |]. split; [exact Hst |].
  split; [now subst a |]. split; [now subst a |].
  unfold runAssessment, transaction. rewrite Hb.
  unfold bind at 1. unfold client_query, client_query_with_settings.
  cbn [tx_count tx_db]. rewrite Hq.
  unfold select_assessment_for_update. rewrite Hget', Hst. reflexivity.
Qed.

Lemma runAssessment_runs_once_witness :
  exists a db',
    runAssessment sample_env sample_context "uuid-0" with_AI db_pending = (Ok a, db') /\
    runAssessment sample_env sample_context "uuid-0" without_AI db'
    = (Err (InvalidState AssessmentStatus.completed), db').
Proof.
  destruct (runAssessment sample_env sample_context "uuid-0" with_AI db_pending)
    as [[a | e] db'] eqn:E; [| vm_compute in E; discriminate].
  exists a, db'. split; [reflexivity |].
  apply (runAssessment_runs_once sample_env sample_env sample_context "uuid-0" with_AI
           without_AI db_pending a db' E); reflexivity.
Defined.

Lemma Forall2_Forall_rev {A B} (R : A -> B -> Prop) (P : B -> Prop) l rows :
  (forall x y, R x y -> P y) -> Forall2 R l (rev rows) -> Forall P rows.
Proof.
  intros HRP H.
  assert (HP : Forall P (rev rows)).
  { induction H; constructor; eauto. }
  apply Forall_rev in HP. now rewrite rev_involutive in HP.
Qed.

(** X17: every finding a run inserts belongs to the caller's tenant and to
    the assessment, is not verified by a human, and asks for remediation
    exactly when the control is non-compliant or partial, which is also
    when it has a severity, major or minor; it has a title unless the
    control is compliant. *)
Theorem runAssessment_findings_are_well_formed env context aid options db :
  match runAssessment env context aid options db with
  | (Ok a, db') =>
      exists rows,
        control_findings db' = rows ++ control_findings db /\
        Forall (fun f =>
                  fnd_tenantId f = tenantId context /\
                  assessmentId f = aid /\
                  humanVerified f = false /\ verifiedBy f = None /\
                  (remediationRequired f = true <->
                   fnd_status f = FindingStatus.non_compliant \/
                   fnd_status f = FindingStatus.partial) /\
                  remediationStatus f
                  = (if remediationRequired f then RemediationStatus.pending
                     else RemediationStatus.not_required) /\
                  (findingTitle f = None <-> fnd_status f = FindingStatus.compliant) /\
                  (severity f = None \/ severity f = Some FindingSeverity.major \/
                   severity f = Some FindingSeverity.minor) /\
                  (is_Some (severity f) <-> remediationRequired f = true)) rows
  | (Err _, db') => db' = db
  end.
Proof.
  destruct (runAssessment env context aid options db) as [[a | e] db'] eqn:H.
  2: { now apply transaction_rollback in H. }
  apply runAssessment_ok in H
    as (a0 & controls & rows & t & _ & _ & _ & Hrows & _ & _ & Hf & _).
  exists rows. split; [exact Hf |].
  eapply Forall2_Forall_rev; [| exact Hrows].
  intros control f (i & t0 & ->).
  unfold evaluate_control.
  destruct (useAI options && ai_enabled env).
  - destruct (Binary64.flt _ _); [| destruct (Binary64.flt _ _);
      [| destruct (Binary64.flt _ _); [destruct (80 <? _)%Z |]]];
      cbn; repeat split; try discriminate; try reflexivity; auto;
      try (intros [? | ?]; discriminate); try (intros [? ?]; discriminate); eauto.
  - cbn; repeat split; try discriminate; try reflexivity; auto;
      try (intros [? | ?]; discriminate); try (intros [? ?]; discriminate); eauto.
Qed.

Lemma count_severity_app sev rows rows' :
  count_severity sev (rows ++ rows') = count_severity sev rows + count_severity sev rows'.
Proof. unfold count_severity. now rewrite filter_app, length_app. Qed.

Lemma evaluate_control_severity env options i control t :
  forall context assessment findingId,
    severity_tallies t (snd (evaluate_control env options i control t))
      [finding_row env context assessment options findingId control
         (fst (evaluate_control env options i control t))].
Proof.
  intros context assessment findingId.
  unfold severity_tallies, count_severity, count_status, evaluate_control.
  destruct (useAI options && ai_enabled env).
  - destruct (Binary64.flt _ _); [| destruct (Binary64.flt _ _);
      [| destruct (Binary64.flt _ _); [destruct (80 <? _)%Z |]]];
      cbn; repeat split; repeat case_decide; try congruence; cbn [length]; lia.
  - cbn. repeat split; repeat case_decide; try congruence; cbn [length]; lia.
Qed.

Lemma severity_tallies_snoc t t1 t2 r rows :
  severity_tallies t t1 [r] -> severity_tallies t1 t2 rows ->
  severity_tallies t t2 (rows ++ [r]).
Proof.
  unfold severity_tallies. rewrite !count_severity_app, !count_status_app.
  intros (H1 & H2 & H3 & H4 & H5 & H6 & H7) (K1 & K2 & K3 & K4 & K5 & K6 & K7).
  repeat split; lia.
Qed.

Lemma assess_controls_severity env context assessment options controls :
  forall i t s t' s',
    assess_controls env context assessment options i controls t s = Ok (t', s') ->
    exists rows,
      tx_db s' = set_control_findings (app rows) (tx_db s) /\
      severity_tallies t t' rows.
Proof.
  induction controls as [| control rest IH]; intros i t s t' s' H.
  - cbn in H. injection H as <- <-. exists [].
    rewrite set_control_findings_nil. split; [reflexivity |].
    unfold severity_tallies, count_severity, count_status. cbn. repeat split; lia.
  - cbn [assess_controls] in H.
    pose proof (evaluate_control_severity env options i control t context assessment
                  (uuidv4 env i)) as Ht.
    destruct (evaluate_control env options i control t) as [ev t1] eqn:E.
    cbn [fst snd] in Ht.
    apply bind_ok in H as (u & s1 & Hq & H).
    apply client_query_ok in Hq as (_ & db1 & Hins & ->).
    injection Hins as _ <-.
    apply IH in H as (rows & Hdb & Htal).
    exists (rows ++ [finding_row env context assessment options (uuidv4 env i) control ev]).
    cbn [tx_db] in *.
    rewrite Hdb, set_control_findings_snoc.
    split; [reflexivity |]. eapply severity_tallies_snoc; eauto.
Qed.

(** The loop of a run that returned. *)
Lemma runAssessment_loop env context assessmentId options db a db' :
  runAssessment env context assessmentId options db = (Ok a, db') ->
  exists a0 controls t s s',
    getAssessment (tenantId context) assessmentId db = Some a0 /\
    select_controls env a0 db = Ok (controls, db) /\
    control_findings (tx_db s) = control_findings db /\
    assess_controls env context assessmentId options 0 controls zero_tally s = Ok (t, s') /\
    control_findings db' = control_findings (tx_db s') /\
    a = completed_row env options controls
          (calculateOverallScore (t_compliant t) (t_nonCompliant t) (t_partial t))
          (calculateRiskLevel
             (calculateOverallScore (t_compliant t) (t_nonCompliant t) (t_partial t)))
          t (started_row env a0).
Proof.
  unfold runAssessment. intros H.
  apply transaction_commit in H as (_ & _ & s & H & ->).
  apply bind_ok in H as (r0 & s0 & Hsel & H).
  apply client_query_ok in Hsel as (_ & db0 & Hsel & ->).
  unfold select_assessment_for_update in Hsel. injection Hsel as Hr0 Hdb0. subst r0 db0.
  cbn [tx_db tx_count app_current_user_id app_change_reason] in H.
  destruct (getAssessment (tenantId context) assessmentId db) as [a0 |] eqn:Hget;
    [| discriminate].
  destruct (getAssessment_lookup _ _ _ _ Hget) as [Hlook _].
  destruct (bool_decide (status a0 ≠ AssessmentStatus.pending)
            && bool_decide (status a0 ≠ AssessmentStatus.failed)) eqn:Hguard;
    [discriminate |].
  apply bind_ok in H as (u1 & s1 & Hmark & H).
  apply client_query_ok in Hmark as (_ & db1 & Hmark & ->).
  unfold mark_in_progress in Hmark. injection Hmark as _ Hdb1. subst db1.
  cbn [tx_db tx_count app_current_user_id app_change_reason] in H.
  apply bind_ok in H as (controls & s2 & Hctl & H).
  apply client_query_ok in Hctl as (_ & db2 & Hctl & ->).
  unfold select_controls in Hctl. injection Hctl as Hc Hdb2. subst controls db2.
  cbn [tx_db tx_count app_current_user_id app_change_reason
       set_compliance_assessments compliance_controls] in H.
  set (controls := order_by_priority_desc _ _) in H.
  apply bind_ok in H as (t & s3 & Hloop & H).
  pose proof Hloop as Hloop'.
  apply assess_controls_ok in Hloop' as (rows & Hdb3 & _).
  cbn [tx_db] in Hdb3.
  apply bind_ok in H as (final & s4 & Hfin & H).
  apply client_query_ok in Hfin as (_ & db4 & Hfin & ->).
  unfold complete_assessment in Hfin. injection Hfin as Hf Hdb4. subst final db4.
  rewrite Hdb3 in H.
  cbn [set_compliance_assessments set_control_findings compliance_assessments] in H.
  rewrite (alter_lookup_insert _ _ _ _ Hlook), alter_insert_eq, lookup_insert_eq in H.
  cbn [returned_row ret] in H. injection H as Ha Hs. subst s.
  eexists a0, controls, t, _, s3.
  split; [reflexivity |]. split; [reflexivity |].
  split; [| split; [exact Hloop | split; [| now rewrite <- Ha]]].
  - reflexivity.
  - cbn [tx_db]. rewrite Hdb3. reflexivity.
Qed.

(** X18: the severity counters of a completed assessment count the findings
    of the run: [majorFindings] those of severity major and
    [minorFindings] those of severity minor, together one per
    non-compliant or partial control; [criticalFindings] and
    [observations] are always 0. *)
Theorem runAssessment_severity_counters env context aid options db :
  match runAssessment env context aid options db with
  | (Ok a, db') =>
      exists rows,
        control_findings db' = rows ++ control_findings db /\
        criticalFindings a = 0 /\
        observations a = 0 /\
        majorFindings a = count_severity FindingSeverity.major rows /\
        minorFindings a = count_severity FindingSeverity.minor rows /\
        majorFindings a + minorFindings a = nonCompliantControls a + partialControls a
  | (Err _, _) => True
  end.
Proof.
  destruct (runAssessment env context aid options db) as [[a | e] db'] eqn:H; [| exact I].
  apply runAssessment_loop in H as (a0 & controls & t & s & s' & _ & _ & Hs & Hloop & Hf & Ha).
  pose proof Hloop as Hloop'.
  apply assess_controls_severity in Hloop as (rows & Hdb & K1 & K2 & K3 & K4 & _ & _ & K7).
  apply assess_controls_ok in Hloop' as (rows' & Hdb' & _ & _ & T1 & T2 & T3 & T4).
  assert (rows' = rows).
  { rewrite Hdb in Hdb'. apply (f_equal control_findings) in Hdb'. cbn in Hdb'.
    now apply app_inv_tail in Hdb'. }
  subst rows'.
  exists rows. rewrite Hf, Hdb. cbn [set_control_findings control_findings]. rewrite Hs.
  split; [reflexivity |].
  subst a. cbn [criticalFindings observations majorFindings minorFindings completed_row
                nonCompliantControls partialControls].
  cbn in K1, K2, K3, K4, T2, T3.
  repeat (split; [assumption |]).
  rewrite K3, K4, T2, T3. exact K7.
Qed.

Lemma control_selected_spec a c :
  control_selected a c = true ->
  ctl_frameworkId c = frameworkId a /\
  (scope a <> [] -> exists d, domain c = Some d /\ d ∈ scope a) /\
  ctl_id c ∉ excludedControls a.
Proof.
  unfold control_selected. intros H.
  apply andb_true_iff in H as [H Hex]. apply andb_true_iff in H as [Hfw Hsc].
  apply bool_decide_eq_true in Hfw. split; [exact Hfw |]. split.
  - intros Hne. rewrite bool_decide_eq_false_2 in Hsc by exact Hne.
    destruct (domain c) as [d |]; [| discriminate].
    apply bool_decide_eq_true in Hsc. eauto.
  - case_bool_decide as He.
    + rewrite He. apply not_elem_of_nil.
    + now apply bool_decide_eq_true in Hex.
Qed.

(** X19: a run evaluates the controls the assessment selects, each once
    and in descending order of implementation priority, and inserts its
    findings in that order: the controls of the assessment's framework,
    within its scope when it has one, and not among its excluded
    controls.  The order of controls of equal priority is left to the
    database. *)
Theorem runAssessment_visits_selected_controls_by_priority env context aid options db :
  match runAssessment env context aid options db with
  | (Ok a, db') =>
      exists a0 controls rows,
        getAssessment (tenantId context) aid db = Some a0 /\
        control_findings db' = rows ++ control_findings db /\
        controlId <$> rev rows = ctl_id <$> controls /\
        controls ≡ₚ filter (fun c => control_selected a0 c = true) (compliance_controls db) /\
        StronglySorted priority_desc controls /\
        Forall (fun c =>
                  ctl_frameworkId c = frameworkId a0 /\
                  (scope a0 <> [] -> exists d, domain c = Some d /\ d ∈ scope a0) /\
                  ctl_id c ∉ excludedControls a0) controls
  | (Err _, _) => True
  end.
Proof.
  destruct (runAssessment env context aid options db) as [[a | e] db'] eqn:H; [| exact I].
  apply runAssessment_ok in H
    as (a0 & controls & rows & t & Hget & _ & Hsel & Hrows & _ & _ & Hf & _).
  exists a0, controls, rows. split; [exact Hget |]. split; [exact Hf |].
  unfold select_controls in Hsel. injection Hsel as <-.
  set (selected := filter _ (compliance_controls db)) in *.
  split; [| split; [| split]].
  - clear -Hrows. induction Hrows as [| c f cs fs (i & t0 & ->) _ IH];
      [reflexivity |]. cbn [fmap list_fmap]. f_equal. exact IH.
  - apply order_by_priority_desc_perm.
  - apply order_by_priority_desc_sorted.
  - rewrite (order_by_priority_desc_perm env selected).
    apply Forall_forall. intros c Hc. apply list_elem_of_filter in Hc as [Hc _].
    now apply control_selected_spec.
Qed.

(** X20: when the request asks for AI assistance and the configuration has
    it disabled, no control is assessed and the score is 0, and yet the
    assessment records an AI model and the confidence 0.75. *)
Theorem runAssessment_records_a_model_when_AI_is_disabled env context aid options db :
  useAI options = true ->
  ai_enabled env = false ->
  match runAssessment env context aid options db with
  | (Ok a, db') =>
      aiModelUsed a = Some (default (ai_model env) (aiModel options)) /\
      asm_aiConfidence a = Some (75 # 100)%Q /\
      compliantControls a + nonCompliantControls a + partialControls a
      + notApplicableControls a = 0 /\
      overallScore a = Some 0%Z /\
      riskLevel a = Some RiskLevel.critical
  | (Err _, db') => db' = db
  end.
Proof.
  intros Hai Hoff.
  destruct (runAssessment env context aid options db) as [[a | e] db'] eqn:H.
  2: { now apply transaction_rollback in H. }
  apply runAssessment_ok in H
    as (a0 & controls & rows & t & _ & _ & _ & Hrows & (T1 & T2 & T3 & T4) & Ha & _).
  assert (Hna : Forall (fun f => fnd_status f = FindingStatus.not_assessed) rows).
  { eapply Forall2_Forall_rev; [| exact Hrows].
    intros control f Hrow.
    apply (row_of_control_manual env context aid options control f) in Hrow; [tauto |].
    now rewrite Hai, Hoff. }
  assert (Hzero : forall st, st <> FindingStatus.not_assessed -> count_status st rows = 0).
  { intros st Hst. unfold count_status.
    rewrite (filter_none (fun f => fnd_status f = st)); [reflexivity |].
    eapply Forall_impl; [exact Hna |]. cbn. congruence. }
  rewrite !Hzero in T1, T2, T3, T4 by discriminate. cbn in T1, T2, T3, T4.
  subst a. cbn [aiModelUsed asm_aiConfidence compliantControls nonCompliantControls
                partialControls notApplicableControls overallScore riskLevel completed_row].
  rewrite Hai, T1, T2, T3, T4. repeat split; reflexivity.
Qed.

Lemma runAssessment_records_a_model_when_AI_is_disabled_witness :
  let env := mkEnv (uuidv4 sample_env) (random sample_env) 1000 false "default-model"
               (fun _ => false) (scan_order sample_env) in
  exists a db',
    runAssessment env sample_context "uuid-0" with_AI db_pending = (Ok a, db') /\
    aiModelUsed a = Some "default-model" /\
    overallScore a = Some 0%Z.
Proof.
  cbv zeta.
  pose proof (runAssessment_records_a_model_when_AI_is_disabled
                (mkEnv (uuidv4 sample_env) (random sample_env) 1000 false "default-model"
                   (fun _ => false) (scan_order sample_env))
                sample_context "uuid-0" with_AI db_pending eq_refl eq_refl) as H.
  destruct (runAssessment _ sample_context "uuid-0" with_AI db_pending)
    as [[a | e] db'] eqn:E; [| vm_compute in E; discriminate].
  exists a, db'. split; [reflexivity |]. tauto.
Defined.

Lemma runAssessment_severity_counters_witness :
  exists a db',
    runAssessment sample_env sample_context "uuid-0" with_AI db_pending = (Ok a, db') /\
    criticalFindings a = 0 /\
    majorFindings a + minorFindings a = nonCompliantControls a + partialControls a.
Proof.
  pose proof (runAssessment_severity_counters sample_env sample_context "uuid-0" with_AI
                db_pending) as H.
  destruct (runAssessment sample_env sample_context "uuid-0" with_AI db_pending)
    as [[a | e] db'] eqn:E; [| vm_compute in E; discriminate].
  destruct H as (rows & _ & Hc & _ & _ & _ & Hsum).
  exists a, db'. auto.
Defined.

Lemma runAssessment_visits_selected_controls_by_priority_witness :
  exists a db' controls,
    runAssessment sample_env sample_context "uuid-0" with_AI db_pending = (Ok a, db') /\
    StronglySorted priority_desc controls /\
    controls ≡ₚ compliance_controls db_pending.
Proof.
  pose proof (runAssessment_visits_selected_controls_by_priority sample_env sample_context
                "uuid-0" with_AI db_pending) as H.
  destruct (runAssessment sample_env sample_context "uuid-0" with_AI db_pending)
    as [[a | e] db'] eqn:E; [| vm_compute in E; discriminate].
  destruct H as (a0 & controls & rows & Hget & _ & _ & Hperm & Hsorted & _).
  exists a, db', controls. split; [reflexivity |]. split; [exact Hsorted |].
  vm_compute in Hget. injection Hget as <-. exact Hperm.
Defined.

(** ** updateFinding: refusals, idempotence, frame *)

(** X21: [updateFinding] without any field to update is refused before the
    database is asked; with fields, a finding the caller's tenant does
    not own, or that does not exist, is reported as not found; in both
    cases nothing is written. *)
Theorem updateFinding_rejects env context fid updates db :
  (no_updates updates = true ->
   updateFinding env context fid updates db = (Err NoValidFields, db)) /\
  (no_updates updates = false ->
   fault env (AtQuery 0) = false ->
   Forall (fun f => fnd_id f = fid -> fnd_tenantId f <> tenantId context)
     (control_findings db) ->
   updateFinding env context fid updates db = (Err (FindingNotFound fid), db)).
Proof.
  unfold updateFinding. split.
  - now intros ->.
  - intros -> Hq Hother. unfold query, update_finding. rewrite Hq.
    assert (Hnone : filter (fun f => finding_matches fid (tenantId context) f = true)
                      (control_findings db) = []).
    { apply filter_none. eapply Forall_impl; [exact Hother |].
      intros f Hf Hm. unfold finding_matches in Hm.
      apply andb_true_iff in Hm as [Hid Hten].
      apply bool_decide_eq_true in Hid, Hten. now apply Hf. }
    rewrite Hnone. cbn [fmap list_fmap]. unfold set_control_findings.
    rewrite (no_hit_no_change _ _ _ Hnone). now destruct db.
Qed.

Lemma apply_updates_idempotent env context u f :
  apply_updates env context u (apply_updates env context u f) = apply_updates env context u f.
Proof.
  unfold apply_updates, set_column, set_nullable. cbn.
  destruct (upd_status u), (upd_severity u), (upd_findingTitle u),
    (upd_findingDescription u), (upd_remediationPlan u), (upd_remediationOwner u),
    (upd_remediationDueDate u), (upd_remediationStatus u), (upd_verificationNotes u),
    (marks_verified u); reflexivity.
Qed.

Lemma finding_matches_apply_updates env context u fid tenant f :
  finding_matches fid tenant (apply_updates env context u f) = finding_matches fid tenant f.
Proof. reflexivity. Qed.

(** X22: [updateFinding] is idempotent: the same update applied again, at
    the same time and by the same user, returns the same finding and
    leaves the store as the first application left it. *)
Theorem updateFinding_idempotent env context fid updates db :
  updateFinding env context fid updates (snd (updateFinding env context fid updates db))
  = updateFinding env context fid updates db.
Proof.
  unfold updateFinding.
  destruct (no_updates updates) eqn:Hu; [reflexivity |].
  unfold query. destruct (fault env (AtQuery 0)) eqn:Hq; [reflexivity |].
  unfold update_finding.
  set (hit := finding_matches fid (tenantId context)).
  set (g := apply_updates env context updates).
  assert (Hmap : forall l : list ControlFinding,
            filter (fun f => hit f = true) ((fun f => if hit f then g f else f) <$> l)
            = g <$> filter (fun f => hit f = true) l).
  { induction l as [| f l IH]; [reflexivity |].
    cbn [fmap list_fmap]. rewrite !filter_cons.
    destruct (hit f) eqn:Hf.
    - unfold hit, g. rewrite finding_matches_apply_updates. fold hit g. rewrite Hf.
      rewrite !decide_True by reflexivity. cbn [fmap list_fmap]. f_equal. exact IH.
    - rewrite Hf. rewrite !decide_False by discriminate. exact IH. }
  assert (Hmap2 : forall l : list ControlFinding,
            (fun f => if hit f then g f else f) <$> ((fun f => if hit f then g f else f) <$> l)
            = (fun f => if hit f then g f else f) <$> l).
  { intros l. rewrite <- list_fmap_compose. apply list_fmap_ext. intros _ f _. cbn.
    destruct (hit f) eqn:Hf.
    - unfold hit, g. rewrite finding_matches_apply_updates. fold hit g. rewrite Hf.
      apply apply_updates_idempotent.
    - now rewrite Hf. }
  assert (Hgg : forall l : list ControlFinding, g <$> (g <$> l) = g <$> l).
  { intros l. rewrite <- list_fmap_compose. apply list_fmap_ext. intros _ f _.
    apply apply_updates_idempotent. }
  destruct (filter (fun f => hit f = true) (control_findings db)) as [| f rest] eqn:Hhit.
  - cbn [fmap list_fmap snd].
    cbn [set_control_findings control_findings]. rewrite Hmap, Hhit.
    cbn [fmap list_fmap]. unfold set_control_findings.
    cbn [compliance_config compliance_config_audit compliance_frameworks compliance_controls
         compliance_assessments control_findings].
    now rewrite Hmap2.
  - cbn [fmap list_fmap snd].
    cbn [set_control_findings control_findings]. rewrite Hmap, Hhit.
    cbn [fmap list_fmap]. unfold set_control_findings.
    cbn [compliance_config compliance_config_audit compliance_frameworks compliance_controls
         compliance_assessments control_findings].
    rewrite Hmap2. unfold g at 1 2. now rewrite apply_updates_idempotent.
Qed.

(** X23: [updateFinding] writes the fields it is given, the verification
    fields and [updated_at] of the findings with the given id of the
    caller's tenant; every other finding is as before, in its place, and
    the identity of a finding, its AI assessment and confidence, its
    [remediationRequired] flag and its creation time never change. *)
Theorem updateFinding_changes_only_the_addressed_finding env context fid updates db :
  let db' := snd (updateFinding env context fid updates db) in
  length (control_findings db') = length (control_findings db) /\
  forall i f,
    control_findings db !! i = Some f ->
    exists f',
      control_findings db' !! i = Some f' /\
      (fnd_id f <> fid \/ fnd_tenantId f <> tenantId context -> f' = f) /\
      fnd_id f' = fnd_id f /\
      fnd_tenantId f' = fnd_tenantId f /\
      assessmentId f' = assessmentId f /\
      controlId f' = controlId f /\
      aiAssessment f' = aiAssessment f /\
      aiConfidence f' = aiConfidence f /\
      remediationRequired f' = remediationRequired f /\
      fnd_createdAt f' = fnd_createdAt f.
Proof.
  cbv zeta. unfold updateFinding.
  assert (Hsame : forall i f, control_findings db !! i = Some f ->
            exists f', control_findings db !! i = Some f' /\
              (fnd_id f <> fid \/ fnd_tenantId f <> tenantId context -> f' = f) /\
              fnd_id f' = fnd_id f /\ fnd_tenantId f' = fnd_tenantId f /\
              assessmentId f' = assessmentId f /\ controlId f' = controlId f /\
              aiAssessment f' = aiAssessment f /\ aiConfidence f' = aiConfidence f /\
              remediationRequired f' = remediationRequired f /\
              fnd_createdAt f' = fnd_createdAt f).
  { intros i f Hf. exists f. auto 12. }
  destruct (no_updates updates); [cbn [snd]; auto |].
  unfold query. destruct (fault env (AtQuery 0)); [cbn [snd]; auto |].
  unfold update_finding.
  assert (Hgoal :
            length ((fun f => if finding_matches fid (tenantId context) f
                              then apply_updates env context updates f else f)
                      <$> control_findings db) = length (control_findings db) /\
            forall i f, control_findings db !! i = Some f ->
              exists f',
                ((fun f => if finding_matches fid (tenantId context) f
                           then apply_updates env context updates f else f)
                   <$> control_findings db) !! i = Some f' /\
                (fnd_id f <> fid \/ fnd_tenantId f <> tenantId context -> f' = f) /\
                fnd_id f' = fnd_id f /\ fnd_tenantId f' = fnd_tenantId f /\
                assessmentId f' = assessmentId f /\ controlId f' = controlId f /\
                aiAssessment f' = aiAssessment f /\ aiConfidence f' = aiConfidence f /\
                remediationRequired f' = remediationRequired f /\
                fnd_createdAt f' = fnd_createdAt f).
  2: { destruct (filter _ (control_findings db)) as [| g rest]; exact Hgoal. }
  split; [apply length_fmap |].
  intros i f Hf. rewrite list_lookup_fmap, Hf. cbn [fmap option_fmap option_map].
  eexists. split; [reflexivity |].
  unfold finding_matches.
  split.
  - intros [Hid | Hten].
    + now rewrite (bool_decide_eq_false_2 _ Hid).
    + rewrite (bool_decide_eq_false_2 _ Hten). now rewrite andb_false_r.
  - destruct (_ && _); cbn; auto 10.
Qed.

(** ** Column names and property names *)

Lemma upper_lower c : is_upper c = true -> is_lower (toLowerCase c) = true /\
                                            toUpperCase (toLowerCase c) = c.
Proof.
  intros H. unfold toLowerCase. rewrite H.
  unfold is_upper in H. apply andb_true_iff in H as [H1 H2].
  apply Nat.leb_le in H1, H2.
  assert (Hn : nat_of_ascii (ascii_of_nat (nat_of_ascii c + 32)) = nat_of_ascii c + 32)
    by (apply nat_ascii_embedding; lia).
  unfold toUpperCase, is_lower. rewrite Hn.
  replace (97 <=? nat_of_ascii c + 32)%nat with true by (symmetry; apply Nat.leb_le; lia).
  replace (nat_of_ascii c + 32 <=? 122)%nat with true by (symmetry; apply Nat.leb_le; lia).
  cbn [andb]. split; [reflexivity |].
  replace (nat_of_ascii c + 32 - 32) with (nat_of_ascii c) by lia.
  apply ascii_nat_embedding.
Qed.

Lemma lower_upper c : is_lower c = true -> is_upper (toUpperCase c) = true /\
                                            toLowerCase (toUpperCase c) = c.
Proof.
  intros H. unfold toUpperCase. rewrite H.
  unfold is_lower in H. apply andb_true_iff in H as [H1 H2].
  apply Nat.leb_le in H1, H2.
  assert (Hn : nat_of_ascii (ascii_of_nat (nat_of_ascii c - 32)) = nat_of_ascii c - 32)
    by (apply nat_ascii_embedding; lia).
  unfold toLowerCase, is_upper. rewrite Hn.
  replace (65 <=? nat_of_ascii c - 32)%nat with true by (symmetry; apply Nat.leb_le; lia).
  replace (nat_of_ascii c - 32 <=? 90)%nat with true by (symmetry; apply Nat.leb_le; lia).
  cbn [andb]. split; [reflexivity |].
  replace (nat_of_ascii c - 32 + 32) with (nat_of_ascii c) by lia.
  apply ascii_nat_embedding.
Qed.

Lemma upper_not_lower c : is_upper c = true -> is_lower c = false.
Proof.
  unfold is_upper, is_lower. intros H. apply andb_true_iff in H as [H1 H2].
  apply Nat.leb_le in H1, H2. apply andb_false_iff. left. apply Nat.leb_gt. lia.
Qed.

Lemma underscore_not_letter : is_upper "_"%char = false /\ is_lower "_"%char = false.
Proof. split; reflexivity. Qed.

(** The first byte of [camelToSnake rest] is a lower-case letter only when
    the first byte of [rest] is. *)
Lemma camelToSnake_head rest :
  match camelToSnake rest, rest with
  | String d' _, String d _ => is_lower d' = true -> d' = d
  | EmptyString, EmptyString => True
  | _, _ => False
  end.
Proof.
  destruct rest as [| d rest]; [exact I |]. cbn.
  destruct (is_upper d); [discriminate |]. reflexivity.
Qed.

(** X24: a property name in camel case survives the trip to its column
    name and back. *)
Theorem snakeToCamel_camelToSnake s :
  camel s = true -> snakeToCamelKey (camelToSnake s) = s.
Proof.
  induction s as [| c rest IH]; [reflexivity |].
  intros Hc. cbn [camelToSnake].
  assert (Hrest : camel rest = true).
  { cbn in Hc. destruct rest; [reflexivity |]. now apply andb_true_iff in Hc as [_ ?]. }
  specialize (IH Hrest).
  destruct (is_upper c) eqn:Hu.
  - cbn [snakeToCamelKey]. destruct (upper_lower c Hu) as [Hl Hul].
    rewrite Hl. cbn. now rewrite Hul, IH.
  - pose proof (camelToSnake_head rest) as Hhead.
    cbn [snakeToCamelKey].
    destruct (camelToSnake rest) as [| d' rest''] eqn:E.
    + destruct rest; [reflexivity | contradiction].
    + destruct rest as [| d rest']; [contradiction |].
      destruct (Ascii.eqb c "_"%char && is_lower d') eqn:Hm.
      * exfalso. apply andb_true_iff in Hm as [Hc1 Hd].
        specialize (Hhead Hd). subst d'.
        cbn in Hc. rewrite Hc1, Hd in Hc. discriminate.
      * now rewrite IH.
Qed.

Lemma snakeToCamel_camelToSnake_witness :
  snakeToCamelKey (camelToSnake "remediationDueDate") = "remediationDueDate".
Proof. apply snakeToCamel_camelToSnake. reflexivity. Defined.

Lemma camelToSnake_snakeToCamel_aux s :
  (lower_snake s = true -> camelToSnake (snakeToCamelKey s) = s) /\
  (forall c, lower_snake (String c s) = true ->
             camelToSnake (snakeToCamelKey (String c s)) = String c s).
Proof.
  induction s as [| d rest [IH1 IH2]].
  - split; [reflexivity |]. intros c Hc. cbn in *.
    apply andb_true_iff in Hc as [Hc _]. apply negb_true_iff in Hc. now rewrite Hc.
  - split; [apply IH2 |].
    intros c Hc. cbn [lower_snake] in Hc.
    apply andb_true_iff in Hc as [Hc Hrest]. apply negb_true_iff in Hc.
    cbn [snakeToCamelKey].
    destruct (Ascii.eqb c "_"%char && is_lower d) eqn:Hm.
    + apply andb_true_iff in Hm as [Hc1 Hd]. apply Ascii.eqb_eq in Hc1. subst c.
      destruct (lower_upper d Hd) as [Hu Hlu].
      cbn [camelToSnake]. rewrite Hu, Hlu. f_equal. f_equal.
      apply IH1. cbn [lower_snake] in Hrest. now apply andb_true_iff in Hrest as [_ ?].
    + cbn [camelToSnake]. rewrite Hc. f_equal. now apply IH2.
Qed.

(** X25: a column name (no upper-case letter) survives the trip to its
    property name and back, so no two columns get the same property
    name: [snakeToCamel] keeps every column of a row, under its converted
    name. *)
Theorem camelToSnake_snakeToCamel {V} (row : list (string * V)) :
  Forall (fun entry => lower_snake (fst entry) = true) row ->
  NoDup (fst <$> row) ->
  Forall (fun entry => camelToSnake (snakeToCamelKey (fst entry)) = fst entry) row /\
  (forall key value, (key, value) ∈ row ->
     snakeToCamel row !! snakeToCamelKey key = Some value) /\
  size (snakeToCamel row) = length row.
Proof.
  intros Hlow Hnd.
  assert (Hrt : Forall (fun entry => camelToSnake (snakeToCamelKey (fst entry)) = fst entry)
                  row).
  { eapply Forall_impl; [exact Hlow |]. intros [k v] Hk.
    now apply camelToSnake_snakeToCamel_aux. }
  split; [exact Hrt |].
  unfold snakeToCamel.
  assert (Hgen : forall acc : gmap string V,
            (forall key, key ∈ (fst <$> row) -> acc !! snakeToCamelKey key = None) ->
            (forall key value, (key, value) ∈ row ->
               foldl (fun result '(key, value) => <[snakeToCamelKey key := value]> result)
                 acc row !! snakeToCamelKey key = Some value) /\
            (forall k, (forall key, key ∈ (fst <$> row) -> snakeToCamelKey key <> k) ->
               foldl (fun result '(key, value) => <[snakeToCamelKey key := value]> result)
                 acc row !! k = acc !! k) /\
            size (foldl (fun result '(key, value) => <[snakeToCamelKey key := value]> result)
                    acc row) = size acc + length row).
  { induction row as [| [k v] row IH]; intros acc Hacc.
    - split; [intros key value H; inversion H |]. split; [reflexivity |]. cbn. lia.
    - apply Forall_cons in Hlow as [Hk Hlow]. apply Forall_cons in Hrt as [Hkrt Hrt].
      cbn [fmap list_fmap fst] in Hnd. apply NoDup_cons in Hnd as [Hnotin Hnd].
      cbn [fst] in Hk, Hkrt.
      assert (Hinj : forall key, key ∈ (fst <$> row) -> snakeToCamelKey key <> snakeToCamelKey k).
      { intros key Hin Heq. apply Hnotin.
        apply list_elem_of_fmap in Hin as ([k' v'] & -> & Hin'). cbn [fst] in *.
        assert (Hk' : camelToSnake (snakeToCamelKey k') = k').
        { rewrite Forall_forall in Hrt. apply (Hrt (k', v') Hin'). }
        assert (k' = k) by (rewrite <- Hk', Heq; exact Hkrt). subst k'.
        apply list_elem_of_fmap. exists (k, v'). auto. }
      cbn [foldl].
      destruct (IH Hlow Hnd Hrt (<[snakeToCamelKey k := v]> acc)) as (IHa & IHb & IHc).
      { intros key Hin. rewrite lookup_insert_ne by (intros E; now apply (Hinj key Hin)).
        apply Hacc. cbn. now right. }
      split; [| split].
      + intros key value Hin. apply elem_of_cons in Hin as [[= -> ->] | Hin].
        * rewrite IHb by exact Hinj. apply lookup_insert_eq.
        * now apply IHa.
      + intros k0 Hk0. rewrite IHb.
        * apply lookup_insert_ne. apply Hk0. cbn. left.
        * intros key Hin. apply Hk0. cbn. now right.
      + rewrite IHc. rewrite map_size_insert_None; [cbn; lia |].
        apply Hacc. cbn. left. }
  destruct (Hgen ∅) as (Ha & _ & Hc); [intros; apply lookup_empty |].
  split; [exact Ha |]. rewrite Hc, map_size_empty. reflexivity.
Qed.

Lemma camelToSnake_snakeToCamel_witness :
  snakeToCamel [("previous_value", true); ("new_value", false)] !! "previousValue"
  = Some true.
Proof.
  destruct (camelToSnake_snakeToCamel [("previous_value", true); ("new_value", false)])
    as (_ & Hget & _).
  - repeat constructor.
  - apply (bool_decide_eq_true_1 _). reflexivity.
  - apply (Hget "previous_value" true). left.
Defined.

(** ** [Math.ceil] of a quotient of counts *)

Section Integers.

Import Binary64 Binary64Facts.

Local Open Scope Q_scope.

(** The integers below [2^53] are doubles. *)
Lemma round_ne_integer n : (0 <= n < 2 ^ 53)%Z -> round_ne (inject_Z n) == inject_Z n.
Proof.
  intros [Hn0 Hn]. unfold round_ne.
  destruct (Qcompare_spec (inject_Z n) 0) as [E | E | E].
  - now rewrite E.
  - exfalso. change 0 with (inject_Z 0) in E. rewrite <- Zlt_Qlt in E. lia.
  - unfold round_pos.
    destruct (ilog2_spec (inject_Z n) E) as [Hlo _].
    assert (He : (ilog2 (inject_Z n) < 53)%Z).
    { apply pow2_lt_inv. eapply Qle_lt_trans; [exact Hlo |].
      rewrite (pow2_Z 53) by lia. now rewrite <- Zlt_Qlt. }
    set (e := (ilog2 (inject_Z n) - 52)%Z) in *.
    assert (Hscaled : inject_Z n * pow2 (- e) == inject_Z (n * 2 ^ (- e))).
    { rewrite inject_Z_mult, (pow2_Z (- e)) by lia. reflexivity. }
    assert (Hr : rint_even (inject_Z n * pow2 (- e)) = (n * 2 ^ (- e))%Z).
    { apply Z.le_antisymm.
      - apply rint_even_le. rewrite Hscaled. apply Qle_refl.
      - apply rint_even_ge. rewrite Hscaled. apply Qle_refl. }
    rewrite Hr, inject_Z_mult, <- (pow2_Z (- e)) by lia.
    rewrite <- Qmult_assoc, <- (pow2_add (- e) e).
    replace (- e + e)%Z with 0%Z by lia. change (pow2 0) with 1. ring.
Qed.

(** [Math.ceil(total / limit)] on counts is the exact quotient rounded up:
    the rounding of the division never crosses an integer. *)
Lemma ceil_fdiv (total limit : nat) :
  (0 < limit)%nat -> (Z.of_nat total < 2 ^ 53)%Z ->
  math_ceil (fdiv (of_nat total) (of_nat limit))
  = ((Z.of_nat total + Z.of_nat limit - 1) / Z.of_nat limit)%Z.
Proof.
  intros Hl Ht. unfold math_ceil, fdiv, of_nat.
  set (T := Z.of_nat total) in *. set (L := Z.of_nat limit).
  assert (HL : (0 < L)%Z) by (unfold L; lia).
  assert (HT : (0 <= T)%Z) by (unfold T; lia).
  set (N := ((T + L - 1) / L)%Z).
  assert (HN : (L * (N - 1) < T <= L * N)%Z).
  { pose proof (Z.div_mod (T + L - 1) L ltac:(lia)) as Hdm.
    pose proof (Z.mod_pos_bound (T + L - 1) L HL) as Hm. fold N in Hdm. nia. }
  assert (HN0 : (0 <= N)%Z) by (apply Z.div_pos; lia).
  assert (HNT : (N <= T)%Z) by nia.
  assert (HLq : 0 < inject_Z L) by now apply inject_Z_pos.
  set (q := inject_Z T / inject_Z L).
  assert (Hq0 : 0 <= q).
  { apply Qle_shift_div_l; [exact HLq |]. rewrite Qmult_0_l.
    change 0 with (inject_Z 0). now rewrite <- Zle_Qle. }
  assert (HqN : q <= inject_Z N).
  { apply Qle_shift_div_r; [exact HLq |].
    rewrite <- inject_Z_mult, <- Zle_Qle. lia. }
  apply Z.le_antisymm.
  - rewrite <- (Qceiling_Z N). apply Qceiling_resp_le.
    eapply Qle_trans; [apply round_ne_mono; [exact Hq0 | exact HqN] |].
    rewrite round_ne_integer by lia. apply Qle_refl.
  - destruct (Z.eq_dec T 0%Z) as [HT0 | HT0].
    + assert (N = 0%Z) by nia. subst N. rewrite H.
      assert (Hq : q == 0) by (unfold q; rewrite HT0; reflexivity).
      unfold round_ne. destruct (Qcompare_spec q 0) as [E | E | E];
        [reflexivity | exfalso; lra | exfalso; lra].
    + enough (inject_Z (N - 1) < round_ne q) as Hlow.
      { pose proof (Qle_ceiling (round_ne q)) as Hc.
        pose proof (Qlt_le_trans _ _ _ Hlow Hc) as Hlt.
        rewrite <- Zlt_Qlt in Hlt. lia. }
      destruct (round_ne_error q Hq0) as [Herr _].
      eapply Qlt_le_trans; [| exact Herr].
      assert (Heq : q * (1 - eps) == inject_Z T * (1 - eps) / inject_Z L).
      { unfold q. field. intros E. rewrite E in HLq. now apply Qlt_irrefl in HLq. }
      rewrite Heq. apply Qlt_shift_div_l; [exact HLq |].
      rewrite <- inject_Z_mult.
      assert (HM : inject_Z ((N - 1) * L) <= inject_Z T + inject_Z (-1)).
      { rewrite <- inject_Z_plus, <- Zle_Qle. nia. }
      change (inject_Z (-1)) with (-1 # 1) in HM.
      assert (HTq : inject_Z T < inject_Z (2 ^ 53)) by now rewrite <- Zlt_Qlt.
      assert (HTp : 0 < inject_Z T).
      { apply inject_Z_pos. lia. }
      revert HM HTq HTp. generalize (inject_Z ((N - 1) * L)) (inject_Z T).
      intros M T' HM HTq HTp.
      change (inject_Z (2 ^ 53)) with (9007199254740992 # 1) in HTq.
      change eps with (1 # 9007199254740992). lra.
Qed.

End Integers.

(** ** Sorting and paging *)

(** ORDER BY gives a permutation of the rows, sorted when the order is
    total and transitive. *)
Lemma insert_ordered_perm {A} (before : A -> A -> bool) x l :
  insert_ordered before x l ≡ₚ x :: l.
Proof.
  induction l as [| y l IH]; [reflexivity |]. cbn.
  destruct (before x y); [reflexivity |]. rewrite IH. apply Permutation_swap.
Qed.

Lemma order_by_perm {A} (before : A -> A -> bool) l : order_by before l ≡ₚ l.
Proof.
  unfold order_by. induction l as [| x l IH]; [reflexivity |].
  cbn. rewrite insert_ordered_perm. now rewrite IH.
Qed.

Section Ordered.

Context {A : Type} (before : A -> A -> bool).

Hypothesis before_total : forall x y, before x y = true \/ before y x = true.

Hypothesis before_trans :
  forall x y z, before x y = true -> before y z = true -> before x z = true.

Lemma insert_ordered_sorted x l :
  StronglySorted (fun a b => before a b = true) l ->
  StronglySorted (fun a b => before a b = true) (insert_ordered before x l).
Proof.
  induction 1 as [| y l Hs IH Hy]; cbn.
  - repeat constructor.
  - destruct (before x y) eqn:Hxy.
    + constructor; [now constructor |].
      constructor; [exact Hxy |].
      eapply Forall_impl; [exact Hy |]. intros z Hz. now apply (before_trans x y z).
    + constructor; [exact IH |].
      rewrite insert_ordered_perm. constructor; [| exact Hy].
      destruct (before_total x y) as [H | H]; [congruence | exact H].
Qed.

Lemma order_by_sorted l : StronglySorted (fun a b => before a b = true) (order_by before l).
Proof.
  unfold order_by. induction l as [| x l IH]; cbn.
  - constructor.
  - now apply insert_ordered_sorted.
Qed.

End Ordered.

Lemma StronglySorted_take_drop {A} (R : A -> A -> Prop) n m l :
  StronglySorted R l -> StronglySorted R (take n (drop m l)).
Proof.
  intros H. rewrite <- (take_drop m l) in H. apply StronglySorted_app_1_r in H.
  rewrite <- (take_drop n (drop m l)) in H. now apply StronglySorted_app_1_l in H.
Qed.

Lemma StronglySorted_impl {A} (R R' : A -> A -> Prop) l :
  (forall x y, R x y -> R' x y) -> StronglySorted R l -> StronglySorted R' l.
Proof.
  intros HR. induction 1 as [| x l _ IH Hx]; constructor; [exact IH |].
  eapply Forall_impl; [exact Hx |]. intros y. apply HR.
Qed.

(** Sorting by a key: where [before] follows the order [le] of the keys
    and decides between equal keys as it likes, the result is sorted by
    the key. *)
Section Keyed.

Context {A : Type} (before : A -> A -> bool) (le : A -> A -> Prop).

Hypothesis before_le : forall x y, before x y = true -> le x y.

Hypothesis not_before_le : forall x y, before x y = false -> le y x.

Hypothesis le_trans : forall x y z, le x y -> le y z -> le x z.

Lemma insert_ordered_sorted_by x l :
  StronglySorted le l -> StronglySorted le (insert_ordered before x l).
Proof.
  induction 1 as [| y l Hs IH Hy]; cbn.
  - repeat constructor.
  - destruct (before x y) eqn:Hxy.
    + constructor; [now constructor |].
      constructor; [now apply before_le |].
      eapply Forall_impl; [exact Hy |]. intros z Hz.
      apply (le_trans x y z); [now apply before_le | exact Hz].
    + constructor; [exact IH |].
      rewrite insert_ordered_perm. constructor; [now apply not_before_le | exact Hy].
Qed.

Lemma order_by_sorted_by l : StronglySorted le (order_by before l).
Proof.
  unfold order_by. induction l as [| x l IH]; cbn.
  - constructor.
  - now apply insert_ordered_sorted_by.
Qed.

End Keyed.

(** *** Pages of the audit log *)

(** X13: a page of the audit log is the slice asked for of the rows of
    the asking tenant that pass the filters, newest first, rows of the
    same time in an order the database chooses; it holds at most [limit]
    rows; the total counts every such row; and [hasMore] holds exactly
    when rows are left after the page. *)
Theorem getAuditLog_pages env tenant limit offset act module db :
  let '(audits, total) := getAuditLog env tenant limit offset act module db in
  exists sorted,
    sorted ≡ₚ filter (fun a => audit_matches tenant act module a = true)
                (compliance_config_audit db) /\
    StronglySorted (fun a b => audit_createdAt b <= audit_createdAt a) sorted /\
    audits = take limit (drop offset sorted) /\
    total = length sorted /\
    Forall (fun a => audit_tenantId a = tenant /\ audit_matches tenant act module a = true)
      audits /\
    length audits = Nat.min limit (total - offset) /\
    (hasMore offset audits total = true <-> offset + limit < total).
Proof.
  unfold getAuditLog, hasMore, audit_rows.
  set (rows := filter _ (compliance_config_audit db)).
  pose proof (order_by_perm (created_before env) rows) as Hperm.
  exists (order_by (created_before env) rows).
  split; [exact Hperm |]. split; [| split; [reflexivity |]].
  { apply (order_by_sorted_by (created_before env)).
    - intros x y. unfold created_before.
      destruct (Nat.ltb_spec (audit_createdAt y) (audit_createdAt x)); cbn; [lia |].
      destruct (Nat.eqb_spec (audit_createdAt y) (audit_createdAt x)); cbn; [lia | discriminate].
    - intros x y. unfold created_before.
      destruct (Nat.ltb_spec (audit_createdAt y) (audit_createdAt x)); cbn; [discriminate |].
      lia.
    - intros x y z. lia. }
  assert (Hlen : length (order_by (created_before env) rows) = length rows)
    by now apply Permutation_length.
  split; [now rewrite Hlen |]. split; [| split].
  - apply Forall_take, Forall_drop. rewrite Hperm. apply Forall_forall. intros a Ha.
    apply list_elem_of_filter in Ha as [Hm _]. split; [| exact Hm].
    unfold audit_matches in Hm. apply andb_true_iff in Hm as [Hm _].
    apply andb_true_iff in Hm as [Hm _]. now apply bool_decide_eq_true in Hm.
  - rewrite length_take, length_drop, Hlen. reflexivity.
  - rewrite length_take, length_drop, Hlen. rewrite Nat.ltb_lt. lia.
Qed.

(** Paging: what [totalPages] and [hasNext] say. *)
Lemma totalPages_of_exact total limit :
  1 <= limit -> (Z.of_nat total < 2 ^ 53)%Z ->
  totalPages_of total limit = Pages ((Z.of_nat total + Z.of_nat limit - 1) / Z.of_nat limit).
Proof.
  intros Hl Ht. unfold totalPages_of. destruct limit as [| l]; [lia |].
  f_equal. apply ceil_fdiv; [lia | exact Ht].
Qed.

Lemma hasNext_exact page total limit :
  1 <= limit ->
  page_lt page (Pages ((Z.of_nat total + Z.of_nat limit - 1) / Z.of_nat limit)) = true
  <-> page * limit < total.
Proof.
  intros Hl. cbn [page_lt]. rewrite Z.ltb_lt.
  set (T := Z.of_nat total). set (L := Z.of_nat limit).
  assert (HL : (0 < L)%Z) by (unfold L; lia).
  set (N := ((T + L - 1) / L)%Z).
  assert (HN : (L * (N - 1) < T <= L * N)%Z).
  { pose proof (Z.div_mod (T + L - 1) L ltac:(lia)) as Hdm.
    pose proof (Z.mod_pos_bound (T + L - 1) L HL) as Hm. fold N in Hdm. nia. }
  assert (Hpl : Z.of_nat (page * limit) = (Z.of_nat page * L)%Z) by (unfold L; lia).
  split.
  - intros H. apply Nat2Z.inj_lt. rewrite Hpl. fold T. nia.
  - intros H. apply Nat2Z.inj_lt in H. rewrite Hpl in H. fold T in H. nia.
Qed.

(** The join keeps each finding once when its control is in the catalog
    once (PRIMARY KEY of compliance_controls, REFERENCES of
    control_findings.control_id). *)
Lemma filter_id_unique (controls : list ComplianceControl) id :
  NoDup (ctl_id <$> controls) -> id ∈ ctl_id <$> controls ->
  exists c, filter (fun c => ctl_id c = id) controls = [c].
Proof.
  induction controls as [| c controls IH]; intros Hnd Hin.
  - inversion Hin.
  - cbn [fmap list_fmap] in Hnd, Hin. apply NoDup_cons in Hnd as [Hnotin Hnd].
    rewrite filter_cons. case_decide as Hc.
    + exists c. f_equal. apply filter_none, Forall_forall. intros c' Hc' Heq.
      apply Hnotin. rewrite Hc, <- Heq. apply list_elem_of_fmap. eauto.
    + apply elem_of_cons in Hin as [Hin | Hin]; [congruence |]. now apply IH.
Qed.

Lemma join_controls_fst findings controls :
  NoDup (ctl_id <$> controls) ->
  Forall (fun f => controlId f ∈ ctl_id <$> controls) findings ->
  fst <$> join_controls findings controls = findings.
Proof.
  intros Hnd. unfold join_controls. induction 1 as [| f findings Hf _ IH]; [reflexivity |].
  rewrite bind_cons, fmap_app, IH.
  destruct (filter_id_unique controls (controlId f) Hnd Hf) as [c ->].
  reflexivity.
Qed.

Lemma finding_before_total x y : finding_before x y = true \/ finding_before y x = true.
Proof.
  unfold finding_before.
  destruct (Z.ltb_spec (severity_rank (severity (fst x))) (severity_rank (severity (fst y))));
    [now left |].
  destruct (Z.ltb_spec (severity_rank (severity (fst y))) (severity_rank (severity (fst x))));
    [now right |].
  rewrite !(proj2 (Z.eqb_eq _ _)) by lia. cbn [orb andb].
  destruct (Z.leb_spec (implementationPriority (snd y)) (implementationPriority (snd x)));
    [now left |].
  right. apply Z.leb_le. lia.
Qed.

Lemma finding_before_trans x y z :
  finding_before x y = true -> finding_before y z = true -> finding_before x z = true.
Proof.
  unfold finding_before. intros H1 H2.
  apply orb_true_iff in H1, H2. apply orb_true_iff.
  rewrite !andb_true_iff, !Z.ltb_lt, !Z.eqb_eq, !Z.leb_le in *. lia.
Qed.

Lemma finding_before_rank x y :
  finding_before x y = true ->
  (severity_rank (severity (fst x)) <= severity_rank (severity (fst y)))%Z.
Proof.
  unfold finding_before. intros H. apply orb_true_iff in H.
  rewrite andb_true_iff, Z.ltb_lt, Z.eqb_eq in H. lia.
Qed.



Lemma key_le_total k1 k2 : key_le k1 k2 = true \/ key_le k2 k1 = true.
Proof.
  destruct k1 as [x |], k2 as [y |]; cbn; auto.
  destruct (Z.leb_spec x y); [now left |]. right. apply Z.leb_le. lia.
Qed.

Lemma key_le_trans k1 k2 k3 : key_le k1 k2 = true -> key_le k2 k3 = true -> key_le k1 k3 = true.
Proof.
  destruct k1 as [x |], k2 as [y |], k3 as [z |]; cbn; try congruence.
  rewrite !Z.leb_le. lia.
Qed.

Lemma assessment_before_total field direction a b :
  assessment_before field direction a b = true \/ assessment_before field direction b a = true.
Proof. unfold assessment_before. destruct (String.eqb _ _); apply key_le_total. Qed.

Lemma assessment_before_trans field direction a b c :
  assessment_before field direction a b = true ->
  assessment_before field direction b c = true ->
  assessment_before field direction a c = true.
Proof.
  unfold assessment_before. destruct (String.eqb _ _); intros H1 H2;
    eapply key_le_trans; eauto.
Qed.



(** ** The routes *)


(** X32: PUT /config/master and PUT /config never answer 200: a body the
    schema refuses is answered 400, every other request 500, because the
    toggle behind the route fails at its first statement; the store is
    never changed through these routes. *)
Theorem toggle_routes_never_reply_200 env db :
  (forall request,
     put_config_master env request db
     = (mkReply (match toggleMasterSchema (body request) with
                 | Some _ => 500
                 | None => 400
                 end) None, db)) /\
  (forall request,
     put_config env request db
     = (mkReply (match toggleModuleSchema (body request) with
                 | Some _ => 500
                 | None => 400
                 end) None, db)).
Proof.
  split; intros request.
  - unfold put_config_master.
    destruct (toggleMasterSchema (body request)) as [parsed |]; [| reflexivity].
    now rewrite toggleMaster_fails.
  - unfold put_config.
    destruct (toggleModuleSchema (body request)) as [parsed |]; [| reflexivity].
    now rewrite toggleModule_fails.
Qed.

Lemma module_schema_sound module m : module_schema module = Some m -> module = module_key m.
Proof.
  unfold module_schema.
  repeat match goal with
         | |- context [String.eqb module ?k] =>
             destruct (String.eqb_spec module k) as [-> | _]; [now intros [= <-] |]
         end.
  discriminate.
Qed.

Lemma getConfig_ok env tenant db :
  no_faults env ->
  exists config db',
    getConfig env tenant db = (Ok config, db') /\
    compliance_config db' !! tenant = Some config /\
    (forall previous, compliance_config db !! tenant = Some previous ->
       config = previous /\ db' = db) /\
    (compliance_config db !! tenant = None ->
       config = created_config env tenant true /\
       db' = set_compliance_config (insert tenant config) db).
Proof.
  intros Hnf.
  destruct (compliance_config db !! tenant) as [c |] eqn:E.
  - exists c, db. rewrite (getConfig_existing env tenant db c (Hnf _) E).
    split; [reflexivity |]. split; [exact E |].
    split; [intros previous [= <-]; auto | discriminate].
  - rewrite (getConfig_missing env tenant db (Hnf _) (Hnf _) E).
    eexists _, _. split; [reflexivity |].
    cbn [set_compliance_config compliance_config]. rewrite lookup_insert_eq.
    split; [reflexivity |]. split; [discriminate |]. intros _. split; reflexivity.
Qed.

(** X29: GET /config/enabled/:module answers 400 to a module name that is
    not one of the six and does not touch the store. To a known module,
    when the database answers, it replies 200 with the verdict of
    [isEnabledIn] on the tenant's configuration; the store is unchanged
    when the tenant has a configuration, and otherwise this read creates
    and stores the default configuration, without an audit row. *)
Theorem get_config_enabled_route env request db :
  no_faults env ->
  let tenant := tenantId (getContext request) in
  match module_schema (fst (body request)) with
  | None => get_config_enabled env request db = (mkReply 400 None, db)
  | Some m =>
      fst (body request) = module_key m /\
      exists config db',
        get_config_enabled env request db
        = (mkReply 200 (Some (isEnabledIn config m (snd (body request)))), db') /\
        compliance_config db' !! tenant = Some config /\
        compliance_config_audit db' = compliance_config_audit db /\
        match compliance_config db !! tenant with
        | Some previous => config = previous /\ db' = db
        | None => masterEnabled config = true /\
                  moduleConfig config = DEFAULT_MODULE_CONFIG /\
                  compliance_config db' = <[tenant := config]> (compliance_config db)
        end
  end.
Proof.
  intros Hnf tenant. unfold get_config_enabled.
  destruct (body request) as [module feature]. cbn [fst snd].
  destruct (module_schema module) as [m |] eqn:Hm; [| reflexivity].
  split; [now apply module_schema_sound |].
  destruct (getConfig_ok env tenant db Hnf) as (config & db' & Hcfg & Hrow & Hold & Hnew).
  exists config, db'. unfold isEnabled. fold tenant. rewrite Hcfg.
  split; [reflexivity |]. split; [exact Hrow |].
  destruct (compliance_config db !! tenant) as [previous |] eqn:E.
  - destruct (Hold previous eq_refl) as [-> ->]. auto.
  - destruct (Hnew eq_refl) as [-> ->]. cbn. auto.
Qed.

Lemma get_config_enabled_route_witness :
  exists config db',
    get_config_enabled sample_env sample_enabled_request (db_catalog sample_catalog)
    = (mkReply 200 (Some (isEnabledIn config gdpr (Some "dataRetention"))), db') /\
    moduleConfig config = DEFAULT_MODULE_CONFIG /\
    compliance_config db' !! "t1" = Some config.
Proof.
  pose proof (get_config_enabled_route sample_env sample_enabled_request
                (db_catalog sample_catalog) (fun _ => eq_refl)) as H.
  cbv zeta in H.
  assert (Hm : module_schema (fst (body sample_enabled_request)) = Some gdpr) by reflexivity.
  rewrite Hm in H. destruct H as (_ & config & db' & Hrun & Hrow & _ & Hnew).
  assert (E : compliance_config (db_catalog sample_catalog)
                !! tenantId (getContext sample_enabled_request) = None)
    by (vm_compute; reflexivity).
  rewrite E in Hnew. exists config, db'.
  split; [exact Hrun |]. split; [apply Hnew | exact Hrow].
Defined.

(** X30: POST /assessments/:assessmentId/run answers 400, 200 or 500,
    never 404.  400 is the answer to a body the schema refuses (not an
    object, or a field of the wrong type) and to nothing else, and the
    store is not touched; a missing body is accepted, with the defaults.
    200 carries the assessment, completed and stored for the caller's
    tenant; 500 carries nothing and leaves the store as it was; an
    assessment that does not exist for the tenant gives 500 to a body the
    schema accepts.  GET /assessments/:assessmentId answers 404 for such
    an assessment when the database answers, 200 with the row when it
    exists, and 500 only when the query fails. *)
Theorem assessment_routes_replies env db :
  (forall request,
     let tenant := tenantId (getContext request) in
     let '(reply, db') := post_assessment_run env request db in
     (statusCode reply = 400 \/ statusCode reply = 200 \/ statusCode reply = 500) /\
     (statusCode reply = 400 <-> runAssessmentSchema (snd (body request)) = None) /\
     (snd (body request) = NoBody -> statusCode reply <> 400) /\
     (statusCode reply <> 200 -> payload reply = None /\ db' = db) /\
     (statusCode reply = 200 ->
        exists a, payload reply = Some a /\
                  status a = AssessmentStatus.completed /\
                  asm_tenantId a = tenant /\
                  getAssessment tenant (fst (body request)) db' = Some a) /\
     (getAssessment tenant (fst (body request)) db = None -> statusCode reply <> 200)) /\
  (forall request,
     let tenant := tenantId (getContext request) in
     let reply := get_assessment env request db in
     (statusCode reply = 500 <-> fault env (AtQuery 0) = true) /\
     (fault env (AtQuery 0) = false ->
        match getAssessment tenant (body request) db with
        | Some a => reply = mkReply 200 (Some a) /\ asm_tenantId a = tenant
        | None => reply = mkReply 404 None
        end)).
Proof.
  split; intros request tenant.
  - unfold post_assessment_run. fold tenant.
    destruct (body request) as [aid b]. cbn [fst snd].
    destruct (runAssessmentSchema b) as [parsed |] eqn:Hb.
    2: { cbn [statusCode payload]. split; [now left |]. split; [tauto |].
         split; [intros ->; discriminate |]. split; [auto |].
         split; discriminate. }
    destruct (runAssessment env (getContext request) aid parsed db)
      as [[a | e] db'] eqn:E.
    + apply runAssessment_ok in E
        as (a0 & controls & rows & t & Hget & _ & _ & _ & _ & Ha & _ & Hm & _).
      fold tenant in Hget.
      pose proof (getAssessment_lookup _ _ _ _ Hget) as [_ Hten].
      assert (Hten' : asm_tenantId a = tenant) by now subst a.
      cbn [statusCode payload].
      split; [right; now left |]. split; [split; discriminate |].
      split; [discriminate |]. split; [contradiction |]. split.
      * intros _. exists a. split; [reflexivity |]. split; [now subst a |].
        split; [exact Hten' |].
        unfold getAssessment. rewrite Hm, lookup_insert_eq.
        now rewrite bool_decide_eq_true_2.
      * rewrite Hget. discriminate.
    + apply transaction_rollback in E. subst db'. cbn [statusCode payload].
      split; [right; now right |]. split; [split; discriminate |].
      split; [discriminate |]. split; [auto |]. split; discriminate.
  - unfold get_assessment, query. fold tenant. cbv zeta.
    destruct (fault env (AtQuery 0)) eqn:Hq; cbn [fst].
    + split; [split; auto | discriminate].
    + destruct (getAssessment tenant (body request) db) as [a |] eqn:Hget.
      * cbn [statusCode]. split; [split; discriminate |]. intros _. split; [reflexivity |].
        now apply getAssessment_lookup in Hget.
      * cbn [statusCode]. split; [split; discriminate | auto].
Qed.

Lemma assessment_routes_replies_witness :
  post_assessment_run sample_env ill_typed_run_request db_pending
  = (mkReply 400 None, db_pending) /\
  statusCode (fst (post_assessment_run sample_env
                     (mkRequest {["x-tenant-id" := "t1"]} "req-3" "127.0.0.1" ("uuid-0", NoBody))
                     db_pending)) = 200.
Proof.
  split; [reflexivity |].
  pose proof (proj1 (assessment_routes_replies sample_env db_pending)
                (mkRequest {["x-tenant-id" := "t1"]} "req-3" "127.0.0.1" ("uuid-0", NoBody)))
    as H.
  cbv zeta in H.
  destruct (post_assessment_run sample_env _ db_pending) as [reply db'] eqn:E.
  destruct H as ([H | [H | H]] & _ & Hbody & Hfail & _); cbn [fst].
  - now destruct (Hbody eq_refl).
  - exact H.
  - exfalso. destruct (Hfail ltac:(rewrite H; discriminate)) as [_ Hdb].
    subst db'. vm_compute in E. discriminate.
Defined.
